(** * NucleusResourceAPI: hierarchy walks, authorization and resource lifecycle

  A shallow embedding of [src/library/ResourceAPI.nucleus.js].

  - JavaScript objects are finite maps from property names to values.
  - The two stores bound to [this] are explicit state; every store call
    can be made to fail, either by throwing at the call or by returning
    a promise that rejects.
  - An [async] function is a state transformer whose answer is the way
    its promise settles; a walk that recurses for ever is a run that
    exhausts every amount of fuel. *)

From stdpp Require Import gmap strings list fin_maps relations pretty.

Set Warnings "-register-all,-clear-no-such-hyp".

(** ** Fixed vocabulary *)

Definition SYSTEM : string := "SYSTEM".
Definition IS_MEMBER : string := "is-member".
Definition IS_AUTHORED : string := "is-authored".
Definition RESOURCE_ID_BY_TYPE_TABLE_NAME : string := "ResourceIDByType".

(** ** Hierarchy walks

  [walkHierarchyTreeUpward] and [walkHierarchyTreeDownward] differ only in
  the store read each branch issues, so the traversal is written once over
  that read.  A node reference is a node ID or [undefined] ([None]): the
  authorization checks pass [list[0]] of a possibly empty list. *)

Section HierarchyWalk.

(** The store read of a branch: direct parents when walking up, direct
    children when walking down. *)
Variable read : option string → list string.

(** The [depth] argument; [None] is the default [Infinity]. *)
Variable depth : option nat.

(** [list.forEach(nodeID => { if (!~nodeIDList.indexOf(nodeID)) nodeIDList.push(nodeID) })] *)
Definition pushNew (nodeIDList : list string) (found : list string) : list string :=
  foldl (λ acc nodeID, if bool_decide (nodeID ∈ acc) then acc else acc ++ [nodeID])
        nodeIDList found.

(** [nodeIDList.length >= depth] *)
Definition depthReached (nodeIDList : list string) : bool :=
  match depth with
  | None => false
  | Some d => bool_decide (d ≤ length nodeIDList)
  end.

(** [list.length === 0 || !!~list.indexOf('SYSTEM')] *)
Definition branchEnds (found : list string) : bool :=
  bool_decide (length found = 0) || bool_decide (SYSTEM ∈ found).

(** The body of [retrieveAncestorForResourceByID] from the point where its
    store read has resolved: the new contents of the shared [nodeIDList]
    and the recursive calls it starts (each of which at once issues its
    own read and suspends). *)
Definition resume (nodeIDList : list string) (resourceID : option string)
  : list string * list (option string) :=
  let found := read resourceID in
  if branchEnds found then (nodeIDList, [])
  else
    let nodeIDList' := pushNew nodeIDList found in
    if depthReached nodeIDList' then (nodeIDList', [])
    else (nodeIDList', Some <$> found).

(** A walk in progress: the shared list and the branches whose read is in
    flight. *)
Record walkState := WalkState {
  collected : list string;
  inFlight : list (option string)
}.

(** Reads resolve in any order; the continuation of the branch that
    resolves runs to completion before any other one resumes. *)
Inductive walk_step : walkState → walkState → Prop :=
| walk_resume acc before resourceID after acc' started :
    resume acc resourceID = (acc', started) →
    walk_step (WalkState acc (before ++ resourceID :: after))
              (WalkState acc' (before ++ after ++ started)).

Definition walk_init (resourceID : option string) : walkState :=
  WalkState [] [resourceID].

(** The walk's promise resolves with [nodeIDList] once no branch is left. *)
Definition walk_returns (resourceID : option string) (nodeIDList : list string) : Prop :=
  rtc walk_step (walk_init resourceID) (WalkState nodeIDList []).

(** The schedule in which reads resolve in the order they were issued. *)
Fixpoint runBranches (fuel : nat) (nodeIDList : list string)
    (queue : list (option string)) : option (list string) :=
  match queue with
  | [] => Some nodeIDList
  | resourceID :: rest =>
      match fuel with
      | O => None
      | S fuel' =>
          let '(nodeIDList', started) := resume nodeIDList resourceID in
          runBranches fuel' nodeIDList' (rest ++ started)
      end
  end.

Definition walk (fuel : nat) (resourceID : option string) : option (list string) :=
  runBranches fuel [] [resourceID].

(** Nodes at most [k] reads away from a node. *)
Fixpoint withinLevels (k : nat) (resourceID : option string) : list string :=
  match k with
  | O => []
  | S k' => read resourceID ++ (read resourceID ≫= λ n, withinLevels k' (Some n))
  end.

(** The nodes a branch has come through since the walk started at [start],
    most recent first. *)
Inductive trail (start : option string) : list string → option string → Prop :=
| trail_start : trail start [] start
| trail_next path resourceID parent :
    trail start path resourceID → parent ∈ read resourceID →
    trail start (parent :: path) (Some parent).

(** A walk under way stays within [limit] levels of [start]: what has been
    collected is that near, and every branch in flight has come through
    fewer than [limit] nodes, all of them collected. *)
Definition bounded (start : option string) (limit : nat) (s : walkState) : Prop :=
  (∀ x, x ∈ collected s → x ∈ withinLevels limit start) ∧
  (∀ n, n ∈ inFlight s →
     ∃ path, trail start path n ∧ path ⊆ collected s ∧ S (length path) ≤ limit).

(** What an unbounded walk from a node gathers, whatever the order in which
    its reads resolve. *)
Inductive gathers : option string → string → Prop :=
| gathers_here resourceID x :
    branchEnds (read resourceID) = false → x ∈ read resourceID → gathers resourceID x
| gathers_next resourceID parent x :
    branchEnds (read resourceID) = false → parent ∈ read resourceID →
    gathers (Some parent) x → gathers resourceID x.

(** The number of branches a walk starts from a node of height at most [h]. *)
Fixpoint branchCost (h : nat) (resourceID : option string) : nat :=
  match h with
  | O => 1
  | S h' => S (sum_list_with (λ n, branchCost h' (Some n)) (read resourceID))
  end.

(** The cost of the branches in flight, each node taken at its rank. *)
Definition queueCost (rank : option string → nat) (queue : list (option string)) : nat :=
  sum_list_with (λ n, branchCost (rank n) n) queue.

(** The nodes collected or still to be gathered by a branch in flight. *)
Definition inReach (s : walkState) (x : string) : Prop :=
  x ∈ collected s ∨ ∃ n, n ∈ inFlight s ∧ gathers n x.

End HierarchyWalk.


(** ** Values, resources and errors *)

(** A JavaScript value as far as this file looks into one.  ISO-8601
    timestamps are the strings [Date.prototype.toISOString] returns; for
    that fixed-width format the lexicographic order is the chronological
    one. *)
Inductive value :=
| VUndefined
| VNull
| VBool (b : bool)
| VNum (n : Z)
| VStr (s : string)
| VObj (properties : gmap string value).

(** The own enumerable string-keyed properties [Object.assign] copies from a
    source: those of an object, the indexed characters of a string, none for
    the other primitives. *)
Fixpoint indexedCharacters (index : nat) (s : string) : gmap string value :=
  match s with
  | EmptyString => ∅
  | String c rest =>
      <[pretty index := VStr (String c EmptyString)]> (indexedCharacters (S index) rest)
  end.

Definition ownEnumerable (source : value) : gmap string value :=
  match source with
  | VObj properties => properties
  | VStr s => indexedCharacters 0 s
  | _ => ∅
  end.

(** [Object.assign(target, source)]: properties of the source win. *)
Definition Object_assign (target : gmap string value) (source : value) : gmap string value :=
  ownEnumerable source ∪ target.

(** [object.property], [undefined] when absent. *)
Definition getProperty (object : gmap string value) (property : string) : value :=
  default VUndefined (object !! property).

(** Modelled from the spec: the error kinds of [Error.nucleus], which is not
    part of the sources (invalid-argument, undefined-context,
    unauthorized-action; the base class for everything else), and the
    failures raised by the external collaborators. *)
Inductive errorClass :=
| NucleusError
| UnexpectedValueTypeNucleusError
| UndefinedContextNucleusError
| UnauthorizedActionNucleusError
| ForeignError.

(** [new Class(message, { error })] *)
Inductive error :=
| Error (class : errorClass) (message : string) (cause : option error).

Definition errorClassOf (e : error) : errorClass := let 'Error class _ _ := e in class.
Definition errorMessage (e : error) : string := let 'Error _ message _ := e in message.
Definition errorCause (e : error) : option error := let 'Error _ _ cause := e in cause.

(** Modelled from the spec: the Resource a factory produces exposes its ID,
    its meta block and its storage key; [attributes] are its remaining
    fields. *)
Record Resource := {
  ID : string;
  meta : gmap string value;
  attributes : gmap string value;
  generateOwnItemKey : string
}.

(** The record a store keeps for a resource. *)
Definition resourceItem (resource : Resource) : gmap string value :=
  <["ID" := VStr (ID resource)]> (<["meta" := VObj (meta resource)]> (attributes resource)).

(** Modelled from the spec: the factory of [Resource.nucleus] (not part of
    the sources), [new NucleusResourceModel(attributes, authorUserID,
    reservedID)]; it validates and may throw. *)
Definition Model : Type := gmap string value → string → value → error + Resource.

(** What the module takes from files that are not part of the sources:
    the static key generator of [Resource.nucleus] and the string
    conversion of an error inside a template literal. *)
Class Collaborators := {
  generateItemKey : string → string → string;
  errorToString : error → string
}.

(** ** The stores

    Modelled from the spec: the contracts of section 6.  A store call either
    works, throws at the call, or returns a promise that rejects. *)

(** The way a store call fails. *)
Inductive fault :=
| Throws (e : error)
| Rejects (e : error).

(** The calls made on [$datastore]. *)
Inductive datastoreCall :=
| AddItemToHashFieldByName
| AddItemToSetByName
| RemoveItemByName
| RetrieveAllItemsFromHashByName
| ExistsAsync.

(** Modelled from the spec: the record store keeps records of fields by
    key and sets of members by table and name. *)
Record Datastore := {
  records : gmap string (gmap string value);
  indices : gmap (string * string) (gset string);
  datastoreFault : datastoreCall → option fault
}.

(** Modelled from the spec: a relationship edge is a triple of subject,
    predicate and object. *)
Record edge := Edge {
  subject : string;
  predicate : string;
  object : string
}.

(** The calls made on [$resourceRelationshipDatastore]. *)
Inductive relationshipCall :=
| CreateRelationshipBetweenSubjectAndObject
| RetrieveObjectOfRelationshipWithSubject
| RetrieveSubjectOfRelationshipWithObject
| RemoveAllRelationshipsToVector.

(** Modelled from the spec: the relationship store keeps directed labelled
    edges, here in the order its reads return them. *)
Record RelationshipDatastore := {
  edges : list edge;
  relationshipFault : relationshipCall → option fault
}.

(** Modelled from the spec: the record store (not part of the sources)
    writes a field set into a record by key, as a field-level merge. *)
Definition writeFields (key : string) (item : gmap string value) (ds : Datastore) : Datastore :=
  {| records := <[key := item ∪ default ∅ (records ds !! key)]> (records ds);
     indices := indices ds;
     datastoreFault := datastoreFault ds |}.

(** Modelled from the spec: the record store adds a member to a set by
    name. *)
Definition addMember (table name member : string) (ds : Datastore) : Datastore :=
  {| records := records ds;
     indices := <[(table, name) := {[member]} ∪ default ∅ (indices ds !! (table, name))]> (indices ds);
     datastoreFault := datastoreFault ds |}.

(** Modelled from the spec: the record store deletes a record by key. *)
Definition removeRecord (key : string) (ds : Datastore) : Datastore :=
  {| records := delete key (records ds);
     indices := indices ds;
     datastoreFault := datastoreFault ds |}.

(** Modelled from the spec: the record store reads all fields of a record
    by key. *)
Definition readFields (key : string) (ds : Datastore) : gmap string value :=
  default ∅ (records ds !! key).

(** Modelled from the spec: the record store checks the existence of a
    record by key. *)
Definition recordExists (key : string) (ds : Datastore) : bool :=
  bool_decide (is_Some (records ds !! key)).

(** Modelled from the spec: the relationship store (not part of the
    sources) reads the objects of the edges with a given subject and
    predicate (the direct parents for [is-member]), in the store's order; a
    reference that is not a node ID matches no edge. *)
Definition objectsOf (g : list edge) (relationship : string) (node : option string) : list string :=
  match node with
  | None => []
  | Some s => object <$> filter (λ e, subject e = s ∧ predicate e = relationship) g
  end.

(** Modelled from the spec: the relationship store reads the subjects of
    the edges with a given object and predicate (the direct children for
    [is-member]). *)
Definition subjectsOf (g : list edge) (relationship : string) (node : option string) : list string :=
  match node with
  | None => []
  | Some o => subject <$> filter (λ e, object e = o ∧ predicate e = relationship) g
  end.

(** Modelled from the spec: the relationship store creates an edge. *)
Definition addEdge (e : edge) (rs : RelationshipDatastore) : RelationshipDatastore :=
  {| edges := edges rs ++ [e]; relationshipFault := relationshipFault rs |}.

(** Modelled from the spec: the relationship store deletes every edge
    touching a given node ID as either endpoint. *)
Definition removeEdgesTouching (vector : string) (rs : RelationshipDatastore) : RelationshipDatastore :=
  {| edges := filter (λ e, subject e ≠ vector ∧ object e ≠ vector) (edges rs);
     relationshipFault := relationshipFault rs |}.

(** ** Promises and the ambient state *)

(** What a call can touch: the two stores bound to [this] and the object the
    caller passed as [resourceAttributes].  JavaScript passes that object by
    reference, so it lives in the state and the caller sees what the call
    did to it. *)
Record Machine := {
  datastore : option Datastore;
  resourceRelationshipDatastore : option RelationshipDatastore;
  resourceAttributes : value
}.

Definition setDatastore (ds : Datastore) (m : Machine) : Machine :=
  {| datastore := Some ds;
     resourceRelationshipDatastore := resourceRelationshipDatastore m;
     resourceAttributes := resourceAttributes m |}.

Definition setRelationshipDatastore (rs : RelationshipDatastore) (m : Machine) : Machine :=
  {| datastore := datastore m;
     resourceRelationshipDatastore := Some rs;
     resourceAttributes := resourceAttributes m |}.

Definition setResourceAttributes (v : value) (m : Machine) : Machine :=
  {| datastore := datastore m;
     resourceRelationshipDatastore := resourceRelationshipDatastore m;
     resourceAttributes := v |}.

(** A settled promise.  The effect of a store call is applied when the call
    is issued, so by the time a promise is looked at it has settled. *)
Inductive promise (A : Type) :=
| Fulfilled (a : A)
| RejectedWith (e : error).
Arguments Fulfilled {A} a.
Arguments RejectedWith {A} e.

(** How a piece of synchronous code completes. *)
Inductive completion (A : Type) :=
| Normal (a : A)
| Throw (e : error).
Arguments Normal {A} a.
Arguments Throw {A} e.

(** Synchronous code over the state; [None] is a computation that never
    completes (a promise nobody settles). *)
Definition Sync (A : Type) : Type := Machine → option (completion A * Machine).

#[global] Instance Sync_ret : MRet Sync := λ A a m, Some (Normal a, m).

#[global] Instance Sync_bind : MBind Sync := λ A B k c m,
  match c m with
  | None => None
  | Some (Throw e, m') => Some (Throw e, m')
  | Some (Normal a, m') => k a m'
  end.

Definition throw {A} (e : error) : Sync A := λ m, Some (Throw e, m).

Definition gets {A} (f : Machine → A) : Sync A := λ m, Some (Normal (f m), m).

Definition when (condition : bool) (c : Sync unit) : Sync unit :=
  if condition then c else mret tt.

(** [try { body } catch (error) { handler }]: only what the body throws
    while it runs is caught. *)
Definition tryCatch {A} (body : Sync A) (handler : error → Sync A) : Sync A := λ m,
  match body m with
  | Some (Throw e, m') => handler e m'
  | completed => completed
  end.

(** [await p] *)
Definition await {A} (p : promise A) : Sync A :=
  match p with
  | Fulfilled a => mret a
  | RejectedWith e => throw e
  end.

(** An [async] function never throws: what its body throws rejects its
    promise, and a promise its body returns is adopted as it is. *)
Definition async {A} (body : Sync (promise A)) : Sync (promise A) :=
  tryCatch body (λ e, mret (RejectedWith e)).

(** [p.then(callback)]: the callback runs only when [p] fulfils, and what it
    throws rejects the chain. *)
Definition then_ {A B} (p : promise A) (callback : A → Sync (promise B)) : Sync (promise B) :=
  match p with
  | Fulfilled a => async (callback a)
  | RejectedWith e => mret (RejectedWith e)
  end.

(** Bluebird's [p.return(value)] *)
Definition return_ {A B} (p : promise A) (v : B) : promise B :=
  match p with
  | Fulfilled _ => Fulfilled v
  | RejectedWith e => RejectedWith e
  end.

(** [Promise.all]: rejects with the first rejection (in the order of the
    array, the calls settling in the order they were issued). *)
Fixpoint Promise_all (promises : list (promise unit)) : promise unit :=
  match promises with
  | [] => Fulfilled tt
  | Fulfilled _ :: rest => Promise_all rest
  | RejectedWith e :: _ => RejectedWith e
  end.

(** Calling a method on [undefined]. *)
Definition TypeError : error :=
  Error ForeignError "TypeError: Cannot read properties of undefined" None.

Definition callDatastore {A} (call : datastoreCall) (effect : Datastore → A * Datastore)
  : Sync (promise A) := λ m,
  match datastore m with
  | None => Some (Throw TypeError, m)
  | Some ds =>
      match datastoreFault ds call with
      | Some (Throws e) => Some (Throw e, m)
      | Some (Rejects e) => Some (Normal (RejectedWith e), m)
      | None => let '(a, ds') := effect ds in Some (Normal (Fulfilled a), setDatastore ds' m)
      end
  end.

Definition callRelationshipDatastore {A} (call : relationshipCall)
    (effect : RelationshipDatastore → A * RelationshipDatastore) : Sync (promise A) := λ m,
  match resourceRelationshipDatastore m with
  | None => Some (Throw TypeError, m)
  | Some rs =>
      match relationshipFault rs call with
      | Some (Throws e) => Some (Throw e, m)
      | Some (Rejects e) => Some (Normal (RejectedWith e), m)
      | None => let '(a, rs') := effect rs in
                Some (Normal (Fulfilled a), setRelationshipDatastore rs' m)
      end
  end.

Definition addItemToHashFieldByName (key : string) (item : gmap string value) : Sync (promise unit) :=
  callDatastore AddItemToHashFieldByName (λ ds, (tt, writeFields key item ds)).

Definition addItemToSetByName (table name member : string) : Sync (promise unit) :=
  callDatastore AddItemToSetByName (λ ds, (tt, addMember table name member ds)).

Definition removeItemByName (key : string) : Sync (promise unit) :=
  callDatastore RemoveItemByName (λ ds, (tt, removeRecord key ds)).

Definition retrieveAllItemsFromHashByName (key : string) : Sync (promise (gmap string value)) :=
  callDatastore RetrieveAllItemsFromHashByName (λ ds, (readFields key ds, ds)).

Definition existsAsync (key : string) : Sync (promise bool) :=
  callDatastore ExistsAsync (λ ds, (recordExists key ds, ds)).

Definition createRelationshipBetweenSubjectAndObject (s relationship o : string)
  : Sync (promise unit) :=
  callRelationshipDatastore CreateRelationshipBetweenSubjectAndObject
    (λ rs, (tt, addEdge (Edge s relationship o) rs)).

Definition retrieveObjectOfRelationshipWithSubject (s : option string) (relationship : string)
  : Sync (promise (list string)) :=
  callRelationshipDatastore RetrieveObjectOfRelationshipWithSubject
    (λ rs, (objectsOf (edges rs) relationship s, rs)).

Definition retrieveSubjectOfRelationshipWithObject (o : option string) (relationship : string)
  : Sync (promise (list string)) :=
  callRelationshipDatastore RetrieveSubjectOfRelationshipWithObject
    (λ rs, (subjectsOf (edges rs) relationship o, rs)).

Definition removeAllRelationshipsToVector (vector : string) : Sync (promise unit) :=
  callRelationshipDatastore RemoveAllRelationshipsToVector
    (λ rs, (tt, removeEdgesTouching vector rs)).

(** ** HierarchyAuthorizer *)

(** [walkHierarchyTreeUpward(resourceID, depth)].  The walk resolves its
    promise only after the root branch has completed; when a read fails the
    executor stops before [resolve], so the promise stays pending (as it
    does when no relationship store is bound). *)
Definition walkHierarchyTreeUpward (fuel : nat) (resourceID : option string)
    (depth : option nat) : Sync (promise (list string)) := λ m,
  match resourceRelationshipDatastore m with
  | None => None
  | Some rs =>
      match relationshipFault rs RetrieveObjectOfRelationshipWithSubject with
      | Some _ => None
      | None =>
          match walk (objectsOf (edges rs) IS_MEMBER) depth fuel resourceID with
          | Some nodeIDList => Some (Normal (Fulfilled nodeIDList), m)
          | None => None
          end
      end
  end.

(** [walkHierarchyTreeDownward(resourceID, depth)] *)
Definition walkHierarchyTreeDownward (fuel : nat) (resourceID : option string)
    (depth : option nat) : Sync (promise (list string)) := λ m,
  match resourceRelationshipDatastore m with
  | None => Some (Normal (Fulfilled []), m)
  | Some rs =>
      match relationshipFault rs RetrieveSubjectOfRelationshipWithObject with
      | Some _ => None
      | None =>
          match walk (subjectsOf (edges rs) IS_MEMBER) depth fuel resourceID with
          | Some nodeIDList => Some (Normal (Fulfilled nodeIDList), m)
          | None => None
          end
      end
  end.

(** [first.slice(0).concat(second).filter(nodeID => third.indexOf(nodeID) !== -1)] *)
Definition nodeIDIntersectionList (first second third : list string) : list string :=
  filter (λ nodeID, nodeID ∈ third) (first ++ second).

(** [verifyThatUserCanRetrieveResource(userID, resourceID)]; the answer is
    the [canRetrieveResource] field. *)
Definition verifyThatUserCanRetrieveResource (fuel : nat) (userID resourceID : string)
  : Sync (promise bool) :=
  async (
    relationships ← gets resourceRelationshipDatastore;
    match relationships with
    | None => mret (Fulfilled true)
    | Some _ =>
        userAncestorNodeIDList ← walkHierarchyTreeUpward fuel (Some userID) None ≫= await;
        userDirectAncestorChildrenNodeIDList ←
          walkHierarchyTreeDownward fuel (head userAncestorNodeIDList) None ≫= await;
        resourceAncestorNodeIDList ← walkHierarchyTreeUpward fuel (Some resourceID) None ≫= await;
        if bool_decide (length (nodeIDIntersectionList userAncestorNodeIDList
                                  userDirectAncestorChildrenNodeIDList
                                  resourceAncestorNodeIDList) = 0)
        then mret (Fulfilled false)
        else mret (Fulfilled true)
    end).

(** [verifyThatUserCanUpdateResource(userID, resourceID)]; the answer is the
    [canUpdateResource] field. *)
Definition verifyThatUserCanUpdateResource (fuel : nat) (userID resourceID : string)
  : Sync (promise bool) :=
  async (
    relationships ← gets resourceRelationshipDatastore;
    match relationships with
    | None => mret (Fulfilled true)
    | Some _ =>
        userDirectAncestorNodeIDList ←
          retrieveObjectOfRelationshipWithSubject (Some userID) IS_MEMBER ≫= await;
        userDirectAncestorChildrenNodeIDList ←
          walkHierarchyTreeDownward fuel (head userDirectAncestorNodeIDList) None ≫= await;
        resourceAncestorNodeIDList ← walkHierarchyTreeUpward fuel (Some resourceID) None ≫= await;
        if bool_decide (length (nodeIDIntersectionList userDirectAncestorNodeIDList
                                  userDirectAncestorChildrenNodeIDList
                                  resourceAncestorNodeIDList) = 0)
        then mret (Fulfilled false)
        else mret (Fulfilled true)
    end).

(** ** ResourceLifecycleManager *)

(** Modelled from the spec: the input-validation utility is not part of the
    sources; a call rejects a resource type, resource ID or user ID that is
    not a string, a factory that is not a function, attributes that are not
    an object, and an empty user ID. *)
Definition isString (v : value) : bool :=
  match v with VStr _ => true | _ => false end.

Definition isObject (v : value) : bool :=
  match v with VObj _ => true | _ => false end.

(** The factory argument: a function, or some value that is not one. *)
Definition isFunction (NucleusResourceModel : option Model) : bool :=
  bool_decide (is_Some NucleusResourceModel).

Definition isEmpty (v : value) : bool :=
  match v with
  | VStr s => bool_decide (s = EmptyString)
  | VObj properties => bool_decide (size properties = 0)
  | _ => true
  end.

(** The string held by a value that has passed [isString]. *)
Definition stringOf (v : value) : string :=
  match v with VStr s => s | _ => EmptyString end.

(** [!parentNodeID] for an optional string argument. *)
Definition falsy (parentNodeID : option string) : bool :=
  match parentNodeID with
  | None => true
  | Some s => bool_decide (s = EmptyString)
  end.

(** [Reflect.deleteProperty(resourceAttributes, property)], on the caller's
    object itself. *)
Definition Reflect_deleteProperty (property : string) : Sync unit := λ m,
  match resourceAttributes m with
  | VObj properties =>
      Some (Normal tt, setResourceAttributes (VObj (delete property properties)) m)
  | _ => Some (Throw (Error ForeignError "TypeError: Reflect.deleteProperty called on non-object" None), m)
  end.

(** [new NucleusResourceModel(attributes, authorUserID, reservedID)] *)
Definition construct (NucleusResourceModel : option Model) (attributes : gmap string value)
    (authorUserID : string) (reservedID : value) : Sync Resource :=
  match NucleusResourceModel with
  | None => throw (Error ForeignError "TypeError: NucleusResourceModel is not a constructor" None)
  | Some factory =>
      match factory attributes authorUserID reservedID with
      | inl e => throw e
      | inr resource => mret resource
      end
  end.

(** The character U+0022 inside a message. *)
Definition doubleQuote : string := String (Ascii.ascii_of_nat 34) EmptyString.

Definition theResourceTypeMustBeAString : error :=
  Error UnexpectedValueTypeNucleusError "The resource type must be a string." None.
Definition theModelMustBeAnInstance : error :=
  Error UnexpectedValueTypeNucleusError
    "The Nucleus resource model must be an instance of NucleusResource." None.
Definition theResourceAttributesMustBeAnObject : error :=
  Error UnexpectedValueTypeNucleusError "The resource attributes must be an object." None.
Definition theResourceIDMustBeAString : error :=
  Error UnexpectedValueTypeNucleusError "The resource ID must be a string." None.
Definition theOriginUserIDMustBeAString : error :=
  Error UnexpectedValueTypeNucleusError
    "The origin user ID must be a string and can't be undefined." None.
Definition noDatastoreIsProvided : error :=
  Error UndefinedContextNucleusError "No datastore is provided." None.

Definition couldNotRetrieveTheNode (originUserID : string) : error :=
  Error NucleusError
    ("Could not retrieve the node which the origin user (" ++ originUserID ++ ") is member of.")
    None.

Definition couldNotCreate `{!Collaborators} (resourceType : string) (cause : error) : error :=
  Error NucleusError
    ("Could not create " ++ resourceType ++ " because of an external error: " ++ errorToString cause)
    (Some cause).

Definition notAuthorizedTo (action originUserID resourceType resourceID : string) : error :=
  Error UnauthorizedActionNucleusError
    ("The user (" ++ doubleQuote ++ originUserID ++ doubleQuote ++ ") is not authorized to "
       ++ action ++ " the " ++ resourceType ++ " (" ++ doubleQuote ++ resourceID ++ doubleQuote ++ ")")
    None.

Definition doesNotExist (resourceType resourceID : string) : error :=
  Error UndefinedContextNucleusError
    ("The " ++ resourceType ++ " (" ++ doubleQuote ++ resourceID ++ doubleQuote
       ++ ") does not exist.") None.

Definition isUndefined {A} (store : option A) : bool :=
  match store with None => true | Some _ => false end.

(** The properties of a value that has passed [isObject]. *)
Definition propertiesOf (v : value) : gmap string value :=
  match v with VObj properties => properties | _ => ∅ end.

(** What [createResource] resolves with. *)
Record creation := {
  resource : Resource;
  resourceAuthorID : string;
  resourceMemberNodeID : string
}.

(** [createResource(resourceType, NucleusResourceModel, resourceAttributes,
    originUserID, parentNodeID)]; [resourceAttributes] is the object held in
    the state. *)
Definition createResource `{!Collaborators} (resourceType : value)
    (NucleusResourceModel : option Model) (originUserID : value)
    (parentNodeID : option string) : Sync (promise creation) :=
  async (
    when (negb (isString resourceType)) (throw theResourceTypeMustBeAString);;
    when (negb (isFunction NucleusResourceModel)) (throw theModelMustBeAnInstance);;
    passedAttributes ← gets resourceAttributes;
    when (negb (isObject passedAttributes)) (throw theResourceAttributesMustBeAnObject);;
    when (negb (isString originUserID) || isEmpty originUserID)
      (throw theOriginUserIDMustBeAString);;
    let resourceType := stringOf resourceType in
    let originUserID := stringOf originUserID in
    store ← gets datastore;
    relationships ← gets resourceRelationshipDatastore;
    when (isUndefined store) (throw noDatastoreIsProvided);;
    parentNodeID ←
      (if negb (isUndefined relationships) && falsy parentNodeID
       then found ← retrieveObjectOfRelationshipWithSubject (Some originUserID) IS_MEMBER ≫= await;
            mret (head found)
       else mret parentNodeID);
    when (falsy parentNodeID) (throw (couldNotRetrieveTheNode originUserID));;
    let parentNodeID := default EmptyString parentNodeID in
    tryCatch (
      passedAttributes ← gets resourceAttributes;
      let reservedResourceID := getProperty (propertiesOf passedAttributes) "ID" in
      Reflect_deleteProperty "ID";;
      Reflect_deleteProperty "meta";;
      strippedAttributes ← gets resourceAttributes;
      resource ← construct NucleusResourceModel (propertiesOf strippedAttributes)
                   originUserID reservedResourceID;
      let resourceItemKey := generateOwnItemKey resource in
      recordWrite ← addItemToHashFieldByName resourceItemKey (resourceItem resource);
      indexWrite ← addItemToSetByName RESOURCE_ID_BY_TYPE_TABLE_NAME resourceType (ID resource);
      edgeWrites ← then_ (Promise_all [recordWrite; indexWrite]) (λ _,
        if isUndefined relationships then mret (Fulfilled tt)
        else
          memberEdge ← createRelationshipBetweenSubjectAndObject (ID resource) IS_MEMBER parentNodeID;
          authorEdge ← createRelationshipBetweenSubjectAndObject (ID resource) IS_AUTHORED originUserID;
          mret (Promise_all [memberEdge; authorEdge]));
      mret (return_ edgeWrites
              {| resource := resource;
                 resourceAuthorID := originUserID;
                 resourceMemberNodeID := parentNodeID |})
    ) (λ error, throw (couldNotCreate resourceType error))).

(** [removeResourceByID(resourceType, resourceID, originUserID)]; resolves
    with the [resourceID]. *)
Definition removeResourceByID `{!Collaborators} (fuel : nat) (resourceType resourceID : value)
    (originUserID : value) : Sync (promise string) :=
  async (
    when (negb (isString resourceType)) (throw theResourceTypeMustBeAString);;
    when (negb (isString resourceID)) (throw theResourceIDMustBeAString);;
    when (negb (isString originUserID) || isEmpty originUserID)
      (throw theOriginUserIDMustBeAString);;
    let resourceType := stringOf resourceType in
    let resourceID := stringOf resourceID in
    let originUserID := stringOf originUserID in
    store ← gets datastore;
    relationships ← gets resourceRelationshipDatastore;
    when (isUndefined store) (throw noDatastoreIsProvided);;
    canUpdateResource ← verifyThatUserCanUpdateResource fuel originUserID resourceID ≫= await;
    when (negb canUpdateResource)
      (throw (notAuthorizedTo "remove" originUserID resourceType resourceID));;
    let resourceItemKey := generateItemKey resourceType resourceID in
    resourceExists ← existsAsync resourceItemKey ≫= await;
    when (negb resourceExists) (throw (doesNotExist resourceType resourceID));;
    recordRemoval ← removeItemByName resourceItemKey;
    cleanup ← then_ (Promise_all [recordRemoval]) (λ _,
      if isUndefined relationships then mret (Fulfilled tt)
      else removeAllRelationshipsToVector resourceID);
    mret (return_ cleanup resourceID)).

(** [retrieveResourceByID(resourceType, NucleusResourceModel, resourceID,
    originUserID)]; resolves with the [resource]. *)
Definition retrieveResourceByID `{!Collaborators} (fuel : nat) (resourceType : value)
    (NucleusResourceModel : option Model) (resourceID originUserID : value)
  : Sync (promise Resource) :=
  async (
    when (negb (isString resourceType)) (throw theResourceTypeMustBeAString);;
    when (negb (isFunction NucleusResourceModel)) (throw theModelMustBeAnInstance);;
    when (negb (isString resourceID)) (throw theResourceIDMustBeAString);;
    when (negb (isString originUserID) || isEmpty originUserID)
      (throw theOriginUserIDMustBeAString);;
    let resourceType := stringOf resourceType in
    let resourceID := stringOf resourceID in
    let originUserID := stringOf originUserID in
    store ← gets datastore;
    when (isUndefined store) (throw noDatastoreIsProvided);;
    canRetrieveResource ← verifyThatUserCanRetrieveResource fuel originUserID resourceID ≫= await;
    when (negb canRetrieveResource)
      (throw (notAuthorizedTo "retrieve" originUserID resourceType resourceID));;
    let resourceItemKey := generateItemKey resourceType resourceID in
    resourceExists ← existsAsync resourceItemKey ≫= await;
    when (negb resourceExists) (throw (doesNotExist resourceType resourceID));;
    stored ← retrieveAllItemsFromHashByName resourceItemKey;
    then_ stored (λ storedAttributes,
      resource ← construct NucleusResourceModel storedAttributes originUserID VUndefined;
      mret (Fulfilled resource))).

(** [$resource.meta.updatedISOTime = time] *)
Definition setUpdatedISOTime (time : string) (resource : Resource) : Resource :=
  {| ID := ID resource;
     meta := <["updatedISOTime" := VStr time]> (meta resource);
     attributes := attributes resource;
     generateOwnItemKey := generateOwnItemKey resource |}.

(** The object [updatesResourceByID] hands to the store:
    [Object.assign({}, { meta: $resource.meta }, resourceAttributes)]. *)
Definition updateItem (resource : Resource) (patch : value) : gmap string value :=
  Object_assign (Object_assign ∅ (VObj {["meta" := VObj (meta resource)]})) patch.

(** [updatesResourceByID(resourceType, NucleusResourceModel, resourceID,
    resourceAttributes, originUserID)]; resolves with the [resource].
    [firstISOTime] and [secondISOTime] are the two readings
    [new Date().toISOString()] takes, in that order. *)
Definition updatesResourceByID `{!Collaborators} (fuel : nat) (firstISOTime secondISOTime : string)
    (resourceType : value) (NucleusResourceModel : option Model)
    (resourceID originUserID : value) : Sync (promise Resource) :=
  async (
    when (negb (isString resourceType)) (throw theResourceTypeMustBeAString);;
    when (negb (isFunction NucleusResourceModel)) (throw theModelMustBeAnInstance);;
    when (negb (isString resourceID)) (throw theResourceIDMustBeAString);;
    passedAttributes ← gets resourceAttributes;
    when (negb (isObject passedAttributes)) (throw theResourceAttributesMustBeAnObject);;
    when (negb (isString originUserID) || isEmpty originUserID)
      (throw theOriginUserIDMustBeAString);;
    let resourceType := stringOf resourceType in
    let resourceID := stringOf resourceID in
    let originUserID := stringOf originUserID in
    store ← gets datastore;
    when (isUndefined store) (throw noDatastoreIsProvided);;
    canUpdateResource ← verifyThatUserCanUpdateResource fuel originUserID resourceID ≫= await;
    when (negb canUpdateResource)
      (throw (notAuthorizedTo "update" originUserID resourceType resourceID));;
    let resourceItemKey := generateItemKey resourceType resourceID in
    resourceExists ← existsAsync resourceItemKey ≫= await;
    when (negb resourceExists) (throw (doesNotExist resourceType resourceID));;
    stale ← retrieveAllItemsFromHashByName resourceItemKey;
    then_ stale (λ staleResourceAttributes,
      let updatedISOTime := firstISOTime in
      let staleResourceAttributes :=
        <["meta" := VObj (Object_assign {["updatedISOTime" := VStr updatedISOTime]}
                            (getProperty staleResourceAttributes "meta"))]>
          staleResourceAttributes in
      Reflect_deleteProperty "ID";;
      Reflect_deleteProperty "meta";;
      patch ← gets resourceAttributes;
      resource ← construct NucleusResourceModel
                   (Object_assign (Object_assign ∅ (VObj staleResourceAttributes)) patch)
                   originUserID VUndefined;
      let resource := setUpdatedISOTime secondISOTime resource in
      written ← addItemToHashFieldByName resourceItemKey (updateItem resource patch);
      mret (return_ written resource))).

(** ** Specification-side notions *)

(** A finite graph is acyclic when its nodes can be ranked so that every
    [is-member] edge leads from a node to one of lower rank. *)
Definition acyclicHierarchy (g : list edge) : Prop :=
  ∃ rank : string → nat,
    ∀ e, e ∈ g → predicate e = IS_MEMBER → rank (object e) < rank (subject e).

(** The hierarchy can be walked: either no relationship store is bound, or
    its graph is acyclic and its reads work. *)
Definition walkableHierarchy (m : Machine) : Prop :=
  match resourceRelationshipDatastore m with
  | None => True
  | Some rs =>
      acyclicHierarchy (edges rs) ∧
      relationshipFault rs RetrieveObjectOfRelationshipWithSubject = None ∧
      relationshipFault rs RetrieveSubjectOfRelationshipWithObject = None
  end.

(** The spec's words for the shape of the hierarchy: the [is-member] edges
    form a forest, each subject having at most one direct [is-member]
    object, and [SYSTEM], the root of the forest, having none. *)
Definition memberForest (g : list edge) : Prop :=
  (∀ node, length (objectsOf g IS_MEMBER node) ≤ 1) ∧
  objectsOf g IS_MEMBER (Some SYSTEM) = [].

(** The spec's words for [verifyRetrieve]: allowed when no relationship
    store is configured; otherwise, with [A = walkUp(userID)],
    [B = walkDown(A[0])] and [R = walkUp(resourceID)], allowed iff
    [(A ∪ B) ∩ R] is not empty.  The walks are taken as whatever they return,
    in any order of resolution of their reads. *)
Definition retrieveAllowedBySpec (m : Machine) (userID resourceID : string) : Prop :=
  match resourceRelationshipDatastore m with
  | None => True
  | Some rs =>
      ∃ A B R,
        walk_returns (objectsOf (edges rs) IS_MEMBER) None (Some userID) A ∧
        walk_returns (subjectsOf (edges rs) IS_MEMBER) None (head A) B ∧
        walk_returns (objectsOf (edges rs) IS_MEMBER) None (Some resourceID) R ∧
        ∃ x, (x ∈ A ∨ x ∈ B) ∧ x ∈ R
  end.

(** The ranks that witness termination of the two walks. *)
Definition rankUpward (rank : string → nat) (node : option string) : nat :=
  match node with None => 0 | Some n => rank n end.

Definition rankDownward (g : list edge) (rank : string → nat) (node : option string) : nat :=
  match node with
  | None => 0
  | Some n => sum_list_with (λ e, rank (subject e)) g - rank n
  end.

(** A piece of code completes and leaves the caller's attributes object as
    it found it. *)
Definition keepsAttributes {A} (c : Sync A) : Prop :=
  ∀ m, ∃ r m', c m = Some (r, m') ∧ resourceAttributes m' = resourceAttributes m.

(** The first direct [is-member] object of a user, as the relationship
    store returns it; none without a relationship store. *)
Definition firstMemberObject (m : Machine) (originUserID : string) : option string :=
  match resourceRelationshipDatastore m with
  | None => None
  | Some rs => head (objectsOf (edges rs) IS_MEMBER (Some originUserID))
  end.

(** [a] is not later than [b], for two ISO-8601 timestamps. *)
Definition notLaterThan (a b : string) : Prop := String.leb a b = true.

(** The patch of an update once the reserved keys are stripped. *)
Definition stripReserved (properties : gmap string value) : gmap string value :=
  delete "meta" (delete "ID" properties).

(** The attributes [updatesResourceByID] hands to the factory: the stale
    record, its meta block stamped, overlaid with the stripped patch. *)
Definition mergedAttributes (firstISOTime : string) (stale patch : gmap string value)
  : gmap string value :=
  Object_assign
    (Object_assign ∅
       (VObj (<["meta" := VObj (Object_assign {["updatedISOTime" := VStr firstISOTime]}
                                  (getProperty stale "meta"))]> stale)))
    (VObj (stripReserved patch)).

(** A factory honours the meta block it is handed when the resource it
    builds keeps the creation time found there. *)
Definition honoursCreationTime (factory : Model) : Prop :=
  ∀ attributes authorUserID reservedID resource block created,
    factory attributes authorUserID reservedID = inr resource →
    attributes !! "meta" = Some (VObj block) →
    block !! "createdISOTime" = Some created →
    meta resource !! "createdISOTime" = Some created.

(** ** Scenarios *)

(** Keys of the form [type:ID], and the string a template literal makes of
    an error: its name, a colon and its message.  The name is [Error],
    except for the runtime's own type errors, whose message here already
    starts with their name. *)
Definition plainCollaborators : Collaborators :=
  {| generateItemKey := λ resourceType resourceID, (resourceType ++ ":" ++ resourceID)%string;
     errorToString := λ e,
       if String.prefix "TypeError: " (errorMessage e) then errorMessage e
       else ("Error: " ++ errorMessage e)%string |}.

(** A factory that honours a reserved ID and the meta block it is given. *)
Definition plainModel : Model := λ attributes authorUserID reservedID,
  let resourceID :=
    match reservedID with
    | VStr s => s
    | _ => stringOf (getProperty attributes "ID")
    end in
  inr {| ID := resourceID;
         meta := Object_assign {["createdISOTime" := VStr "2020-01-01T00:00:00.000Z"]}
                   (getProperty attributes "meta");
         attributes := stripReserved attributes;
         generateOwnItemKey := ("Dummy:" ++ resourceID)%string |}.

Definition noDatastoreFault : datastoreCall → option fault := λ _, None.
Definition noRelationshipFault : relationshipCall → option fault := λ _, None.

Definition storeOutage : error := Error ForeignError "connection lost" None.

#[global] Instance datastoreCall_eq_dec : EqDecision datastoreCall.
Proof. solve_decision. Defined.

#[global] Instance relationshipCall_eq_dec : EqDecision relationshipCall.
Proof. solve_decision. Defined.

(** A record store one of whose calls fails in the given way. *)
Definition failingDatastoreCall (call : datastoreCall) (failure : fault)
  : datastoreCall → option fault :=
  λ c, if decide (c = call) then Some failure else None.

(** A relationship store one of whose calls fails in the given way. *)
Definition failingRelationshipCall (call : relationshipCall) (failure : fault)
  : relationshipCall → option fault :=
  λ c, if decide (c = call) then Some failure else None.

(** SYSTEM → orgA → {userU, resourceR} *)
Definition orgHierarchy : list edge :=
  [ Edge "orgA" IS_MEMBER "SYSTEM";
    Edge "userU" IS_MEMBER "orgA";
    Edge "resourceR" IS_MEMBER "orgA" ].

(** SYSTEM → {rootUser, orgA}, orgA → resourceR: the user is a direct
    member of the root. *)
Definition rootUserHierarchy : list edge :=
  [ Edge "rootUser" IS_MEMBER "SYSTEM";
    Edge "orgA" IS_MEMBER "SYSTEM";
    Edge "resourceR" IS_MEMBER "orgA" ].

(** SYSTEM → org → {team, resourceR}, team → userU: the resource sits one
    level above the user's parent. *)
Definition teamHierarchy : list edge :=
  [ Edge "org" IS_MEMBER "SYSTEM";
    Edge "team" IS_MEMBER "org";
    Edge "userU" IS_MEMBER "team";
    Edge "resourceR" IS_MEMBER "org" ].

(** A node with two parents, one of them the root. *)
Definition twoParentHierarchy : list edge :=
  [ Edge "userU" IS_MEMBER "SYSTEM";
    Edge "userU" IS_MEMBER "orgA" ].

(** A ranking of the nodes of the scenarios, the root lowest. *)
Definition scenarioRank (node : string) : nat :=
  if bool_decide (node = "SYSTEM") then 0
  else if bool_decide (node = "org" ∨ node = "orgA") then 1
  else if bool_decide (node = "team" ∨ node = "resourceR") then 2
  else 3.

Definition hierarchyOnly (g : list edge) : Machine :=
  {| datastore := None;
     resourceRelationshipDatastore :=
       Some {| edges := g; relationshipFault := noRelationshipFault |};
     resourceAttributes := VUndefined |}.

Definition storedDummy : gmap string value :=
  {[ "ID" := VStr "resourceR";
     "meta" := VObj {[ "createdISOTime" := VStr "2020-01-01T00:00:00.000Z";
                       "updatedISOTime" := VStr "2020-01-01T00:00:00.000Z" ]};
     "name" := VStr "before";
     "size" := VNum 1 ]}.

(** Both stores bound, the record of resourceR stored, and the caller's
    attributes object. *)
Definition world (faults : datastoreCall → option fault)
    (relationshipFaults : relationshipCall → option fault) (g : list edge)
    (passed : value) : Machine :=
  {| datastore :=
       Some {| records := {[ "Dummy:resourceR" := storedDummy ]};
               indices := ∅;
               datastoreFault := faults |};
     resourceRelationshipDatastore :=
       Some {| edges := g; relationshipFault := relationshipFaults |};
     resourceAttributes := passed |}.

Definition passedAttributes : value :=
  VObj {[ "ID" := VStr "resourceN"; "meta" := VObj ∅; "name" := VStr "after" ]}.

(** The world in which every store call works. *)
Definition quietWorld : Machine :=
  world noDatastoreFault noRelationshipFault orgHierarchy passedAttributes.

(** ** Frames and further scenarios *)

(** A piece of code leaves a part of the state as it found it, however it
    completes. *)
Definition preserves {A X} (part : Machine → X) (c : Sync A) : Prop :=
  ∀ m r m', c m = Some (r, m') → part m' = part m.

(** The per-type indices of the record store bound to [this]. *)
Definition boundIndices (m : Machine) : option (gmap (string * string) (gset string)) :=
  indices <$> datastore m.

(** a → b → a: two nodes that are members of each other. *)
Definition cyclicHierarchy : list edge :=
  [ Edge "a" IS_MEMBER "b";
    Edge "b" IS_MEMBER "a" ].

(** A factory whose validation turns down whatever it is handed. *)
Definition strictModel : Model := λ _ _ _,
  inl (Error ForeignError "The resource is not conform to the model." None).

(** Only the record store bound, the record of resourceR stored. *)
Definition recordsOnly (faults : datastoreCall → option fault) (passed : value) : Machine :=
  {| datastore :=
       Some {| records := {[ "Dummy:resourceR" := storedDummy ]};
               indices := ∅;
               datastoreFault := faults |};
     resourceRelationshipDatastore := None;
     resourceAttributes := passed |}.

(** No record store bound. *)
Definition noDatastore (g : list edge) (passed : value) : Machine :=
  {| datastore := None;
     resourceRelationshipDatastore :=
       Some {| edges := g; relationshipFault := noRelationshipFault |};
     resourceAttributes := passed |}.

(** A call has rejected with an error of the given class and has left both
    stores and the caller's object as it found them. *)
Definition rejectedUntouched {A} (class : errorClass) (m : Machine)
    (outcome : option (completion (promise A) * Machine)) : Prop :=
  ∃ e, outcome = Some (Normal (RejectedWith e), m) ∧ errorClassOf e = class.

(** The parent a creation takes: the explicit argument when it is truthy,
    otherwise the first direct [is-member] object of the origin user. *)
Definition resolvedParent (m : Machine) (originUserID : string)
    (parentNodeID : option string) : option string :=
  if falsy parentNodeID then firstMemberObject m originUserID else parentNodeID.

(** SYSTEM → {orgA, orgB}, orgA → {teamA, teamB}, orgB → teamB, and userU a
    member of both teams: orgA is reached along two paths. *)
Definition meshHierarchy : list edge :=
  [ Edge "orgA" IS_MEMBER "SYSTEM";
    Edge "orgB" IS_MEMBER "SYSTEM";
    Edge "teamA" IS_MEMBER "orgA";
    Edge "teamB" IS_MEMBER "orgB";
    Edge "teamB" IS_MEMBER "orgA";
    Edge "userU" IS_MEMBER "teamA";
    Edge "userU" IS_MEMBER "teamB" ].

(** root → {a, b}, a → a1 → a2 and b → b1 → b2: two chains of the same
    length below one root. *)
Definition twoChainHierarchy : list edge :=
  [ Edge "a" IS_MEMBER "root";
    Edge "b" IS_MEMBER "root";
    Edge "a1" IS_MEMBER "a";
    Edge "b1" IS_MEMBER "b";
    Edge "a2" IS_MEMBER "a1";
    Edge "b2" IS_MEMBER "b1" ].

(** A ranking of the nodes of the mesh and of the two chains, the roots
    lowest. *)
Definition furtherRank (node : string) : nat :=
  if bool_decide (node = "SYSTEM" ∨ node = "root") then 0
  else if bool_decide (node = "orgA" ∨ node = "orgB" ∨ node = "a" ∨ node = "b") then 1
  else if bool_decide (node = "teamA" ∨ node = "teamB" ∨ node = "a1" ∨ node = "b1") then 2
  else 3.

(** userU a member of teamA, as resourceR is, and of a, which is a member
    of b, which is a member of a. *)
Definition cyclicParentHierarchy : list edge :=
  [ Edge "userU" IS_MEMBER "teamA";
    Edge "resourceR" IS_MEMBER "teamA";
    Edge "userU" IS_MEMBER "a";
    Edge "a" IS_MEMBER "b";
    Edge "b" IS_MEMBER "a" ].

(** * Properties *)

(** ** The traversal *)

Section WalkFacts.
Context (read : option string → list string) (depth : option nat).

Lemma pushNew_cons (acc : list string) n ns :
  pushNew acc (n :: ns) = pushNew (if bool_decide (n ∈ acc) then acc else acc ++ [n]) ns.
Proof. reflexivity. Qed.

Lemma elem_of_pushNew (acc ns : list string) x :
  x ∈ pushNew acc ns ↔ x ∈ acc ∨ x ∈ ns.
Proof.
  revert acc. induction ns as [|n ns IH]; intros acc.
  - cbn. set_solver.
  - rewrite pushNew_cons, IH. case_bool_decide; set_solver.
Qed.

Lemma pushNew_extends (acc ns : list string) : acc `prefix_of` pushNew acc ns.
Proof.
  revert acc. induction ns as [|n ns IH]; intros acc; [done|].
  rewrite pushNew_cons. case_bool_decide; [apply IH|].
  etrans; [|apply IH]. by apply prefix_app_r.
Qed.

Lemma head_pushNew_nil (ns : list string) : head (pushNew [] ns) = head ns.
Proof.
  destruct ns as [|n ns]; [done|].
  rewrite pushNew_cons. rewrite bool_decide_eq_false_2 by set_solver.
  destruct (pushNew_extends ([] ++ [n]) ns) as [k ->]. done.
Qed.

Lemma head_prefix (l k : list string) x : l `prefix_of` k → head l = Some x → head k = Some x.
Proof. intros [t ->]. by destruct l. Qed.

Lemma branchEnds_false found :
  branchEnds found = false ↔ found ≠ [] ∧ SYSTEM ∉ found.
Proof.
  unfold branchEnds. rewrite orb_false_iff, !bool_decide_eq_false. split.
  - intros [H1 H2]. split; [|done]. intros ->. by apply H1.
  - intros [H1 H2]. split; [|done]. intros ?%nil_length_inv. done.
Qed.

Lemma branchEnds_true found :
  branchEnds found = true ↔ found = [] ∨ SYSTEM ∈ found.
Proof.
  unfold branchEnds. rewrite orb_true_iff, !bool_decide_eq_true. split.
  - intros [?%nil_length_inv|?]; auto.
  - intros [->|?]; auto.
Qed.

(** What one resumed branch does, case by case. *)
Lemma resume_cases acc n acc' started :
  resume read depth acc n = (acc', started) →
  (branchEnds (read n) = true ∧ acc' = acc ∧ started = []) ∨
  (branchEnds (read n) = false ∧ acc' = pushNew acc (read n) ∧
     ((depthReached depth acc' = true ∧ started = []) ∨
      (depthReached depth acc' = false ∧ started = Some <$> read n))).
Proof.
  unfold resume. destruct (branchEnds (read n)) eqn:E.
  - intros [= <- <-]. by left.
  - destruct (depthReached depth (pushNew acc (read n))) eqn:D; intros [= <- <-]; right; auto.
Qed.

Lemma resume_extends acc n acc' started :
  resume read depth acc n = (acc', started) → acc `prefix_of` acc'.
Proof.
  intros [(_ & -> & _)|(_ & -> & _)]%resume_cases; [done|apply pushNew_extends].
Qed.


Lemma walk_step_inv acc queue s' :
  walk_step read depth (WalkState acc queue) s' →
  ∃ before n after acc' started,
    queue = before ++ n :: after ∧ resume read depth acc n = (acc', started) ∧
    s' = WalkState acc' (before ++ after ++ started).
Proof. inversion 1; subst. naive_solver. Qed.



Lemma walk_steps_extend s s' :
  rtc (walk_step read depth) s s' → collected s `prefix_of` collected s'.
Proof.
  induction 1 as [|s1 s2 s3 Hstep _ IH]; [done|].
  etrans; [|exact IH]. destruct Hstep; simpl. by eapply resume_extends.
Qed.

Lemma walk_steps_done acc s' :
  rtc (walk_step read depth) (WalkState acc []) s' → s' = WalkState acc [].
Proof.
  inversion 1 as [|? s2 ? Hstep]; subst; [done|].
  apply walk_step_inv in Hstep as (before & ? & ? & ? & ? & Hq & _). by destruct before.
Qed.

(** The first step of a walk is the root branch. *)
Lemma walk_returns_inv n nodeIDList :
  walk_returns read depth n nodeIDList →
  ∃ acc started, resume read depth [] n = (acc, started) ∧
    rtc (walk_step read depth) (WalkState acc started) (WalkState nodeIDList []).
Proof.
  unfold walk_returns, walk_init. inversion 1 as [|? s2 ? Hstep Hrest]; subst.
  apply walk_step_inv in Hstep as (before & m & after & acc & started & Hq & Hres & ->).
  destruct before as [|? [|]]; simplify_eq/=. eauto.
Qed.

(** The first element of the result is the first node the root read
    returns. *)
Lemma walk_returns_head n nodeIDList :
  walk_returns read depth n nodeIDList →
  head nodeIDList = if branchEnds (read n) then None else head (read n).
Proof.
  intros (acc & started & Hres & Hsteps)%walk_returns_inv.
  apply resume_cases in Hres as [(-> & -> & ->)|(E & -> & _)].
  - by apply walk_steps_done in Hsteps as [= ->].
  - rewrite E. apply walk_steps_extend in Hsteps. simpl in Hsteps.
    apply branchEnds_false in E as [E _].
    destruct (read n) as [|p ps] eqn:R; [done|]. simpl.
    eapply head_prefix; [exact Hsteps|]. by rewrite head_pushNew_nil.
Qed.

Lemma runBranches_steps fuel acc queue nodeIDList :
  runBranches read depth fuel acc queue = Some nodeIDList →
  rtc (walk_step read depth) (WalkState acc queue) (WalkState nodeIDList []).
Proof.
  revert acc queue. induction fuel as [|fuel IH]; intros acc [|n rest]; simpl; try done.
  - intros [= ->]. done.
  - intros [= ->]. done.
  - destruct (resume read depth acc n) as [acc' started] eqn:E. intros H.
    eapply rtc_l; [|by apply IH].
    by apply (walk_resume read depth acc [] n rest acc' started).
Qed.

Lemma walk_returns_of_walk fuel n nodeIDList :
  walk read depth fuel n = Some nodeIDList → walk_returns read depth n nodeIDList.
Proof. apply runBranches_steps. Qed.

Lemma runBranches_more_fuel fuel fuel' acc queue nodeIDList :
  runBranches read depth fuel acc queue = Some nodeIDList → fuel ≤ fuel' →
  runBranches read depth fuel' acc queue = Some nodeIDList.
Proof.
  revert fuel' acc queue. induction fuel as [|fuel IH]; intros fuel' acc [|n rest]; simpl; try done.
  - intros [= ->] _. by destruct fuel'.
  - intros [= ->] _. by destruct fuel'.
  - intros H Hle. destruct fuel' as [|fuel']; [lia|]. simpl.
    destruct (resume read depth acc n) as [acc' started]. apply IH; [done|lia].
Qed.

Lemma walk_more_fuel fuel fuel' n nodeIDList :
  walk read depth fuel n = Some nodeIDList → fuel ≤ fuel' →
  walk read depth fuel' n = Some nodeIDList.
Proof. apply runBranches_more_fuel. Qed.

Lemma NoDup_pushNew (acc ns : list string) : NoDup acc → NoDup (pushNew acc ns).
Proof.
  revert acc. induction ns as [|n ns IH]; intros acc Hacc; [done|].
  rewrite pushNew_cons. apply IH. case_bool_decide; [done|].
  apply NoDup_app. split; [done|]. split; [|apply NoDup_singleton].
  by intros x Hx ->%list_elem_of_singleton.
Qed.

Lemma walk_steps_NoDup s s' :
  rtc (walk_step read depth) s s' → NoDup (collected s) → NoDup (collected s').
Proof.
  induction 1 as [|s1 s2 s3 Hstep _ IH]; [done|]. intros Hacc. apply IH.
  destruct Hstep as [acc before n after acc' started Hres]. simpl in *.
  apply resume_cases in Hres as [(_ & -> & _)|(_ & -> & _)]; [done|by apply NoDup_pushNew].
Qed.

Lemma walk_returns_NoDup start nodeIDList :
  walk_returns read depth start nodeIDList → NoDup nodeIDList.
Proof. intros Hsteps. apply (walk_steps_NoDup _ _ Hsteps). constructor. Qed.

End WalkFacts.

(** A walk that returns fewer than [d] nodes never had its depth reached:
    it took the very steps of the walk with the default depth. *)
Lemma walk_steps_uncut (read : option string → list string) d s nodeIDList :
  rtc (walk_step read (Some d)) s (WalkState nodeIDList []) →
  length nodeIDList < d →
  rtc (walk_step read None) s (WalkState nodeIDList []).
Proof.
  intros Hsteps Hshort. remember (WalkState nodeIDList []) as final eqn:Hfinal.
  induction Hsteps as [|s1 s2 s3 Hstep Hrest IH]; [done|]. subst s3.
  eapply rtc_l; [|by apply IH].
  pose proof (walk_steps_extend _ _ _ _ Hrest) as Hprefix. simpl in Hprefix.
  destruct Hstep as [acc before n after acc' started Hres]. simpl in Hprefix.
  apply walk_resume. unfold resume in *.
  destruct (branchEnds (read n)); [done|].
  assert (depthReached (Some d) (pushNew acc (read n)) = false) as Hnot.
  { destruct (depthReached (Some d) (pushNew acc (read n))) eqn:E; [|done].
    injection Hres as <- <-. apply bool_decide_eq_true in E.
    apply prefix_length in Hprefix. lia. }
  by rewrite Hnot in Hres.
Qed.

(** ** Levels and the depth bound *)

Section Levels.
Context (read : option string → list string).

Lemma elem_of_withinLevels_S k n x :
  x ∈ withinLevels read (S k) n ↔
  x ∈ read n ∨ ∃ p, p ∈ read n ∧ x ∈ withinLevels read k (Some p).
Proof. simpl. rewrite elem_of_app, list_elem_of_bind. naive_solver. Qed.

Lemma withinLevels_mono_S k n x :
  x ∈ withinLevels read k n → x ∈ withinLevels read (S k) n.
Proof.
  revert n. induction k as [|k IH]; intros n; [by intros ?%elem_of_nil|].
  rewrite !elem_of_withinLevels_S. intros [?|(p & ? & ?)]; [by left|].
  right. exists p. split; [done|]. by apply IH.
Qed.

Lemma withinLevels_mono k k' n x :
  k ≤ k' → x ∈ withinLevels read k n → x ∈ withinLevels read k' n.
Proof. induction 1; [done|]. intros. by apply withinLevels_mono_S, IHle. Qed.

Lemma withinLevels_step k n p x :
  p ∈ withinLevels read k n → x ∈ read (Some p) → x ∈ withinLevels read (S k) n.
Proof.
  revert n. induction k as [|k IH]; intros n; [by intros ?%elem_of_nil|].
  intros Hp Hx. apply elem_of_withinLevels_S in Hp as [Hp|(q & Hq & Hp)].
  - apply elem_of_withinLevels_S. right. exists p. split; [done|].
    apply elem_of_withinLevels_S. by left.
  - apply elem_of_withinLevels_S. right. exists q. split; [done|]. by apply IH.
Qed.

End Levels.

Section DepthBound.
Context (read : option string → list string) (d : nat).
Context (rank : option string → nat).
Hypothesis acyclic : ∀ n p, p ∈ read n → rank (Some p) < rank n.
Context (start : option string).

Lemma trail_reads path n x :
  trail read start path n → x ∈ read n → x ∈ withinLevels read (S (length path)) start.
Proof.
  intros Ht. revert x. induction Ht as [|path n p _ IH Hp]; intros x Hx.
  - apply elem_of_withinLevels_S. by left.
  - simpl length. eapply withinLevels_step; [|done]. by apply IH.
Qed.

Lemma trail_ranks path n q :
  trail read start path n → q ∈ path → rank n ≤ rank (Some q).
Proof.
  induction 1 as [|path n p Ht IH Hp]; [by intros ?%elem_of_nil|].
  intros [->|Hq]%elem_of_cons; [done|].
  specialize (IH Hq). specialize (acyclic n p Hp). lia.
Qed.

Lemma trail_NoDup path n : trail read start path n → NoDup path.
Proof.
  induction 1 as [|path n p Ht IH Hp]; [constructor|].
  constructor; [|done]. intros Hin.
  pose proof (trail_ranks _ _ _ Ht Hin). specialize (acyclic n p Hp). lia.
Qed.

Lemma length_le_of_NoDup_subseteq (path acc : list string) :
  NoDup path → path ⊆ acc → length path ≤ length acc.
Proof. intros ? ?. by apply submseteq_length, NoDup_submseteq. Qed.

Lemma bounded_init limit : 1 ≤ limit → bounded read start limit (walk_init start).
Proof.
  intros ?. split; simpl.
  - by intros x ?%elem_of_nil.
  - intros n ->%list_elem_of_singleton. exists []. split; [constructor|]. split; [done|].
    simpl. lia.
Qed.

Lemma bounded_step limit s s' :
  max d 1 ≤ limit →
  walk_step read (Some d) s s' → bounded read start limit s → bounded read start limit s'.
Proof.
  intros Hlimit Hstep [Hacc Hflight].
  destruct Hstep as [acc before n after acc' started Hres]. simpl in *.
  destruct (Hflight n) as (path & Htrail & Hsub & Hlen); [set_solver|].
  apply resume_cases in Hres as [(_ & -> & ->)|(E & -> & Hstarted)].
  - split; [done|]. intros m Hm. apply Hflight. set_solver.
  - assert (Hsub' : ∀ l : list string, l ⊆ acc → l ⊆ pushNew acc (read n)).
    { intros l Hl x Hx. apply elem_of_pushNew. left. by apply Hl. }
    split; simpl.
    + intros x [Hx|Hx]%elem_of_pushNew; [by apply Hacc|].
      eapply withinLevels_mono; [|by eapply trail_reads]. done.
    + intros m Hm.
      assert (m ∈ before ++ n :: after ∨ m ∈ started) as [Hold|Hnew] by set_solver.
      { destruct (Hflight m Hold) as (path' & ? & ? & ?). exists path'. eauto. }
      destruct Hstarted as [[_ ->]|[Hnot ->]]; [by apply elem_of_nil in Hnew|].
      apply list_elem_of_fmap in Hnew as (p & -> & Hp).
      assert (Htrail' : trail read start (p :: path) (Some p)) by by econstructor.
      assert (Hin : p :: path ⊆ pushNew acc (read n)).
      { intros y [->|Hy]%elem_of_cons; apply elem_of_pushNew; [by right|left; by apply Hsub]. }
      exists (p :: path). split; [done|]. split; [done|].
      unfold depthReached in Hnot. apply bool_decide_eq_false in Hnot.
      pose proof (length_le_of_NoDup_subseteq _ _ (trail_NoDup _ _ Htrail') Hin).
      simpl in *. lia.
Qed.

Lemma bounded_steps limit s s' :
  max d 1 ≤ limit →
  rtc (walk_step read (Some d)) s s' → bounded read start limit s → bounded read start limit s'.
Proof. induction 2; eauto using bounded_step. Qed.

(** However the reads interleave, a walk over an acyclic graph collects
    nothing beyond [max depth 1] levels. *)
Lemma walk_within_levels s x :
  rtc (walk_step read (Some d)) (walk_init start) s → x ∈ collected s →
  x ∈ withinLevels read (max d 1) start.
Proof.
  intros Hsteps Hx.
  destruct (bounded_steps (max d 1) _ _ (le_n _) Hsteps) as [Hacc _]; [|by apply Hacc].
  apply bounded_init. lia.
Qed.

End DepthBound.

(** ** What an unbounded walk gathers *)

Section Gathering.
Context (read : option string → list string).

Lemma gathers_inv n x :
  gathers read n x ↔
  branchEnds (read n) = false ∧ (x ∈ read n ∨ ∃ p, p ∈ read n ∧ gathers read (Some p) x).
Proof.
  split.
  - inversion 1; subst; naive_solver.
  - intros [E [?|(p & ? & ?)]]; [by apply gathers_here|by eapply gathers_next].
Qed.

Lemma inReach_step s s' x :
  walk_step read None s s' → inReach read s x ↔ inReach read s' x.
Proof.
  destruct 1 as [acc before n after acc' started Hres]. unfold inReach; simpl.
  apply resume_cases in Hres as [(E & -> & ->)|(E & -> & [[? _]|[_ ->]])]; [| done |].
  - split; intros [?|(m & Hm & Hg)]; auto; right.
    + exists m. split; [|done].
      assert (m = n ∨ m ∈ before ++ after ++ []) as [->|?] by set_solver; [|done].
      apply gathers_inv in Hg as [? _]. congruence.
    + exists m. split; [set_solver|done].
  - rewrite elem_of_pushNew. split.
    + intros [?|(m & Hm & Hg)]; [tauto|].
      assert (m = n ∨ m ∈ before ++ after) as [->|?] by set_solver.
      * apply gathers_inv in Hg as [_ [?|(p & ? & ?)]]; [tauto|].
        right. exists (Some p). split; [|done].
        rewrite !elem_of_app, list_elem_of_fmap. naive_solver.
      * right. exists m. split; [set_solver|done].
    + intros [[?|?]|(m & Hm & Hg)]; [tauto| |].
      * right. exists n. split; [set_solver|]. by apply gathers_here.
      * rewrite !elem_of_app, list_elem_of_fmap in Hm.
        destruct Hm as [?|[?|(p & -> & ?)]].
        -- right. exists m. split; [set_solver|done].
        -- right. exists m. split; [set_solver|done].
        -- right. exists n. split; [set_solver|]. by eapply gathers_next.
Qed.

Lemma inReach_steps s s' x :
  rtc (walk_step read None) s s' → inReach read s x ↔ inReach read s' x.
Proof. induction 1 as [|? ? ? Hstep _ IH]; [done|]. by rewrite (inReach_step _ _ _ Hstep). Qed.

(** Whatever the order in which the reads resolve, an unbounded walk that
    returns has collected exactly what it gathers from its start. *)
Lemma walk_returns_gathers n nodeIDList x :
  walk_returns read None n nodeIDList → x ∈ nodeIDList ↔ gathers read n x.
Proof.
  intros Hsteps. pose proof (inReach_steps _ _ x Hsteps) as Heq.
  unfold inReach, walk_init in Heq. simpl in Heq. split.
  - intros Hx. destruct (proj2 Heq) as [[]%elem_of_nil|(m & ->%list_elem_of_singleton & ?)]; auto.
  - intros Hg. destruct (proj1 Heq) as [?|(m & []%elem_of_nil & _)]; [|done].
    right. exists n. split; [set_solver|done].
Qed.

End Gathering.

(** ** Termination on acyclic graphs *)

Section Termination.
Context (read : option string → list string) (depth : option nat).
Context (rank : option string → nat).
Hypothesis acyclic : ∀ n p, p ∈ read n → rank (Some p) < rank n.

Lemma sum_list_with_le {A} (f g : A → nat) (l : list A) :
  (∀ a, a ∈ l → f a ≤ g a) → sum_list_with f l ≤ sum_list_with g l.
Proof.
  induction l as [|a l IH]; intros H; simpl; [done|].
  pose proof (H a (list_elem_of_here _ _)).
  assert (sum_list_with f l ≤ sum_list_with g l); [|lia].
  apply IH. intros b Hb. apply H. by right.
Qed.

Lemma sum_list_with_fmap {A B} (f : B → nat) (g : A → B) (l : list A) :
  sum_list_with f (g <$> l) = sum_list_with (f ∘ g) l.
Proof. induction l as [|a l IH]; csimpl; [done|]. by rewrite IH. Qed.

Lemma branchCost_pos h n : 1 ≤ branchCost read h n.
Proof. destruct h; simpl; lia. Qed.

Lemma branchCost_mono h h' n : h ≤ h' → branchCost read h n ≤ branchCost read h' n.
Proof.
  revert h' n. induction h as [|h IH]; intros h' n Hle; [apply branchCost_pos|].
  destruct h' as [|h']; [lia|]. simpl.
  apply le_n_S, sum_list_with_le. intros p _. apply IH. lia.
Qed.

Lemma queueCost_app q1 q2 :
  queueCost read rank (q1 ++ q2) = queueCost read rank q1 + queueCost read rank q2.
Proof. apply sum_list_with_app. Qed.

Lemma queueCost_children n :
  S (queueCost read rank (Some <$> read n)) ≤ branchCost read (rank n) n.
Proof.
  unfold queueCost. rewrite sum_list_with_fmap.
  destruct (rank n) as [|h] eqn:R.
  - destruct (read n) as [|p ps] eqn:E; [simpl; lia|].
    specialize (acyclic n p). rewrite E in acyclic.
    specialize (acyclic (list_elem_of_here _ _)). lia.
  - simpl. apply le_n_S, sum_list_with_le. intros p Hp. simpl.
    apply branchCost_mono. specialize (acyclic n p Hp). lia.
Qed.

Lemma runBranches_terminates fuel acc queue :
  queueCost read rank queue ≤ fuel → is_Some (runBranches read depth fuel acc queue).
Proof.
  revert acc queue. induction fuel as [|fuel IH]; intros acc [|n rest] Hcost; simpl; try done.
  - unfold queueCost in Hcost. simpl in Hcost. pose proof (branchCost_pos (rank n) n). lia.
  - destruct (resume read depth acc n) as [acc' started] eqn:Hres. apply IH.
    change (n :: rest) with ([n] ++ rest) in Hcost.
    rewrite queueCost_app in *. pose proof (queueCost_children n).
    assert (queueCost read rank started ≤ queueCost read rank (Some <$> read n)).
    { apply resume_cases in Hres as [(_ & _ & ->)|(_ & _ & [[_ ->]|[_ ->]])];
        try done; unfold queueCost; simpl; lia. }
    unfold queueCost at 1 in Hcost. simpl in Hcost. lia.
Qed.

(** A walk over an acyclic graph returns, given fuel for every branch. *)
Lemma walk_terminates n fuel :
  branchCost read (rank n) n ≤ fuel → is_Some (walk read depth fuel n).
Proof.
  intros ?. apply runBranches_terminates. unfold queueCost. simpl. lia.
Qed.

End Termination.

(** ** The walks over a relationship store *)

Section StoreWalks.
Context (g : list edge).

Lemma elem_of_objectsOf relationship n p :
  p ∈ objectsOf g relationship n ↔
  ∃ e, e ∈ g ∧ n = Some (subject e) ∧ predicate e = relationship ∧ object e = p.
Proof.
  destruct n as [s|]; simpl.
  - rewrite list_elem_of_fmap. setoid_rewrite list_elem_of_filter. naive_solver.
  - rewrite elem_of_nil. naive_solver.
Qed.

Lemma elem_of_subjectsOf relationship n p :
  p ∈ subjectsOf g relationship n ↔
  ∃ e, e ∈ g ∧ n = Some (object e) ∧ predicate e = relationship ∧ subject e = p.
Proof.
  destruct n as [o|]; simpl.
  - rewrite list_elem_of_fmap. setoid_rewrite list_elem_of_filter. naive_solver.
  - rewrite elem_of_nil. naive_solver.
Qed.

Context (rank : string → nat).
Hypothesis ranked :
  ∀ e, e ∈ g → predicate e = IS_MEMBER → rank (object e) < rank (subject e).

Lemma rankUpward_decreases n p :
  p ∈ objectsOf g IS_MEMBER n → rankUpward rank (Some p) < rankUpward rank n.
Proof.
  intros (e & He & -> & Hp & <-)%elem_of_objectsOf. simpl. by apply ranked.
Qed.

Lemma rankDownward_decreases n p :
  p ∈ subjectsOf g IS_MEMBER n → rankDownward g rank (Some p) < rankDownward g rank n.
Proof.
  intros (e & He & -> & Hp & <-)%elem_of_subjectsOf. simpl.
  pose proof (ranked e He Hp).
  pose proof (sum_list_with_in e (λ e, rank (subject e)) g He). simpl in *. lia.
Qed.

End StoreWalks.

Lemma walkHierarchyTreeUpward_inv fuel start depth m c m' :
  walkHierarchyTreeUpward fuel start depth m = Some (c, m') →
  m' = m ∧
  ∃ rs nodeIDList,
    resourceRelationshipDatastore m = Some rs ∧
    relationshipFault rs RetrieveObjectOfRelationshipWithSubject = None ∧
    walk (objectsOf (edges rs) IS_MEMBER) depth fuel start = Some nodeIDList ∧
    c = Normal (Fulfilled nodeIDList).
Proof.
  unfold walkHierarchyTreeUpward. intros H.
  repeat case_match; simplify_eq. eauto 10.
Qed.

Lemma walkHierarchyTreeDownward_inv fuel start depth m c m' :
  walkHierarchyTreeDownward fuel start depth m = Some (c, m') →
  m' = m ∧
  ((resourceRelationshipDatastore m = None ∧ c = Normal (Fulfilled [])) ∨
   ∃ rs nodeIDList,
     resourceRelationshipDatastore m = Some rs ∧
     relationshipFault rs RetrieveSubjectOfRelationshipWithObject = None ∧
     walk (subjectsOf (edges rs) IS_MEMBER) depth fuel start = Some nodeIDList ∧
     c = Normal (Fulfilled nodeIDList)).
Proof.
  unfold walkHierarchyTreeDownward. intros H.
  repeat case_match; simplify_eq; eauto 10.
Qed.

Lemma walkHierarchyTreeUpward_run fuel start depth m rs nodeIDList :
  resourceRelationshipDatastore m = Some rs →
  relationshipFault rs RetrieveObjectOfRelationshipWithSubject = None →
  walk (objectsOf (edges rs) IS_MEMBER) depth fuel start = Some nodeIDList →
  walkHierarchyTreeUpward fuel start depth m = Some (Normal (Fulfilled nodeIDList), m).
Proof. unfold walkHierarchyTreeUpward. by intros -> -> ->. Qed.

Lemma walkHierarchyTreeDownward_run fuel start depth m rs nodeIDList :
  resourceRelationshipDatastore m = Some rs →
  relationshipFault rs RetrieveSubjectOfRelationshipWithObject = None →
  walk (subjectsOf (edges rs) IS_MEMBER) depth fuel start = Some nodeIDList →
  walkHierarchyTreeDownward fuel start depth m = Some (Normal (Fulfilled nodeIDList), m).
Proof. unfold walkHierarchyTreeDownward. by intros -> -> ->. Qed.

(** On an acyclic graph both walks return once the fuel covers every
    branch. *)
Lemma store_walks_terminate (g : list edge) (depth : option nat) :
  acyclicHierarchy g →
  ∀ start, ∃ fuel0, ∀ fuel, fuel0 ≤ fuel →
    is_Some (walk (objectsOf g IS_MEMBER) depth fuel start) ∧
    is_Some (walk (subjectsOf g IS_MEMBER) depth fuel start).
Proof.
  intros [rank Hrank] start.
  exists (branchCost (objectsOf g IS_MEMBER) (rankUpward rank start) start
          + branchCost (subjectsOf g IS_MEMBER) (rankDownward g rank start) start).
  intros fuel Hfuel. split.
  - apply (walk_terminates _ _ (rankUpward rank)); [|lia].
    intros n p. by apply rankUpward_decreases.
  - apply (walk_terminates _ _ (rankDownward g rank)); [|lia].
    intros n p. by apply rankDownward_decreases.
Qed.

(** C5, as amended.  The [depth] argument is a soft bound on the number of
    nodes collected, not on levels.  A branch compares it with the length
    of the shared list right after it has pushed what its own read
    returned, and starts the reads of those nodes only while the list is
    shorter than [depth].  So, on a finite acyclic graph and in whatever
    order the reads resolve, a walk returns no node twice and none more
    than [max depth 1] levels away from its start, and a walk that returns
    fewer than [depth] nodes has returned all that the walk with the
    default depth gathers.  Both walks return once they are given fuel for
    every branch. *)
Theorem depth_is_a_soft_bound_on_the_nodes_collected (m : Machine)
    (rs : RelationshipDatastore) (start : option string) (d : nat) :
  resourceRelationshipDatastore m = Some rs →
  acyclicHierarchy (edges rs) →
  relationshipFault rs RetrieveObjectOfRelationshipWithSubject = None →
  relationshipFault rs RetrieveSubjectOfRelationshipWithObject = None →
  (∀ read collectedSoFar resourceID,
     branchEnds (read resourceID) = false →
     resume read (Some d) collectedSoFar resourceID =
       (pushNew collectedSoFar (read resourceID),
        if bool_decide (d ≤ length (pushNew collectedSoFar (read resourceID)))
        then [] else Some <$> read resourceID)) ∧
  (∀ read nodeIDList,
     read = objectsOf (edges rs) IS_MEMBER ∨ read = subjectsOf (edges rs) IS_MEMBER →
     walk_returns read (Some d) start nodeIDList →
     NoDup nodeIDList ∧
     (∀ x, x ∈ nodeIDList → x ∈ withinLevels read (max d 1) start) ∧
     (length nodeIDList < d → ∀ x, x ∈ nodeIDList ↔ gathers read start x)) ∧
  ∃ fuel0, ∀ fuel, fuel0 ≤ fuel →
    ∃ upward downward,
      walkHierarchyTreeUpward fuel start (Some d) m = Some (Normal (Fulfilled upward), m) ∧
      walkHierarchyTreeDownward fuel start (Some d) m = Some (Normal (Fulfilled downward), m) ∧
      walk_returns (objectsOf (edges rs) IS_MEMBER) (Some d) start upward ∧
      walk_returns (subjectsOf (edges rs) IS_MEMBER) (Some d) start downward.
Proof.
  intros Hrs Hacyclic Hup Hdown. split; [|split].
  - intros read acc n Hgoes. unfold resume, depthReached. rewrite Hgoes.
    by case_bool_decide.
  - intros read l Hread Hret. split; [by eapply walk_returns_NoDup|]. split.
    + destruct Hacyclic as [rank Hrank]. intros x Hx. destruct Hread as [-> | ->].
      * eapply (walk_within_levels _ d (rankUpward rank)); [|exact Hret|exact Hx].
        intros n p. by apply rankUpward_decreases.
      * eapply (walk_within_levels _ d (rankDownward (edges rs) rank)); [|exact Hret|exact Hx].
        intros n p. by apply rankDownward_decreases.
    + intros Hshort x. apply walk_returns_gathers.
      by apply (walk_steps_uncut read d).
  - destruct (store_walks_terminate (edges rs) (Some d) Hacyclic start) as [fuel0 Hfuel].
    exists fuel0. intros fuel Hle. destruct (Hfuel fuel Hle) as [[up Eup] [down Edown]].
    exists up, down. split; [by eapply walkHierarchyTreeUpward_run|].
    split; [by eapply walkHierarchyTreeDownward_run|].
    split; by eapply walk_returns_of_walk.
Qed.

(** ** Authorization *)

Lemma verifyThatUserCanRetrieveResource_inv fuel userID resourceID m c m' :
  verifyThatUserCanRetrieveResource fuel userID resourceID m = Some (c, m') →
  m' = m ∧
  ((resourceRelationshipDatastore m = None ∧ c = Normal (Fulfilled true)) ∨
   ∃ rs A B R,
     resourceRelationshipDatastore m = Some rs ∧
     walk (objectsOf (edges rs) IS_MEMBER) None fuel (Some userID) = Some A ∧
     walk (subjectsOf (edges rs) IS_MEMBER) None fuel (head A) = Some B ∧
     walk (objectsOf (edges rs) IS_MEMBER) None fuel (Some resourceID) = Some R ∧
     c = Normal (Fulfilled (negb (bool_decide (length (nodeIDIntersectionList A B R) = 0))))).
Proof.
  unfold verifyThatUserCanRetrieveResource, async, tryCatch.
  unfold mbind, Sync_bind, gets, await, mret, Sync_ret.
  destruct (resourceRelationshipDatastore m) as [rs|] eqn:Hrs; [|intros [= <- <-]; auto].
  destruct (walkHierarchyTreeUpward fuel (Some userID) None m) as [[c1 m1]|] eqn:E1; [|done].
  apply walkHierarchyTreeUpward_inv in E1 as (-> & rs1 & A & ? & ? & HA & ->). simplify_eq.
  destruct (walkHierarchyTreeDownward fuel (head A) None m) as [[c2 m2]|] eqn:E2; [|done].
  apply walkHierarchyTreeDownward_inv in E2
    as (-> & [[? _]|(rs2 & B & ? & ? & HB & ->)]); simplify_eq.
  destruct (walkHierarchyTreeUpward fuel (Some resourceID) None m) as [[c3 m3]|] eqn:E3; [|done].
  apply walkHierarchyTreeUpward_inv in E3 as (-> & rs3 & R & ? & ? & HR & ->). simplify_eq.
  intros Hc. split; [by case_bool_decide; simplify_eq|].
  right. exists rs, A, B, R. repeat (split; [done|]).
  by case_bool_decide; simplify_eq.
Qed.

Lemma verifyThatUserCanRetrieveResource_run fuel userID resourceID m rs A B R :
  resourceRelationshipDatastore m = Some rs →
  relationshipFault rs RetrieveObjectOfRelationshipWithSubject = None →
  relationshipFault rs RetrieveSubjectOfRelationshipWithObject = None →
  walk (objectsOf (edges rs) IS_MEMBER) None fuel (Some userID) = Some A →
  walk (subjectsOf (edges rs) IS_MEMBER) None fuel (head A) = Some B →
  walk (objectsOf (edges rs) IS_MEMBER) None fuel (Some resourceID) = Some R →
  verifyThatUserCanRetrieveResource fuel userID resourceID m =
    Some (Normal (Fulfilled (negb (bool_decide (length (nodeIDIntersectionList A B R) = 0)))), m).
Proof.
  intros Hrs Hup Hdown HA HB HR.
  unfold verifyThatUserCanRetrieveResource, async, tryCatch.
  unfold mbind, Sync_bind, gets, await, mret, Sync_ret. rewrite Hrs.
  rewrite (walkHierarchyTreeUpward_run _ _ _ _ _ _ Hrs Hup HA).
  rewrite (walkHierarchyTreeDownward_run _ _ _ _ _ _ Hrs Hdown HB).
  rewrite (walkHierarchyTreeUpward_run _ _ _ _ _ _ Hrs Hup HR).
  by case_bool_decide.
Qed.

Lemma verifyThatUserCanUpdateResource_inv fuel userID resourceID m c m' :
  verifyThatUserCanUpdateResource fuel userID resourceID m = Some (c, m') →
  m' = m ∧ ∃ answer, c = Normal answer.
Proof.
  unfold verifyThatUserCanUpdateResource, async, tryCatch.
  unfold mbind, Sync_bind, gets, await, mret, Sync_ret, throw.
  destruct (resourceRelationshipDatastore m) as [rs|] eqn:Hrs; [|intros [= <- <-]; eauto].
  unfold retrieveObjectOfRelationshipWithSubject, callRelationshipDatastore. rewrite Hrs.
  assert (setRelationshipDatastore rs m = m) as ->.
  { destruct m; simpl in *. by subst. }
  destruct (relationshipFault rs RetrieveObjectOfRelationshipWithSubject) as [[e|e]|];
    [intros [= <- <-]; eauto..|].
  destruct (walkHierarchyTreeDownward fuel _ None m) as [[c2 m2]|] eqn:E2; [|done].
  apply walkHierarchyTreeDownward_inv in E2
    as (-> & [[? _]|(rs2 & B & ? & ? & HB & ->)]); simplify_eq.
  destruct (walkHierarchyTreeUpward fuel (Some resourceID) None m) as [[c3 m3]|] eqn:E3; [|done].
  apply walkHierarchyTreeUpward_inv in E3 as (-> & rs3 & R & ? & ? & HR & ->). simplify_eq.
  case_bool_decide; intros [= <- <-]; eauto.
Qed.

Lemma nodeIDIntersectionList_nonempty (A B R : list string) :
  length (nodeIDIntersectionList A B R) ≠ 0 ↔ ∃ x, (x ∈ A ∨ x ∈ B) ∧ x ∈ R.
Proof.
  unfold nodeIDIntersectionList. split.
  - destruct (filter _ _) as [|x l] eqn:E; [done|]. intros _.
    assert (Hx : x ∈ filter (λ nodeID, nodeID ∈ R) (A ++ B)) by (rewrite E; left).
    apply list_elem_of_filter in Hx as [? ?%elem_of_app]. eauto.
  - intros (x & Hx & HR) Hlen. apply nil_length_inv in Hlen.
    assert (Hin : x ∈ filter (λ nodeID, nodeID ∈ R) (A ++ B)).
    { apply list_elem_of_filter. by rewrite elem_of_app. }
    rewrite Hlen in Hin. by apply elem_of_nil in Hin.
Qed.

(** Two unbounded walks from the same node return the same nodes and start
    with the same one, whatever the order of their reads. *)
Lemma walk_returns_agree read n l l' :
  walk_returns read None n l → walk_returns read None n l' →
  head l = head l' ∧ ∀ x, x ∈ l ↔ x ∈ l'.
Proof.
  intros H H'. split.
  - by rewrite (walk_returns_head _ _ _ _ H), (walk_returns_head _ _ _ _ H').
  - intros x. by rewrite (walk_returns_gathers _ _ _ _ H), (walk_returns_gathers _ _ _ _ H').
Qed.

(** C1.  [verifyThatUserCanRetrieveResource] answers [true] exactly when no
    relationship store is configured or, with [A = walkUp(userID)],
    [B = walkDown(A[0])] and [R = walkUp(resourceID)], some node of [A ∪ B]
    is in [R]; an empty intersection is a denial.  The check returns an
    answer whenever the hierarchy can be walked. *)
Theorem retrieve_allowed_iff_intersection (m : Machine) (userID resourceID : string) :
  (∀ fuel allowed m',
     verifyThatUserCanRetrieveResource fuel userID resourceID m
       = Some (Normal (Fulfilled allowed), m') →
     (allowed = true ↔ retrieveAllowedBySpec m userID resourceID) ∧
     (allowed = false ↔ ¬ retrieveAllowedBySpec m userID resourceID)) ∧
  (walkableHierarchy m →
     ∃ fuel allowed,
       verifyThatUserCanRetrieveResource fuel userID resourceID m
         = Some (Normal (Fulfilled allowed), m)).
Proof.
  split.
  - intros fuel allowed m' Hrun.
    assert (allowed = true ↔ retrieveAllowedBySpec m userID resourceID) as Hiff.
    { apply verifyThatUserCanRetrieveResource_inv in Hrun
        as (-> & [[Hrs Hc]|(rs & A & B & R & Hrs & HA & HB & HR & Hc)]);
        unfold retrieveAllowedBySpec; rewrite Hrs; simplify_eq; [done|].
      apply walk_returns_of_walk in HA, HB, HR.
      rewrite negb_true_iff, bool_decide_eq_false, nodeIDIntersectionList_nonempty. split.
      - intros Hx. exists A, B, R. eauto.
      - intros (A' & B' & R' & HA' & HB' & HR' & x & Hx & HxR).
        destruct (walk_returns_agree _ _ _ _ HA HA') as [Hhead HAeq].
        rewrite <- Hhead in HB'.
        destruct (walk_returns_agree _ _ _ _ HB HB') as [_ HBeq].
        destruct (walk_returns_agree _ _ _ _ HR HR') as [_ HReq].
        exists x. rewrite HAeq, HBeq, HReq. done. }
    split; [done|]. rewrite <- Hiff. by destruct allowed.
  - unfold walkableHierarchy. intros Hwalk.
    destruct (resourceRelationshipDatastore m) as [rs|] eqn:Hrs.
    + destruct Hwalk as (Hacyclic & Hup & Hdown).
      destruct (store_walks_terminate (edges rs) None Hacyclic (Some userID)) as [f1 H1].
      destruct (H1 f1 (le_n _)) as [[A HA] _].
      destruct (store_walks_terminate (edges rs) None Hacyclic (head A)) as [f2 H2].
      destruct (H2 f2 (le_n _)) as [_ [B HB]].
      destruct (store_walks_terminate (edges rs) None Hacyclic (Some resourceID)) as [f3 H3].
      destruct (H3 f3 (le_n _)) as [[R HR] _].
      exists (f1 + f2 + f3), (negb (bool_decide (length (nodeIDIntersectionList A B R) = 0))).
      eapply verifyThatUserCanRetrieveResource_run; eauto.
      * eapply walk_more_fuel; [exact HA|lia].
      * eapply walk_more_fuel; [exact HB|lia].
      * eapply walk_more_fuel; [exact HR|lia].
    + exists 0, true. unfold verifyThatUserCanRetrieveResource, async, tryCatch.
      unfold mbind, Sync_bind, gets. by rewrite Hrs.
Qed.

Lemma scenarios_acyclic :
  acyclicHierarchy orgHierarchy ∧ acyclicHierarchy rootUserHierarchy ∧
  acyclicHierarchy teamHierarchy.
Proof.
  repeat split; exists scenarioRank; intros e He _;
    repeat (apply elem_of_cons in He as [->|He]; [vm_compute; lia|]);
    by apply elem_of_nil in He.
Defined.

Lemma further_scenarios_acyclic :
  acyclicHierarchy meshHierarchy ∧ acyclicHierarchy twoChainHierarchy.
Proof.
  split; exists furtherRank; intros e He _;
    repeat (apply elem_of_cons in He as [->|He]; [vm_compute; lia|]);
    by apply elem_of_nil in He.
Qed.

Lemma depth_is_a_soft_bound_on_the_nodes_collected_witness :
  acyclicHierarchy meshHierarchy ∧
  (∀ nodeIDList,
     walk_returns (subjectsOf meshHierarchy IS_MEMBER) (Some 2) (Some "SYSTEM") nodeIDList →
     NoDup nodeIDList ∧
     (∀ x, x ∈ nodeIDList →
           x ∈ withinLevels (subjectsOf meshHierarchy IS_MEMBER) 2 (Some "SYSTEM")) ∧
     (length nodeIDList < 2 →
      ∀ x, x ∈ nodeIDList ↔ gathers (subjectsOf meshHierarchy IS_MEMBER) (Some "SYSTEM") x)) ∧
  ∃ fuel0, ∀ fuel, fuel0 ≤ fuel →
    ∃ upward downward,
      walkHierarchyTreeUpward fuel (Some "SYSTEM") (Some 2) (hierarchyOnly meshHierarchy)
        = Some (Normal (Fulfilled upward), hierarchyOnly meshHierarchy) ∧
      walkHierarchyTreeDownward fuel (Some "SYSTEM") (Some 2) (hierarchyOnly meshHierarchy)
        = Some (Normal (Fulfilled downward), hierarchyOnly meshHierarchy) ∧
      walk_returns (objectsOf meshHierarchy IS_MEMBER) (Some 2) (Some "SYSTEM") upward ∧
      walk_returns (subjectsOf meshHierarchy IS_MEMBER) (Some 2) (Some "SYSTEM") downward.
Proof.
  split; [exact (proj1 further_scenarios_acyclic)|].
  destruct (depth_is_a_soft_bound_on_the_nodes_collected (hierarchyOnly meshHierarchy) _
              (Some "SYSTEM") 2 eq_refl (proj1 further_scenarios_acyclic) eq_refl eq_refl)
    as (_ & Hreturned & Hreturns).
  split; [|exact Hreturns].
  intros nodeIDList. exact (Hreturned _ nodeIDList (or_intror eq_refl)).
Defined.

(** The claim as stated fails on both counts.  On the mesh a walk down
    from the root with depth 2 returns the first level only, although teamA
    is two levels away: the two nodes of the first level already make up
    the depth.  On the two chains a walk with depth 4 stops within the
    third level: the branch of b1 finds four nodes collected and ends,
    after the branch of a has started the read of a1, which then adds a2. *)
Lemma depth_is_compared_with_the_length_of_the_list :
  acyclicHierarchy meshHierarchy ∧
  walkHierarchyTreeDownward 5 (Some "SYSTEM") (Some 2) (hierarchyOnly meshHierarchy)
    = Some (Normal (Fulfilled ["orgA"; "orgB"]), hierarchyOnly meshHierarchy) ∧
  "teamA" ∈ withinLevels (subjectsOf meshHierarchy IS_MEMBER) 2 (Some "SYSTEM") ∧
  ("teamA" ∉ ["orgA"; "orgB"]) ∧
  acyclicHierarchy twoChainHierarchy ∧
  walkHierarchyTreeDownward 9 (Some "root") (Some 4) (hierarchyOnly twoChainHierarchy)
    = Some (Normal (Fulfilled ["a"; "b"; "a1"; "b1"; "a2"]), hierarchyOnly twoChainHierarchy) ∧
  "a2" ∈ withinLevels (subjectsOf twoChainHierarchy IS_MEMBER) 3 (Some "root") ∧
  "b2" ∈ withinLevels (subjectsOf twoChainHierarchy IS_MEMBER) 3 (Some "root") ∧
  "b2" ∉ ["a"; "b"; "a1"; "b1"; "a2"].
Proof.
  split; [exact (proj1 further_scenarios_acyclic)|].
  split; [vm_compute; reflexivity|].
  split; [vm_compute; set_solver|].
  split; [set_solver|].
  split; [exact (proj2 further_scenarios_acyclic)|].
  split; [vm_compute; reflexivity|].
  split; [vm_compute; set_solver|].
  split; [vm_compute; set_solver|].
  set_solver.
Qed.

(** With [depth = 0] the walk still returns the whole first level: the root
    branch pushes what its read returned before it compares. *)
Example depth_zero_returns_one_level :
  walkHierarchyTreeDownward 5 (Some "orgA") (Some 0) (hierarchyOnly orgHierarchy)
    = Some (Normal (Fulfilled ["userU"; "resourceR"]), hierarchyOnly orgHierarchy).
Proof. reflexivity. Qed.

Lemma retrieve_allowed_iff_intersection_witness :
  verifyThatUserCanRetrieveResource 10 "userU" "resourceR" (hierarchyOnly orgHierarchy)
    = Some (Normal (Fulfilled true), hierarchyOnly orgHierarchy) ∧
  retrieveAllowedBySpec (hierarchyOnly orgHierarchy) "userU" "resourceR" ∧
  walkableHierarchy (hierarchyOnly orgHierarchy) ∧
  ∃ fuel allowed,
    verifyThatUserCanRetrieveResource fuel "userV" "resourceR" (hierarchyOnly orgHierarchy)
      = Some (Normal (Fulfilled allowed), hierarchyOnly orgHierarchy).
Proof.
  assert (Hrun : verifyThatUserCanRetrieveResource 10 "userU" "resourceR"
                   (hierarchyOnly orgHierarchy)
                 = Some (Normal (Fulfilled true), hierarchyOnly orgHierarchy))
    by (vm_compute; reflexivity).
  assert (Hwalkable : walkableHierarchy (hierarchyOnly orgHierarchy)).
  { split; [exact (proj1 scenarios_acyclic)|]. split; reflexivity. }
  split; [exact Hrun|]. split; [|split; [exact Hwalkable|]].
  - apply (proj1 (proj1 (retrieve_allowed_iff_intersection
                           (hierarchyOnly orgHierarchy) "userU" "resourceR") 10 true _ Hrun)).
    reflexivity.
  - exact (proj2 (retrieve_allowed_iff_intersection
                    (hierarchyOnly orgHierarchy) "userV" "resourceR") Hwalkable).
Defined.




(** Outside a forest a read can return [SYSTEM] together with another
    node.  The branch ends all the same, before anything is pushed: the
    walk returns nothing, and the parent that is not [SYSTEM] is left out
    with it. *)
Example a_second_parent_next_to_SYSTEM_is_dropped :
  walkHierarchyTreeUpward 5 (Some "userU") None (hierarchyOnly twoParentHierarchy)
    = Some (Normal (Fulfilled []), hierarchyOnly twoParentHierarchy) ∧
  objectsOf twoParentHierarchy IS_MEMBER (Some "userU") = [SYSTEM; "orgA"] ∧
  ¬ memberForest twoParentHierarchy.
Proof.
  split; [vm_compute; reflexivity|]. split; [vm_compute; reflexivity|].
  intros [Hone _]. specialize (Hone (Some "userU")). vm_compute in Hone. lia.
Qed.

(** C2, the failing input.  For a user who is a direct member of [SYSTEM]
    the update check reads the parent list without the [SYSTEM] guard of the
    walks and then walks down from [SYSTEM] itself: it allows the update of
    a resource the retrieve check denies. *)
Theorem update_allowed_where_retrieve_denied :
  verifyThatUserCanUpdateResource 10 "rootUser" "resourceR" (hierarchyOnly rootUserHierarchy)
    = Some (Normal (Fulfilled true), hierarchyOnly rootUserHierarchy) ∧
  verifyThatUserCanRetrieveResource 10 "rootUser" "resourceR" (hierarchyOnly rootUserHierarchy)
    = Some (Normal (Fulfilled false), hierarchyOnly rootUserHierarchy).
Proof. split; vm_compute; reflexivity. Qed.

(** The other half of C2: retrieve access through an ancestor above the
    user's parent, which the update check does not grant. *)
Example retrieve_allowed_where_update_denied :
  verifyThatUserCanRetrieveResource 10 "userU" "resourceR" (hierarchyOnly teamHierarchy)
    = Some (Normal (Fulfilled true), hierarchyOnly teamHierarchy) ∧
  verifyThatUserCanUpdateResource 10 "userU" "resourceR" (hierarchyOnly teamHierarchy)
    = Some (Normal (Fulfilled false), hierarchyOnly teamHierarchy).
Proof. split; vm_compute; reflexivity. Qed.

(** ** Promises and guards *)

Arguments construct : simpl never.
Arguments then_ : simpl never.
Arguments async : simpl never.
Arguments tryCatch : simpl never.
Arguments when : simpl never.
Arguments Reflect_deleteProperty : simpl never.
Arguments callDatastore : simpl never.
Arguments callRelationshipDatastore : simpl never.
Arguments verifyThatUserCanUpdateResource : simpl never.
Arguments verifyThatUserCanRetrieveResource : simpl never.
Arguments Object_assign : simpl never.
Arguments updateItem : simpl never.
Arguments resourceItem : simpl never.
Lemma bind_unfold {A B} (c : Sync A) (k : A → Sync B) m :
  (c ≫= k) m =
    match c m with
    | None => None
    | Some (Throw e, m') => Some (Throw e, m')
    | Some (Normal a, m') => k a m'
    end.
Proof. reflexivity. Qed.

Lemma bind_normal {A B} (c : Sync A) (k : A → Sync B) m b m' :
  (c ≫= k) m = Some (Normal b, m') →
  ∃ a m1, c m = Some (Normal a, m1) ∧ k a m1 = Some (Normal b, m').
Proof. rewrite bind_unfold. repeat case_match; naive_solver. Qed.

Lemma gets_bind {A B} (f : Machine → A) (k : A → Sync B) m : (gets f ≫= k) m = k (f m) m.
Proof. reflexivity. Qed.

Lemma when_throw_bind {B} (condition : bool) (e : error) (k : unit → Sync B) m b m' :
  (when condition (throw e) ≫= k) m = Some (Normal b, m') →
  condition = false ∧ k tt m = Some (Normal b, m').
Proof. destruct condition; [done|]. intros ?. by split. Qed.

Lemma await_bind_normal {A} (c : Sync (promise A)) m a m' :
  (c ≫= await) m = Some (Normal a, m') → c m = Some (Normal (Fulfilled a), m').
Proof.
  intros (p & m1 & Hc & Hawait)%bind_normal. destruct p; [|done].
  by injection Hawait as <- <-.
Qed.

Lemma async_fulfilled {A} (body : Sync (promise A)) m a m' :
  async body m = Some (Normal (Fulfilled a), m') → body m = Some (Normal (Fulfilled a), m').
Proof. unfold async, tryCatch. repeat case_match; naive_solver. Qed.

Lemma then_fulfilled {A B} (p : promise A) (callback : A → Sync (promise B)) m b m' :
  then_ p callback m = Some (Normal (Fulfilled b), m') →
  ∃ a, p = Fulfilled a ∧ callback a m = Some (Normal (Fulfilled b), m').
Proof. destruct p as [a|e]; [|done]. intros ?%async_fulfilled. eauto. Qed.

Lemma return_fulfilled {A B} (p : promise A) (v w : B) :
  return_ p v = Fulfilled w → v = w ∧ ∃ a, p = Fulfilled a.
Proof. destruct p; [|done]. intros [= ->]. eauto. Qed.

Lemma callDatastore_fulfilled {A} call (effect : Datastore → A * Datastore) m a m' :
  callDatastore call effect m = Some (Normal (Fulfilled a), m') →
  ∃ ds, datastore m = Some ds ∧ datastoreFault ds call = None ∧
        a = (effect ds).1 ∧ m' = setDatastore (effect ds).2 m.
Proof.
  unfold callDatastore. destruct (datastore m) as [ds|]; [|done].
  destruct (datastoreFault ds call) as [[?|?]|] eqn:Hfault; [done..|].
  destruct (effect ds) as [a0 ds'] eqn:E. intros [= <- <-]. exists ds. by rewrite E.
Qed.

Lemma callDatastore_normal {A} call (effect : Datastore → A * Datastore) m p m' :
  callDatastore call effect m = Some (Normal p, m') →
  ∃ ds, datastore m = Some ds ∧
    ((datastoreFault ds call = None ∧ p = Fulfilled (effect ds).1 ∧
        m' = setDatastore (effect ds).2 m) ∨
     (∃ e, datastoreFault ds call = Some (Rejects e) ∧ p = RejectedWith e ∧ m' = m)).
Proof.
  unfold callDatastore. destruct (datastore m) as [ds|]; [|done].
  destruct (datastoreFault ds call) as [[?|?]|] eqn:Hfault; [done| |].
  - intros [= <- <-]. exists ds. eauto 10.
  - destruct (effect ds) as [a0 ds'] eqn:E. intros [= <- <-]. exists ds. split; [done|]. left. by rewrite E.
Qed.

Lemma callRelationshipDatastore_normal {A} call
    (effect : RelationshipDatastore → A * RelationshipDatastore) m p m' :
  callRelationshipDatastore call effect m = Some (Normal p, m') →
  ∃ rs, resourceRelationshipDatastore m = Some rs ∧
    ((relationshipFault rs call = None ∧ p = Fulfilled (effect rs).1 ∧
        m' = setRelationshipDatastore (effect rs).2 m) ∨
     (∃ e, relationshipFault rs call = Some (Rejects e) ∧ p = RejectedWith e ∧ m' = m)).
Proof.
  unfold callRelationshipDatastore. destruct (resourceRelationshipDatastore m) as [rs|]; [|done].
  destruct (relationshipFault rs call) as [[?|?]|] eqn:Hfault; [done| |].
  - intros [= <- <-]. exists rs. eauto 10.
  - destruct (effect rs) as [a0 rs'] eqn:E. intros [= <- <-]. exists rs. split; [done|]. left. by rewrite E.
Qed.

Lemma setDatastore_same ds m : datastore m = Some ds → setDatastore ds m = m.
Proof. destruct m; simpl. by intros ->. Qed.

Lemma setRelationshipDatastore_same rs m :
  resourceRelationshipDatastore m = Some rs → setRelationshipDatastore rs m = m.
Proof. destruct m; simpl. by intros ->. Qed.

Lemma Reflect_deleteProperty_normal property m u m' :
  Reflect_deleteProperty property m = Some (Normal u, m') →
  ∃ properties, resourceAttributes m = VObj properties ∧
    m' = setResourceAttributes (VObj (delete property properties)) m.
Proof. unfold Reflect_deleteProperty. intros ?. repeat case_match; simplify_eq. eauto. Qed.

Lemma construct_normal NucleusResourceModel attributes authorUserID reservedID m built m' :
  construct NucleusResourceModel attributes authorUserID reservedID m = Some (Normal built, m') →
  m' = m ∧ ∃ factory, NucleusResourceModel = Some factory ∧
    factory attributes authorUserID reservedID = inr built.
Proof.
  unfold construct. destruct NucleusResourceModel as [factory|]; [|done].
  destruct (factory _ _ _) eqn:E; [done|]. intros [= <- <-]. eauto.
Qed.

Lemma isString_true v : isString v = true → ∃ s, v = VStr s.
Proof. destruct v; naive_solver. Qed.

Lemma isObject_true v : isObject v = true → ∃ o, v = VObj o.
Proof. destruct v; naive_solver. Qed.

Lemma isFunction_true (NucleusResourceModel : option Model) :
  isFunction NucleusResourceModel = true → ∃ factory, NucleusResourceModel = Some factory.
Proof. destruct NucleusResourceModel; [eauto|done]. Qed.

Lemma isUndefined_false {A} (store : option A) :
  isUndefined store = false → ∃ s, store = Some s.
Proof. destruct store; [eauto|done]. Qed.

Lemma userID_valid originUserID :
  negb (isString originUserID) || isEmpty originUserID = false →
  ∃ user, originUserID = VStr user ∧ user ≠ EmptyString.
Proof.
  intros [Hs He]%orb_false_iff. apply negb_false_iff, isString_true in Hs as [user ->].
  exists user. split; [done|]. simpl in He. by apply bool_decide_eq_false in He.
Qed.

Lemma tryCatch_normal {A} (body : Sync A) (handler : error → Sync A) m a m' :
  tryCatch body handler m = Some (Normal a, m') →
  body m = Some (Normal a, m') ∨
  ∃ e m1, body m = Some (Throw e, m1) ∧ handler e m1 = Some (Normal a, m').
Proof. unfold tryCatch. repeat case_match; naive_solver. Qed.

Lemma Promise_all_pair (p q : promise unit) u :
  Promise_all [p; q] = Fulfilled u → p = Fulfilled tt ∧ q = Fulfilled tt.
Proof. destruct p as [[]|], q as [[]|]; naive_solver. Qed.

Lemma callRelationshipDatastore_fulfilled {A} call
    (effect : RelationshipDatastore → A * RelationshipDatastore) m a m' :
  callRelationshipDatastore call effect m = Some (Normal (Fulfilled a), m') →
  ∃ rs, resourceRelationshipDatastore m = Some rs ∧ relationshipFault rs call = None ∧
        a = (effect rs).1 ∧ m' = setRelationshipDatastore (effect rs).2 m.
Proof.
  intros (rs & ? & [(? & [= ->] & ->)|(e & _ & ? & _)])%callRelationshipDatastore_normal;
    [|done]. eauto.
Qed.

Lemma falsy_false parentNodeID :
  falsy parentNodeID = false → ∃ parent, parentNodeID = Some parent ∧ parent ≠ EmptyString.
Proof.
  destruct parentNodeID as [parent|]; [|done]. simpl. intros ?%bool_decide_eq_false. eauto.
Qed.

(** *** What leaves the caller's object alone *)

Lemma keeps_ret {A} (a : A) : keepsAttributes (mret a).
Proof. intros m. by eexists _, _. Qed.

Lemma keeps_throw {A} (e : error) : keepsAttributes (@throw A e).
Proof. intros m. by eexists _, _. Qed.

Lemma keeps_gets {A} (f : Machine → A) : keepsAttributes (gets f).
Proof. intros m. by eexists _, _. Qed.

Lemma keeps_bind {A B} (c : Sync A) (k : A → Sync B) :
  keepsAttributes c → (∀ a, keepsAttributes (k a)) → keepsAttributes (c ≫= k).
Proof.
  intros Hc Hk m. rewrite bind_unfold.
  destruct (Hc m) as ([a|e] & m1 & -> & Hm1); [|by eexists _, _].
  destruct (Hk a m1) as (r & m2 & -> & Hm2). exists r, m2. split; [done|congruence].
Qed.

Lemma keeps_when (condition : bool) (c : Sync unit) :
  keepsAttributes c → keepsAttributes (when condition c).
Proof. unfold when. destruct condition; [done|]. intros _. apply keeps_ret. Qed.

Lemma keeps_tryCatch {A} (body : Sync A) (handler : error → Sync A) :
  keepsAttributes body → (∀ e, keepsAttributes (handler e)) →
  keepsAttributes (tryCatch body handler).
Proof.
  intros Hbody Hhandler m. unfold tryCatch.
  destruct (Hbody m) as ([a|e] & m1 & -> & Hm1); [by eexists _, _|].
  destruct (Hhandler e m1) as (r & m2 & -> & Hm2). exists r, m2. split; [done|congruence].
Qed.

Lemma keeps_async {A} (body : Sync (promise A)) :
  keepsAttributes body → keepsAttributes (async body).
Proof. intros ?. apply keeps_tryCatch; [done|]. intros e. apply keeps_ret. Qed.

Lemma keeps_await {A} (p : promise A) : keepsAttributes (await p).
Proof. destruct p; [apply keeps_ret|apply keeps_throw]. Qed.

Lemma keeps_then {A B} (p : promise A) (callback : A → Sync (promise B)) :
  (∀ a, keepsAttributes (callback a)) → keepsAttributes (then_ p callback).
Proof. intros ?. destruct p; [by apply keeps_async|apply keeps_ret]. Qed.

Lemma keeps_callDatastore {A} call (effect : Datastore → A * Datastore) :
  keepsAttributes (callDatastore call effect).
Proof.
  intros m. unfold callDatastore.
  destruct (datastore m) as [ds|]; [|by eexists _, _].
  destruct (datastoreFault ds call) as [[e|e]|]; [by eexists _, _..|].
  destruct (effect ds). by eexists _, _.
Qed.

Lemma keeps_callRelationshipDatastore {A} call
    (effect : RelationshipDatastore → A * RelationshipDatastore) :
  keepsAttributes (callRelationshipDatastore call effect).
Proof.
  intros m. unfold callRelationshipDatastore.
  destruct (resourceRelationshipDatastore m) as [rs|]; [|by eexists _, _].
  destruct (relationshipFault rs call) as [[e|e]|]; [by eexists _, _..|].
  destruct (effect rs). by eexists _, _.
Qed.

Lemma keeps_construct NucleusResourceModel attributes authorUserID reservedID :
  keepsAttributes (construct NucleusResourceModel attributes authorUserID reservedID).
Proof.
  unfold construct. repeat case_match; auto using @keeps_ret, @keeps_throw.
Qed.

Create HintDb keeps.
#[local] Hint Resolve keeps_ret keeps_throw keeps_gets keeps_when keeps_tryCatch keeps_async
  keeps_await keeps_then keeps_callDatastore keeps_callRelationshipDatastore keeps_construct
  : keeps.

(** Build the proof that a chain of calls keeps the attributes object. *)
Ltac keeps :=
  repeat first
    [ apply keeps_bind; [|intros ?]
    | apply keeps_then; intros ?
    | apply keeps_tryCatch; [|intros ?]
    | progress (unfold addItemToHashFieldByName, addItemToSetByName, removeItemByName,
                 retrieveAllItemsFromHashByName, existsAsync,
                 createRelationshipBetweenSubjectAndObject,
                 retrieveObjectOfRelationshipWithSubject,
                 retrieveSubjectOfRelationshipWithObject, removeAllRelationshipsToVector)
    | case_match
    | solve [eauto with keeps] ].

(** An [async] wrapper and a [catch] that rethrows settle in the state their
    body ends in. *)
Lemma async_settles {A} (body : Sync (promise A)) (Q : Machine → Prop) m :
  (∃ r m', body m = Some (r, m') ∧ Q m') → ∃ c m', async body m = Some (c, m') ∧ Q m'.
Proof.
  intros ([p|e] & m' & Hbody & HQ); unfold async, tryCatch; rewrite Hbody; by eexists _, _.
Qed.

Lemma tryCatch_throw_settles {A} (body : Sync A) (f : error → error) (Q : Machine → Prop) m :
  (∃ r m', body m = Some (r, m') ∧ Q m') →
  ∃ r m', tryCatch body (λ e, throw (f e)) m = Some (r, m') ∧ Q m'.
Proof.
  intros ([a|e] & m' & Hbody & HQ); unfold tryCatch; rewrite Hbody; by eexists _, _.
Qed.

Lemma when_false_bind {B} (c : Sync unit) (k : unit → Sync B) m :
  (when false c ≫= k) m = k tt m.
Proof. reflexivity. Qed.

Lemma ret_bind {A B} (a : A) (k : A → Sync B) m : (mret a ≫= k) m = k a m.
Proof. reflexivity. Qed.

Lemma Reflect_deleteProperty_bind {B} property properties (k : unit → Sync B) m :
  resourceAttributes m = VObj properties →
  (Reflect_deleteProperty property ≫= k) m
  = k tt (setResourceAttributes (VObj (delete property properties)) m).
Proof. intros Hm. rewrite bind_unfold. unfold Reflect_deleteProperty. by rewrite Hm. Qed.

(** Peel the guards and the monadic plumbing off a run that fulfilled. *)
Ltac sync_inv H :=
  repeat first
    [ apply async_fulfilled in H
    | rewrite gets_bind in H
    | apply when_throw_bind in H as [? H] ].

Section Lifecycle.
Context `{!Collaborators}.

Lemma updatesResourceByID_fulfilled fuel firstISOTime secondISOTime resourceType
    NucleusResourceModel resourceID originUserID m updated m' :
  updatesResourceByID fuel firstISOTime secondISOTime resourceType NucleusResourceModel
    resourceID originUserID m = Some (Normal (Fulfilled updated), m') →
  ∃ type factory id user ds patch built,
    resourceType = VStr type ∧ NucleusResourceModel = Some factory ∧
    resourceID = VStr id ∧ originUserID = VStr user ∧
    datastore m = Some ds ∧ resourceAttributes m = VObj patch ∧
    verifyThatUserCanUpdateResource fuel user id m = Some (Normal (Fulfilled true), m) ∧
    is_Some (records ds !! generateItemKey type id) ∧
    factory (mergedAttributes firstISOTime (readFields (generateItemKey type id) ds) patch)
      user VUndefined = inr built ∧
    updated = setUpdatedISOTime secondISOTime built ∧
    m' = setDatastore
           (writeFields (generateItemKey type id)
              (updateItem updated (VObj (stripReserved patch))) ds)
           (setResourceAttributes (VObj (stripReserved patch)) m).
Proof.
  unfold updatesResourceByID. intros Hrun. sync_inv Hrun.
  repeat match goal with
         | G : negb _ = false |- _ => apply negb_false_iff in G
         end.
  destruct (isString_true resourceType) as [type ->]; [done|].
  destruct (isFunction_true NucleusResourceModel) as [factory ->]; [done|].
  destruct (isString_true resourceID) as [id ->]; [done|].
  destruct (isObject_true (resourceAttributes m)) as [patch Hpatch]; [done|].
  destruct (userID_valid originUserID) as (user & -> & Huser); [done|].
  destruct (isUndefined_false (datastore m)) as [ds Hds]; [done|].
  simpl stringOf in Hrun.
  apply bind_normal in Hrun as (can & m1 & Hverify & Hrun).
  apply await_bind_normal in Hverify.
  destruct (verifyThatUserCanUpdateResource_inv _ _ _ _ _ _ Hverify) as [-> _].
  apply when_throw_bind in Hrun as [->%negb_false_iff Hrun].
  apply bind_normal in Hrun as (found & m2 & Hexists & Hrun).
  apply await_bind_normal, callDatastore_fulfilled in Hexists as (ds' & ? & _ & -> & ->).
  assert (ds' = ds) as -> by congruence.
  simpl in Hrun. rewrite (setDatastore_same _ _ Hds) in Hrun.
  apply when_throw_bind in Hrun as [Hfound%negb_false_iff Hrun].
  apply bool_decide_eq_true in Hfound.
  apply bind_normal in Hrun as (stale & m3 & Hread & Hrun).
  apply then_fulfilled in Hrun as (staleResourceAttributes & -> & Hrun).
  apply callDatastore_normal in Hread as (ds' & ? & [(_ & Hstale & ->)|(e & _ & ? & _)]);
    [|done].
  assert (ds' = ds) as -> by congruence.
  simpl in Hstale, Hrun. injection Hstale as ->.
  rewrite (setDatastore_same _ _ Hds) in Hrun.
  apply bind_normal in Hrun as (? & m4 & Hdel1 & Hrun).
  apply Reflect_deleteProperty_normal in Hdel1 as (patch1 & Hpatch1 & ->).
  assert (patch1 = patch) as -> by congruence.
  apply bind_normal in Hrun as (? & m5 & Hdel2 & Hrun).
  apply Reflect_deleteProperty_normal in Hdel2 as (patch2 & Hpatch2 & ->).
  simpl in Hpatch2. injection Hpatch2 as <-.
  rewrite gets_bind in Hrun. simpl in Hrun.
  apply bind_normal in Hrun as (built & m6 & Hbuilt & Hrun).
  apply construct_normal in Hbuilt as (-> & factory' & Hfactory & Hbuilt).
  injection Hfactory as <-.
  apply bind_normal in Hrun as (written & m7 & Hwrite & Hrun).
  injection Hrun as Hreturn <-.
  apply return_fulfilled in Hreturn as [<- [[] ->]].
  apply callDatastore_fulfilled in Hwrite as (ds' & Hds' & _ & _ & ->).
  simpl in Hds'. assert (ds' = ds) as -> by congruence.
  exists type, factory, id, user, ds, patch, built. repeat (split; [done|]).
  by destruct m.
Qed.

Lemma createResource_fulfilled resourceType NucleusResourceModel originUserID parentNodeID
    m created m' :
  createResource resourceType NucleusResourceModel originUserID parentNodeID m
    = Some (Normal (Fulfilled created), m') →
  ∃ type factory user ds passed parent built,
    resourceType = VStr type ∧ NucleusResourceModel = Some factory ∧
    originUserID = VStr user ∧ user ≠ EmptyString ∧
    datastore m = Some ds ∧ resourceAttributes m = VObj passed ∧
    parent ≠ EmptyString ∧
    (if falsy parentNodeID
     then ∃ rs, resourceRelationshipDatastore m = Some rs ∧
                head (objectsOf (edges rs) IS_MEMBER (Some user)) = Some parent
     else parentNodeID = Some parent) ∧
    factory (stripReserved passed) user (getProperty passed "ID") = inr built ∧
    created = {| resource := built; resourceAuthorID := user;
                 resourceMemberNodeID := parent |} ∧
    resourceAttributes m' = VObj (stripReserved passed) ∧
    datastore m' =
      Some (addMember RESOURCE_ID_BY_TYPE_TABLE_NAME type (ID built)
              (writeFields (generateOwnItemKey built) (resourceItem built) ds)) ∧
    resourceRelationshipDatastore m' =
      (λ rs, addEdge (Edge (ID built) IS_AUTHORED user)
               (addEdge (Edge (ID built) IS_MEMBER parent) rs))
        <$> resourceRelationshipDatastore m.
Proof.
  unfold createResource. intros Hrun. sync_inv Hrun.
  repeat match goal with
         | G : negb _ = false |- _ => apply negb_false_iff in G
         end.
  destruct (isString_true resourceType) as [type ->]; [done|].
  destruct (isFunction_true NucleusResourceModel) as [factory ->]; [done|].
  destruct (isObject_true (resourceAttributes m)) as [passed Hpassed]; [done|].
  destruct (userID_valid originUserID) as (user & -> & Huser); [done|].
  destruct (isUndefined_false (datastore m)) as [ds Hds]; [done|].
  simpl stringOf in Hrun.
  apply bind_normal in Hrun as (resolved & m1 & Hresolve & Hrun).
  apply when_throw_bind in Hrun as [(parent & -> & Hparent)%falsy_false Hrun].
  assert (m1 = m ∧
          if falsy parentNodeID
          then ∃ rs, resourceRelationshipDatastore m = Some rs ∧
                     head (objectsOf (edges rs) IS_MEMBER (Some user)) = Some parent
          else parentNodeID = Some parent) as [-> Hresolved].
  { destruct (falsy parentNodeID) eqn:Hfalsy.
    - destruct (resourceRelationshipDatastore m) as [rs|] eqn:Hrs; simpl in Hresolve.
      + apply bind_normal in Hresolve as (found & m2 & Hread & Hresolve).
        apply await_bind_normal, callRelationshipDatastore_fulfilled in Hread
          as (rs' & ? & _ & -> & ->).
        assert (rs' = rs) as -> by congruence. simpl in Hresolve.
        injection Hresolve as Hhead <-. rewrite (setRelationshipDatastore_same _ _ Hrs).
        eauto.
      + injection Hresolve as -> <-. simpl in Hfalsy. by apply bool_decide_eq_true in Hfalsy.
    - rewrite andb_false_r in Hresolve. by injection Hresolve as -> <-. }
  simpl in Hrun.
  apply tryCatch_normal in Hrun as [Hrun|(e & m2 & _ & Hthrow)]; [|done].
  rewrite gets_bind in Hrun.
  apply bind_normal in Hrun as (? & m4 & Hdel1 & Hrun).
  apply Reflect_deleteProperty_normal in Hdel1 as (passed1 & Hpassed1 & ->).
  assert (passed1 = passed) as -> by congruence.
  apply bind_normal in Hrun as (? & m5 & Hdel2 & Hrun).
  apply Reflect_deleteProperty_normal in Hdel2 as (passed2 & Hpassed2 & ->).
  simpl in Hpassed2. injection Hpassed2 as <-.
  rewrite gets_bind in Hrun.
  apply bind_normal in Hrun as (built & m6 & Hbuilt & Hrun).
  apply construct_normal in Hbuilt as (-> & factory' & Hfactory & Hbuilt).
  injection Hfactory as <-. simpl in Hbuilt. rewrite Hpassed in Hbuilt. simpl in Hbuilt.
  apply bind_normal in Hrun as (recordWrite & m7 & Hrecord & Hrun).
  apply bind_normal in Hrun as (indexWrite & m8 & Hindex & Hrun).
  apply bind_normal in Hrun as (edgeWrites & m9 & Hedges & Hrun).
  injection Hrun as Hreturn <-.
  apply return_fulfilled in Hreturn as [<- [[] ->]].
  apply then_fulfilled in Hedges as ([] & [-> ->]%Promise_all_pair & Hedges).
  apply callDatastore_fulfilled in Hrecord as (ds1 & Hds1 & _ & _ & ->).
  simpl in Hds1. assert (ds1 = ds) as -> by congruence.
  apply callDatastore_fulfilled in Hindex as (ds2 & Hds2 & _ & _ & ->).
  simpl in Hds2. injection Hds2 as <-.
  exists type, factory, user, ds, passed, parent, built.
  repeat (split; [done|]).
  destruct (resourceRelationshipDatastore m) as [rs|] eqn:Hrs; simpl in Hedges.
  - apply bind_normal in Hedges as (memberEdge & m10 & Hmember & Hedges).
    apply bind_normal in Hedges as (authorEdge & m11 & Hauthor & Hedges).
    injection Hedges as [-> ->]%Promise_all_pair <-.
    apply callRelationshipDatastore_fulfilled in Hmember as (rs1 & Hrs1 & _ & _ & ->).
    simpl in Hrs1. assert (rs1 = rs) as -> by congruence.
    apply callRelationshipDatastore_fulfilled in Hauthor as (rs2 & Hrs2 & _ & _ & ->).
    simpl in Hrs2. injection Hrs2 as <-. done.
  - injection Hedges as <-. simpl. by rewrite Hrs.
Qed.

Lemma create_strips_whatever_follows type factory user parentNodeID m ds passed :
  user ≠ EmptyString →
  datastore m = Some ds →
  resourceAttributes m = VObj passed →
  (falsy parentNodeID = false ∨
   ∃ rs, resourceRelationshipDatastore m = Some rs ∧
         relationshipFault rs RetrieveObjectOfRelationshipWithSubject = None ∧
         falsy (firstMemberObject m user) = false) →
  ∃ outcome m',
    createResource (VStr type) (Some factory) (VStr user) parentNodeID m = Some (outcome, m') ∧
    resourceAttributes m' = VObj (delete "meta" (delete "ID" passed)).
Proof.
  intros Huser Hds Hpassed Hparent.
  assert (Hempty : bool_decide (user = EmptyString) = false) by by apply bool_decide_eq_false.
  unfold createResource. apply async_settles.
  simpl. rewrite when_false_bind, when_false_bind, gets_bind.
  rewrite Hpassed. simpl. rewrite when_false_bind, Hempty.
  simpl. rewrite when_false_bind, !gets_bind, Hds. simpl.
  rewrite when_false_bind.
  assert (∃ parent,
    (if negb (isUndefined (resourceRelationshipDatastore m)) && falsy parentNodeID
     then (retrieveObjectOfRelationshipWithSubject (Some user) IS_MEMBER ≫= await)
            ≫= λ found : list string, mret (head found)
     else mret parentNodeID) m = Some (Normal parent, m) ∧ falsy parent = false)
    as (parent & Hresolve & Htruthy).
  { destruct (falsy parentNodeID) eqn:Hfalsy.
    - destruct Hparent as [?|(rs & Hrs & Hfault & Hfirst)]; [done|].
      exists (firstMemberObject m user). split; [|done].
      unfold firstMemberObject, retrieveObjectOfRelationshipWithSubject,
        callRelationshipDatastore. rewrite Hrs. simpl.
      rewrite !bind_unfold, Hrs, Hfault. simpl.
      by rewrite (setRelationshipDatastore_same _ _ Hrs).
    - exists parentNodeID. by rewrite andb_false_r. }
  rewrite bind_unfold, Hresolve, Htruthy, when_false_bind.
  apply tryCatch_throw_settles.
  rewrite gets_bind.
  rewrite (Reflect_deleteProperty_bind _ _ _ _ Hpassed).
  rewrite (Reflect_deleteProperty_bind _ (delete "ID" passed)) by done.
  match goal with
  | |- ∃ r m', ?rest ?m2 = _ ∧ _ =>
      assert (Hkeeps : keepsAttributes rest) by keeps;
      destruct (Hkeeps m2) as (r & m3 & Hrest & Hm3)
  end.
  exists r, m3. split; [exact Hrest|]. by rewrite Hm3.
Qed.

Lemma update_strips_whatever_follows fuel firstISOTime secondISOTime type factory id user
    m ds passed :
  user ≠ EmptyString →
  datastore m = Some ds →
  resourceAttributes m = VObj passed →
  verifyThatUserCanUpdateResource fuel user id m = Some (Normal (Fulfilled true), m) →
  datastoreFault ds ExistsAsync = None →
  is_Some (records ds !! generateItemKey type id) →
  datastoreFault ds RetrieveAllItemsFromHashByName = None →
  ∃ outcome m',
    updatesResourceByID fuel firstISOTime secondISOTime (VStr type) (Some factory) (VStr id)
      (VStr user) m = Some (outcome, m') ∧
    resourceAttributes m' = VObj (delete "meta" (delete "ID" passed)).
Proof.
  intros Huser Hds Hpassed Hverify Hexists Hfound Hread.
  assert (Hempty : bool_decide (user = EmptyString) = false) by by apply bool_decide_eq_false.
  pose proof (bool_decide_eq_true_2 _ Hfound) as Hfound'.
  unfold updatesResourceByID. apply async_settles.
  simpl. rewrite !when_false_bind, gets_bind.
  rewrite Hpassed. simpl. rewrite when_false_bind, Hempty.
  simpl. rewrite when_false_bind, gets_bind, Hds. simpl.
  rewrite when_false_bind.
  rewrite bind_unfold, bind_unfold, Hverify. simpl.
  rewrite when_false_bind.
  unfold existsAsync, retrieveAllItemsFromHashByName, callDatastore.
  rewrite !bind_unfold, Hds, Hexists. simpl.
  rewrite (setDatastore_same _ _ Hds). unfold recordExists.
  rewrite Hfound'. simpl. rewrite when_false_bind.
  rewrite !bind_unfold, Hds, Hread. simpl.
  rewrite (setDatastore_same _ _ Hds).
  unfold then_. apply async_settles.
  rewrite (Reflect_deleteProperty_bind _ _ _ _ Hpassed).
  rewrite (Reflect_deleteProperty_bind _ (delete "ID" passed)) by done.
  match goal with
  | |- ∃ r m', ?rest ?m2 = _ ∧ _ =>
      assert (Hkeeps : keepsAttributes rest) by keeps;
      destruct (Hkeeps m2) as (r & m3 & Hrest & Hm3)
  end.
  exists r, m3. split; [exact Hrest|]. by rewrite Hm3.
Qed.

End Lifecycle.

(** ** Lifecycle operations *)

Lemma updateItem_stripped (resource : Resource) (patch : gmap string value) :
  updateItem resource (VObj (stripReserved patch))
  = <["meta" := VObj (meta resource)]> (stripReserved patch).
Proof.
  unfold updateItem, Object_assign, stripReserved. simpl.
  apply map_eq. intros field. destruct (decide (field = "meta")) as [->|Hne].
  - rewrite lookup_insert_eq, lookup_union_r by apply lookup_delete_eq.
    by rewrite lookup_union_l, lookup_singleton_eq by apply lookup_empty.
  - rewrite lookup_insert_ne by done.
    rewrite !lookup_union, lookup_empty, lookup_singleton_ne by done.
    by destruct (delete "meta" (delete "ID" patch) !! field).
Qed.

Lemma readFields_writeFields key item ds :
  readFields key (writeFields key item ds) = item ∪ readFields key ds.
Proof. unfold readFields, writeFields. simpl. by rewrite lookup_insert_eq. Qed.


Lemma stripReserved_lookup patch field :
  stripReserved patch !! field =
    if bool_decide (field = "ID" ∨ field = "meta") then None else patch !! field.
Proof.
  unfold stripReserved. case_bool_decide as Hfield.
  - destruct Hfield as [-> | ->]; [|apply lookup_delete_eq].
    rewrite lookup_delete_ne by done. apply lookup_delete_eq.
  - rewrite !lookup_delete_ne by naive_solver. done.
Qed.

Section LifecycleProperties.
Context `{!Collaborators}.



(** C8, as amended.  A successful update leaves the stored ID as it was
    and keeps the creation time of the stored meta block (for a factory
    that honours the meta block it is handed).  It stamps [updatedISOTime]
    with the second clock reading without looking at the stamp it
    replaces: the new stamp is not earlier than the old one exactly when
    that clock reading is not earlier than the old stamp. *)
Theorem update_keeps_identity_and_creation_time (fuel : nat)
    (firstISOTime secondISOTime : string) (type id : string) (factory : Model)
    (originUserID : value) (m m' : Machine) (ds : Datastore) (updated : Resource)
    (before : gmap string value) :
  updatesResourceByID fuel firstISOTime secondISOTime (VStr type) (Some factory)
    (VStr id) originUserID m = Some (Normal (Fulfilled updated), m') →
  datastore m = Some ds →
  honoursCreationTime factory →
  readFields (generateItemKey type id) ds !! "meta" = Some (VObj before) →
  ∃ ds' after,
    datastore m' = Some ds' ∧
    readFields (generateItemKey type id) ds' !! "ID"
      = readFields (generateItemKey type id) ds !! "ID" ∧
    readFields (generateItemKey type id) ds' !! "meta" = Some (VObj after) ∧
    after = meta updated ∧
    (∀ created, before !! "createdISOTime" = Some created →
                after !! "createdISOTime" = Some created) ∧
    after !! "updatedISOTime" = Some (VStr secondISOTime) ∧
    ∀ earlier,
      before !! "updatedISOTime" = Some (VStr earlier) →
      (notLaterThan earlier secondISOTime ↔
       ∃ later, after !! "updatedISOTime" = Some (VStr later) ∧ notLaterThan earlier later).
Proof.
  intros (type' & factory' & id' & user & ds0 & patch & built & [= <-] & [= <-] & [= <-] & -> &
            Hds & Hpatch & _ & _ & Hbuilt & -> & ->)%updatesResourceByID_fulfilled
         Hds' Hhonours Hbefore.
  assert (ds0 = ds) as -> by congruence.
  rewrite updateItem_stripped.
  eexists _, _. split; [done|]. rewrite readFields_writeFields.
  split; [|split; [|split; [done|split; [|split]]]].
  - apply lookup_union_r. rewrite lookup_insert_ne by done.
    rewrite stripReserved_lookup. by rewrite bool_decide_eq_true_2 by auto.
  - erewrite lookup_union_Some_l; [done|]. apply lookup_insert_eq.
  - assert (Hmeta :
      mergedAttributes firstISOTime (readFields (generateItemKey type id) ds) patch !! "meta"
      = Some (VObj (Object_assign {["updatedISOTime" := VStr firstISOTime]} (VObj before)))).
    { unfold mergedAttributes, Object_assign. simpl.
      rewrite lookup_union_r by (rewrite stripReserved_lookup;
                                 by rewrite bool_decide_eq_true_2 by auto).
      rewrite lookup_union_l by apply lookup_empty. rewrite lookup_insert_eq.
      unfold getProperty. by rewrite Hbefore. }
    intros created Hcreated. simpl. rewrite lookup_insert_ne by done.
    apply (Hhonours _ _ _ _ _ _ Hbuilt Hmeta).
    unfold Object_assign. simpl. by apply lookup_union_Some_l.
  - simpl. apply lookup_insert_eq.
  - intros earlier _. simpl. rewrite lookup_insert_eq. split.
    + intros Hclock. by exists secondISOTime.
    + by intros (later & [= <-] & Hclock).
Qed.

(** C10.  Both operations strip the reserved keys from the very object the
    caller passed: after a call that fulfils, that object is the one passed
    without its [ID] and [meta] properties, and [createResource] has read
    [ID] before deleting it and handed it to the factory as the reserved ID.
    The deletion is done as soon as the guards of the call have passed, so
    the caller sees it also when the factory or a store fails afterwards. *)
Theorem reserved_keys_are_deleted_in_place :
  (∀ resourceType NucleusResourceModel originUserID parentNodeID m m' created,
     createResource resourceType NucleusResourceModel originUserID parentNodeID m
       = Some (Normal (Fulfilled created), m') →
     ∃ passed factory,
       resourceAttributes m = VObj passed ∧
       resourceAttributes m' = VObj (delete "meta" (delete "ID" passed)) ∧
       propertiesOf (resourceAttributes m') !! "ID" = None ∧
       propertiesOf (resourceAttributes m') !! "meta" = None ∧
       NucleusResourceModel = Some factory ∧
       factory (delete "meta" (delete "ID" passed)) (stringOf originUserID)
         (getProperty passed "ID") = inr (resource created)) ∧
  (∀ fuel firstISOTime secondISOTime resourceType NucleusResourceModel resourceID
     originUserID m m' updated,
     updatesResourceByID fuel firstISOTime secondISOTime resourceType NucleusResourceModel
       resourceID originUserID m = Some (Normal (Fulfilled updated), m') →
     ∃ passed,
       resourceAttributes m = VObj passed ∧
       resourceAttributes m' = VObj (delete "meta" (delete "ID" passed)) ∧
       propertiesOf (resourceAttributes m') !! "ID" = None ∧
       propertiesOf (resourceAttributes m') !! "meta" = None) ∧
  (∀ type factory user parentNodeID m ds passed,
     user ≠ EmptyString →
     datastore m = Some ds →
     resourceAttributes m = VObj passed →
     (falsy parentNodeID = false ∨
      ∃ rs, resourceRelationshipDatastore m = Some rs ∧
            relationshipFault rs RetrieveObjectOfRelationshipWithSubject = None ∧
            falsy (firstMemberObject m user) = false) →
     ∃ outcome m',
       createResource (VStr type) (Some factory) (VStr user) parentNodeID m
         = Some (outcome, m') ∧
       resourceAttributes m' = VObj (delete "meta" (delete "ID" passed))) ∧
  (∀ fuel firstISOTime secondISOTime type factory id user m ds passed,
     user ≠ EmptyString →
     datastore m = Some ds →
     resourceAttributes m = VObj passed →
     verifyThatUserCanUpdateResource fuel user id m = Some (Normal (Fulfilled true), m) →
     datastoreFault ds ExistsAsync = None →
     is_Some (records ds !! generateItemKey type id) →
     datastoreFault ds RetrieveAllItemsFromHashByName = None →
     ∃ outcome m',
       updatesResourceByID fuel firstISOTime secondISOTime (VStr type) (Some factory)
         (VStr id) (VStr user) m = Some (outcome, m') ∧
       resourceAttributes m' = VObj (delete "meta" (delete "ID" passed))).
Proof.
  assert (Hgone : ∀ passed : gmap string value,
            delete "meta" (delete "ID" passed) !! "ID" = None ∧
            delete "meta" (delete "ID" passed) !! "meta" = None).
  { intros passed. split; [|apply lookup_delete_eq].
    rewrite lookup_delete_ne by done. apply lookup_delete_eq. }
  split; [|split; [|split]].
  - intros resourceType NucleusResourceModel originUserID parentNodeID m m' created
      (type & factory & user & ds & passed & parent & built & -> & -> & -> & _ &
         _ & Hpassed & _ & _ & Hbuilt & -> & Hafter & _)%createResource_fulfilled.
    exists passed, factory. rewrite Hafter. simpl.
    destruct (Hgone passed). by repeat split.
  - intros fuel firstISOTime secondISOTime resourceType NucleusResourceModel resourceID
      originUserID m m' updated
      (type & factory & id & user & ds & passed & built & -> & -> & -> & -> &
         _ & Hpassed & _ & _ & _ & _ & ->)%updatesResourceByID_fulfilled.
    exists passed. simpl. destruct (Hgone passed). by repeat split.
  - intros. by eapply create_strips_whatever_follows.
  - intros. by eapply update_strips_whatever_follows.
Qed.

(** C3, as amended.  With no explicit parent, a call that passes validation
    and has a datastore takes as parent the first direct [is-member] object
    of the origin user read from the relationship store; when there is none
    to take (no relationship store, no such object, or an empty one) the
    call rejects with a plain [NucleusError], not with an undefined-context
    error. *)
Theorem create_resolves_parent_from_membership (type user : string) (factory : Model)
    (parentNodeID : option string) (m : Machine) (ds : Datastore)
    (passed : gmap string value) :
  user ≠ EmptyString →
  datastore m = Some ds →
  resourceAttributes m = VObj passed →
  falsy parentNodeID = true →
  (∀ rs, resourceRelationshipDatastore m = Some rs →
         relationshipFault rs RetrieveObjectOfRelationshipWithSubject = None) →
  (falsy (firstMemberObject m user) = true →
     createResource (VStr type) (Some factory) (VStr user) parentNodeID m
       = Some (Normal (RejectedWith (couldNotRetrieveTheNode user)), m) ∧
     errorClassOf (couldNotRetrieveTheNode user) = NucleusError) ∧
  (∀ created m',
     createResource (VStr type) (Some factory) (VStr user) parentNodeID m
       = Some (Normal (Fulfilled created), m') →
     firstMemberObject m user = Some (resourceMemberNodeID created) ∧
     ∃ rs', resourceRelationshipDatastore m' = Some rs' ∧
       Edge (ID (resource created)) IS_MEMBER (resourceMemberNodeID created) ∈ edges rs').
Proof.
  intros Huser Hds Hpassed Hfalsy Hreads. split.
  - intros Hnone. split; [|done].
    assert (Hempty : bool_decide (user = EmptyString) = false) by by apply bool_decide_eq_false.
    destruct m as [store relationships attributes]. simpl in Hds, Hpassed. subst.
    unfold firstMemberObject in Hnone. simpl in Hnone, Hreads.
    unfold createResource, async, tryCatch, when, retrieveObjectOfRelationshipWithSubject,
      callRelationshipDatastore.
    unfold mbind, Sync_bind, gets, await, mret, Sync_ret, throw.
    destruct relationships as [rs|].
    + specialize (Hreads rs eq_refl).
      repeat (progress (simpl; rewrite ?Hempty, ?Hfalsy, ?Hreads, ?Hnone)).
      by destruct rs.
    + by repeat (progress (simpl; rewrite ?Hempty, ?Hfalsy)).
  - intros created m' (type' & factory' & user' & ds' & passed' & parent & built & _ & _ &
                         [= <-] & _ & _ & _ & _ & Hparent & _ & -> & _ & _ & Hedges)
                        %createResource_fulfilled.
    rewrite Hfalsy in Hparent. destruct Hparent as (rs & Hrs & Hhead).
    unfold firstMemberObject. rewrite Hrs in *. simpl. split; [done|].
    eexists. split; [done|]. simpl. rewrite !elem_of_app, !list_elem_of_singleton. auto.
Qed.

(** C9.  Once validation, authorization and the existence check have passed
    and the record store deletes the record, the relationship store is asked
    to delete every edge touching the resource ID.  If that cleanup fails,
    the call rejects with the failure while the record stays deleted. *)
Theorem remove_deletes_record_then_edges (fuel : nat) (type id user : string) (m : Machine)
    (ds : Datastore) :
  user ≠ EmptyString →
  datastore m = Some ds →
  verifyThatUserCanUpdateResource fuel user id m = Some (Normal (Fulfilled true), m) →
  datastoreFault ds ExistsAsync = None →
  is_Some (records ds !! generateItemKey type id) →
  datastoreFault ds RemoveItemByName = None →
  let recordGone := setDatastore (removeRecord (generateItemKey type id) ds) m in
  records (removeRecord (generateItemKey type id) ds) !! generateItemKey type id = None ∧
  match resourceRelationshipDatastore m with
  | None =>
      removeResourceByID fuel (VStr type) (VStr id) (VStr user) m
        = Some (Normal (Fulfilled id), recordGone)
  | Some rs =>
      match relationshipFault rs RemoveAllRelationshipsToVector with
      | None =>
          removeResourceByID fuel (VStr type) (VStr id) (VStr user) m
            = Some (Normal (Fulfilled id),
                    setRelationshipDatastore (removeEdgesTouching id rs) recordGone) ∧
          ∀ e, e ∈ edges (removeEdgesTouching id rs) ↔
               e ∈ edges rs ∧ subject e ≠ id ∧ object e ≠ id
      | Some (Throws cause) | Some (Rejects cause) =>
          removeResourceByID fuel (VStr type) (VStr id) (VStr user) m
            = Some (Normal (RejectedWith cause), recordGone)
      end
  end.
Proof.
  intros Huser Hds Hverify Hexists Hfound Hremove recordGone.
  split; [apply lookup_delete_eq|].
  assert (Hempty : bool_decide (user = EmptyString) = false) by by apply bool_decide_eq_false.
  pose proof (bool_decide_eq_true_2 _ Hfound) as Hfound'.
  unfold recordGone. clear recordGone.
  destruct m as [store relationships passed]. simpl in Hds. subst store.
  unfold removeResourceByID, async, tryCatch, when, existsAsync, removeItemByName,
    removeAllRelationshipsToVector, callDatastore, callRelationshipDatastore, then_, async,
    tryCatch, recordExists.
  unfold mbind, Sync_bind, gets, await, mret, Sync_ret, throw.
  destruct relationships as [rs|];
    [destruct (relationshipFault rs RemoveAllRelationshipsToVector) as [[cause|cause]|] eqn:Hfault|];
    repeat (progress (simpl; rewrite ?Hempty, ?Hverify, ?Hexists, ?Hremove, ?Hfound', ?Hfault));
    try done.
  split; [done|]. intros e. rewrite list_elem_of_filter. tauto.
Qed.

(** X25.  When the record store fails to delete the record, the cleanup is
    never attempted: the call rejects with the store's error, and the record
    and the edges stay as they were. *)
Lemma remove_record_failure_skips_cleanup (fuel : nat) (type id user : string) (m : Machine)
    (ds : Datastore) (cause : error) :
  user ≠ EmptyString →
  datastore m = Some ds →
  verifyThatUserCanUpdateResource fuel user id m = Some (Normal (Fulfilled true), m) →
  datastoreFault ds ExistsAsync = None →
  is_Some (records ds !! generateItemKey type id) →
  datastoreFault ds RemoveItemByName = Some (Rejects cause) →
  removeResourceByID fuel (VStr type) (VStr id) (VStr user) m
    = Some (Normal (RejectedWith cause), m).
Proof.
  intros Huser Hds Hverify Hexists Hfound Hremove.
  assert (Hempty : bool_decide (user = EmptyString) = false) by by apply bool_decide_eq_false.
  pose proof (bool_decide_eq_true_2 _ Hfound) as Hfound'.
  destruct m as [store relationships passed]. simpl in Hds. subst store.
  unfold removeResourceByID, async, tryCatch, when, existsAsync, removeItemByName,
    removeAllRelationshipsToVector, callDatastore, callRelationshipDatastore, then_, async,
    tryCatch, recordExists.
  unfold mbind, Sync_bind, gets, await, mret, Sync_ret, throw.
  by repeat (progress (simpl; rewrite ?Hempty, ?Hverify, ?Hexists, ?Hremove, ?Hfound')).
Qed.

End LifecycleProperties.

(** ** The scenarios, run *)

Lemma plainModel_honours : honoursCreationTime plainModel.
Proof.
  intros attributes authorUserID reservedID built block created [= <-] Hmeta Hcreated.
  simpl. unfold Object_assign, getProperty. rewrite Hmeta. simpl.
  by apply lookup_union_Some_l.
Defined.

(** In the quiet world the update of resourceR by userU and the creation of
    a resource by userU both fulfil. *)
Lemma quiet_update_fulfils :
  ∃ updated m',
    @updatesResourceByID plainCollaborators 10
      "2021-06-01T00:00:00.000Z" "2021-06-01T00:00:00.001Z"
      (VStr "Dummy") (Some plainModel) (VStr "resourceR") (VStr "userU") quietWorld
    = Some (Normal (Fulfilled updated), m').
Proof. eexists _, _. vm_compute. reflexivity. Qed.

Lemma quiet_create_fulfils :
  ∃ created m',
    @createResource plainCollaborators (VStr "Dummy") (Some plainModel) (VStr "userU") None
      quietWorld
    = Some (Normal (Fulfilled created), m').
Proof. eexists _, _. vm_compute. reflexivity. Qed.


Lemma update_keeps_identity_and_creation_time_witness :
  ∃ updated m',
    @updatesResourceByID plainCollaborators 10
      "2021-06-01T00:00:00.000Z" "2021-06-01T00:00:00.001Z"
      (VStr "Dummy") (Some plainModel) (VStr "resourceR") (VStr "userU") quietWorld
    = Some (Normal (Fulfilled updated), m') ∧
    honoursCreationTime plainModel ∧
    notLaterThan "2020-01-01T00:00:00.000Z" "2021-06-01T00:00:00.001Z" ∧
    ∃ ds' after,
      datastore m' = Some ds' ∧
      readFields "Dummy:resourceR" ds' !! "ID" = Some (VStr "resourceR") ∧
      readFields "Dummy:resourceR" ds' !! "meta" = Some (VObj after) ∧
      after !! "createdISOTime" = Some (VStr "2020-01-01T00:00:00.000Z") ∧
      ∃ later, after !! "updatedISOTime" = Some (VStr later) ∧
               notLaterThan "2020-01-01T00:00:00.000Z" later.
Proof.
  destruct quiet_update_fulfils as (updated & m' & Hrun).
  assert (Hclock : notLaterThan "2020-01-01T00:00:00.000Z" "2021-06-01T00:00:00.001Z")
    by (vm_compute; reflexivity).
  exists updated, m'. split; [exact Hrun|]. split; [exact plainModel_honours|].
  split; [exact Hclock|].
  destruct (@update_keeps_identity_and_creation_time plainCollaborators _ _ _ _ _ _ _ _ _ _ _
              _ Hrun eq_refl plainModel_honours eq_refl)
    as (ds' & after & Hds' & HID & Hmeta & _ & Hcreated & _ & Hlater).
  exists ds', after. split; [exact Hds'|].
  split; [etrans; [exact HID|reflexivity]|]. split; [exact Hmeta|].
  split; [by apply Hcreated|].
  exact (proj1 (Hlater "2020-01-01T00:00:00.000Z" eq_refl) Hclock).
Defined.

(** The claim as stated fails when the clock is behind the stored stamp.
    The record of resourceR was stamped in 2020; an update made while the
    clock reads a time in 2019 fulfils, and the stored [updatedISOTime] is
    then earlier than it was before the call. *)
Lemma update_moves_the_stamp_backwards :
  (∃ ds before,
     datastore quietWorld = Some ds ∧
     readFields "Dummy:resourceR" ds !! "meta" = Some (VObj before) ∧
     before !! "updatedISOTime" = Some (VStr "2020-01-01T00:00:00.000Z")) ∧
  ∃ updated m' ds' after,
    @updatesResourceByID plainCollaborators 10
      "2019-06-01T00:00:00.000Z" "2019-06-01T00:00:00.001Z"
      (VStr "Dummy") (Some plainModel) (VStr "resourceR") (VStr "userU") quietWorld
    = Some (Normal (Fulfilled updated), m') ∧
    datastore m' = Some ds' ∧
    readFields "Dummy:resourceR" ds' !! "meta" = Some (VObj after) ∧
    after !! "updatedISOTime" = Some (VStr "2019-06-01T00:00:00.001Z") ∧
    ¬ notLaterThan "2020-01-01T00:00:00.000Z" "2019-06-01T00:00:00.001Z".
Proof.
  split.
  - eexists _, _. split; [reflexivity|]. split; [vm_compute; reflexivity|].
    vm_compute. reflexivity.
  - eexists _, _, _, _. split; [vm_compute; reflexivity|]. split; [reflexivity|].
    split; [vm_compute; reflexivity|]. split; [vm_compute; reflexivity|].
    intros Hclock. vm_compute in Hclock. discriminate.
Qed.

Lemma reserved_keys_are_deleted_in_place_witness :
  (∃ created m',
     @createResource plainCollaborators (VStr "Dummy") (Some plainModel) (VStr "userU") None
       quietWorld
     = Some (Normal (Fulfilled created), m') ∧
     propertiesOf (resourceAttributes m') !! "ID" = None ∧
     propertiesOf (resourceAttributes m') !! "meta" = None) ∧
  (∃ updated m',
     @updatesResourceByID plainCollaborators 10
       "2021-06-01T00:00:00.000Z" "2021-06-01T00:00:00.001Z"
       (VStr "Dummy") (Some plainModel) (VStr "resourceR") (VStr "userU") quietWorld
     = Some (Normal (Fulfilled updated), m') ∧
     propertiesOf (resourceAttributes m') !! "ID" = None ∧
     propertiesOf (resourceAttributes m') !! "meta" = None) ∧
  (∃ outcome m',
     @createResource plainCollaborators (VStr "Dummy") (Some plainModel) (VStr "userU") None
       (world (failingDatastoreCall AddItemToHashFieldByName (Rejects storeOutage))
          noRelationshipFault orgHierarchy passedAttributes)
     = Some (outcome, m') ∧
     resourceAttributes m' = VObj (delete "meta" (delete "ID" (propertiesOf passedAttributes)))).
Proof.
  split; [|split].
  - destruct quiet_create_fulfils as (created & m' & Hrun).
    exists created, m'. split; [exact Hrun|].
    destruct (proj1 (@reserved_keys_are_deleted_in_place plainCollaborators) _ _ _ _ _ _ _ Hrun)
      as (passed & factory & _ & _ & HID & Hmeta & _).
    split; [exact HID|exact Hmeta].
  - destruct quiet_update_fulfils as (updated & m' & Hrun).
    exists updated, m'. split; [exact Hrun|].
    destruct (proj1 (proj2 (@reserved_keys_are_deleted_in_place plainCollaborators))
                _ _ _ _ _ _ _ _ _ _ Hrun)
      as (passed & _ & _ & HID & Hmeta).
    split; [exact HID|exact Hmeta].
  - apply (proj1 (proj2 (proj2 (@reserved_keys_are_deleted_in_place plainCollaborators)))
             "Dummy" plainModel "userU" None
             (world (failingDatastoreCall AddItemToHashFieldByName (Rejects storeOutage))
                noRelationshipFault orgHierarchy passedAttributes)
             _ _
             ltac:(discriminate) eq_refl eq_refl
             ltac:(right; eexists; repeat split; reflexivity)).
Defined.

Lemma create_resolves_parent_from_membership_witness :
  (∃ created m',
     @createResource plainCollaborators (VStr "Dummy") (Some plainModel) (VStr "userU") None
       quietWorld
     = Some (Normal (Fulfilled created), m') ∧
     resourceMemberNodeID created = "orgA") ∧
  @createResource plainCollaborators (VStr "Dummy") (Some plainModel) (VStr "userV") None
    quietWorld
  = Some (Normal (RejectedWith (couldNotRetrieveTheNode "userV")), quietWorld).
Proof.
  split.
  - destruct quiet_create_fulfils as (created & m' & Hrun).
    exists created, m'. split; [exact Hrun|].
    destruct (proj2 (@create_resolves_parent_from_membership plainCollaborators
                       "Dummy" "userU" plainModel None quietWorld _ _
                       ltac:(discriminate) eq_refl eq_refl eq_refl
                       ltac:(by intros rs [= <-])) _ _ Hrun) as [Hparent _].
    by injection Hparent as <-.
  - apply (@create_resolves_parent_from_membership plainCollaborators
             "Dummy" "userV" plainModel None quietWorld _ _
             ltac:(discriminate) eq_refl eq_refl eq_refl ltac:(by intros rs [= <-])).
    reflexivity.
Defined.

(** The claim as stated fails: with no parent to resolve the call rejects
    with the base error class, which is not the undefined-context one. *)
Lemma unresolved_parent_is_not_undefined_context :
  @createResource plainCollaborators (VStr "Dummy") (Some plainModel) (VStr "userV") None
    quietWorld
  = Some (Normal (RejectedWith
                    (Error NucleusError
                       "Could not retrieve the node which the origin user (userV) is member of."
                       None)),
          quietWorld) ∧
  NucleusError ≠ UndefinedContextNucleusError.
Proof. split; [vm_compute; reflexivity|discriminate]. Qed.

Lemma remove_deletes_record_then_edges_witness :
  @removeResourceByID plainCollaborators 10 (VStr "Dummy") (VStr "resourceR") (VStr "userU")
    (world noDatastoreFault
       (failingRelationshipCall RemoveAllRelationshipsToVector (Rejects storeOutage))
       orgHierarchy passedAttributes)
  = Some (Normal (RejectedWith storeOutage),
          setDatastore
            (removeRecord "Dummy:resourceR"
               {| records := {[ "Dummy:resourceR" := storedDummy ]};
                  indices := ∅;
                  datastoreFault := noDatastoreFault |})
            (world noDatastoreFault
               (failingRelationshipCall RemoveAllRelationshipsToVector (Rejects storeOutage))
               orgHierarchy passedAttributes)).
Proof.
  apply (@remove_deletes_record_then_edges plainCollaborators 10 "Dummy" "resourceR" "userU"
           (world noDatastoreFault
              (failingRelationshipCall RemoveAllRelationshipsToVector (Rejects storeOutage))
              orgHierarchy passedAttributes) _
           ltac:(discriminate) eq_refl ltac:(vm_compute; reflexivity) eq_refl
           ltac:(eexists; reflexivity) eq_refl).
Defined.

(** C4, the failing input.  A store call that fails does so by rejecting the
    promise it returned.  The [try] block returns the promise chain without
    awaiting it, so its [catch] never sees the rejection: the call rejects
    with the store's own error, not with the wrapper that names the resource
    type.  Only a store call that throws while it is being issued is
    wrapped. *)
Theorem create_store_rejection_is_not_wrapped :
  let outcome faults relationshipFaults :=
    fst <$> @createResource plainCollaborators (VStr "Dummy") (Some plainModel)
              (VStr "userU") None
              (world faults relationshipFaults orgHierarchy passedAttributes) in
  outcome (failingDatastoreCall AddItemToHashFieldByName (Rejects storeOutage))
          noRelationshipFault
    = Some (Normal (RejectedWith storeOutage)) ∧
  outcome (failingDatastoreCall AddItemToSetByName (Rejects storeOutage))
          noRelationshipFault
    = Some (Normal (RejectedWith storeOutage)) ∧
  outcome noDatastoreFault
          (failingRelationshipCall CreateRelationshipBetweenSubjectAndObject
             (Rejects storeOutage))
    = Some (Normal (RejectedWith storeOutage)) ∧
  storeOutage ≠ @couldNotCreate plainCollaborators "Dummy" storeOutage ∧
  errorCause storeOutage = None ∧
  outcome (failingDatastoreCall AddItemToHashFieldByName (Throws storeOutage))
          noRelationshipFault
    = Some (Normal (RejectedWith (@couldNotCreate plainCollaborators "Dummy" storeOutage))) ∧
  errorCause (@couldNotCreate plainCollaborators "Dummy" storeOutage) = Some storeOutage.
Proof. repeat split; try (vm_compute; reflexivity). discriminate. Qed.

(** The message of the wrapper, as the template literal at line 76 builds
    it from the store's error. *)
Example wrapper_message_renders_the_cause :
  errorMessage (@couldNotCreate plainCollaborators "Dummy" storeOutage)
    = "Could not create Dummy because of an external error: Error: connection lost".
Proof. reflexivity. Qed.

(** ** Where update authorization is tighter than retrieve authorization *)

Lemma verifyThatUserCanUpdateResource_allowed fuel userID resourceID m rs c m' :
  resourceRelationshipDatastore m = Some rs →
  verifyThatUserCanUpdateResource fuel userID resourceID m = Some (c, m') →
  c = Normal (Fulfilled true) →
  ∃ B R,
    walk (subjectsOf (edges rs) IS_MEMBER) None fuel
      (head (objectsOf (edges rs) IS_MEMBER (Some userID))) = Some B ∧
    walk (objectsOf (edges rs) IS_MEMBER) None fuel (Some resourceID) = Some R ∧
    ∃ x, (x ∈ objectsOf (edges rs) IS_MEMBER (Some userID) ∨ x ∈ B) ∧ x ∈ R.
Proof.
  intros Hrs. unfold verifyThatUserCanUpdateResource, async, tryCatch.
  unfold mbind, Sync_bind, gets, await, mret, Sync_ret, throw. rewrite Hrs.
  unfold retrieveObjectOfRelationshipWithSubject, callRelationshipDatastore. rewrite Hrs.
  rewrite (setRelationshipDatastore_same _ _ Hrs).
  destruct (relationshipFault rs RetrieveObjectOfRelationshipWithSubject) as [[e|e]|];
    [by intros [= <- <-]..|]. simpl.
  destruct (walkHierarchyTreeDownward fuel _ None m) as [[c2 m2]|] eqn:E2; [|done].
  apply walkHierarchyTreeDownward_inv in E2
    as (-> & [[? _]|(rs2 & B & ? & ? & HB & ->)]); simplify_eq.
  destruct (walkHierarchyTreeUpward fuel (Some resourceID) None m) as [[c3 m3]|] eqn:E3; [|done].
  apply walkHierarchyTreeUpward_inv in E3 as (-> & rs3 & R & ? & ? & HR & ->). simplify_eq.
  case_bool_decide as Hlen; intros [= <- <-] [=].
  exists B, R. split; [done|]. split; [done|]. by apply nodeIDIntersectionList_nonempty.
Qed.

(** Update access implies retrieve access for every user whose direct
    parents do not include [SYSTEM], whenever the retrieve check answers. *)
Lemma update_allowed_implies_retrieve_allowed fuel fuel' userID resourceID m rs allowed m' m'' :
  resourceRelationshipDatastore m = Some rs →
  SYSTEM ∉ objectsOf (edges rs) IS_MEMBER (Some userID) →
  verifyThatUserCanUpdateResource fuel userID resourceID m
    = Some (Normal (Fulfilled true), m') →
  verifyThatUserCanRetrieveResource fuel' userID resourceID m
    = Some (Normal (Fulfilled allowed), m'') →
  allowed = true.
Proof.
  intros Hrs Hsystem Hupdate Hretrieve.
  destruct (verifyThatUserCanUpdateResource_allowed _ _ _ _ _ _ _ Hrs Hupdate eq_refl)
    as (B & R & HB & HR & x & Hx & HxR).
  apply verifyThatUserCanRetrieveResource_inv in Hretrieve
    as (-> & [[? _]|(rs' & A & B' & R' & ? & HA & HB' & HR' & [= ->])]); [congruence|].
  assert (rs' = rs) as -> by congruence.
  apply negb_true_iff, bool_decide_eq_false, nodeIDIntersectionList_nonempty.
  apply walk_returns_of_walk in HA, HB, HB', HR, HR'.
  set (P := objectsOf (edges rs) IS_MEMBER (Some userID)) in *.
  assert (HP : P ≠ []).
  { intros HP. rewrite HP in *. simpl in HB.
    apply walk_returns_inv in HB as (acc & started & [= <- <-] & Hdone%walk_steps_done).
    injection Hdone as ->.
    destruct Hx as [Hx|Hx]; by apply elem_of_nil in Hx. }
  assert (Hends : branchEnds P = false) by by apply branchEnds_false.
  pose proof (walk_returns_head _ _ _ _ HA) as Hhead. fold P in Hhead. rewrite Hends in Hhead.
  rewrite Hhead in HB'.
  destruct (walk_returns_agree _ _ _ _ HB HB') as [_ HBeq].
  destruct (walk_returns_agree _ _ _ _ HR HR') as [_ HReq].
  exists x. split; [|by apply HReq].
  destruct Hx as [Hx|Hx]; [left|right; by apply HBeq].
  apply (walk_returns_gathers _ _ _ _ HA). by apply gathers_here.
Qed.

(** * Further properties of the code *)

(** ** What the walks return *)

Section WalkResults.
Context (read : option string → list string) (depth : option nat).

(** Whatever a walk under way has collected, and whatever node a branch in
    flight is at, is some number of reads away from the start. *)
Lemma walk_steps_reach start s s' :
  rtc (walk_step read depth) s s' →
  (∀ x, x ∈ collected s → ∃ k, x ∈ withinLevels read k start) →
  (∀ n, n ∈ inFlight s → n = start ∨ ∃ p k, n = Some p ∧ p ∈ withinLevels read k start) →
  ∀ x, x ∈ collected s' → ∃ k, x ∈ withinLevels read k start.
Proof.
  induction 1 as [|s1 s2 s3 Hstep _ IH]; [by intros Hacc _|]. intros Hacc Hflight.
  destruct Hstep as [acc before n after acc' started Hres]. simpl in *.
  assert (Hread : ∀ x, x ∈ read n → ∃ k, x ∈ withinLevels read k start).
  { intros x Hx. destruct (Hflight n) as [->|(p & k & -> & Hp)]; [set_solver| |].
    - exists 1. apply elem_of_withinLevels_S. by left.
    - exists (S k). by eapply withinLevels_step. }
  apply resume_cases in Hres as [(_ & -> & ->)|(_ & -> & Hstarted)]; apply IH; simpl.
  - done.
  - intros m Hm. apply Hflight. set_solver.
  - intros x [?|?]%elem_of_pushNew; auto.
  - intros m Hm.
    assert (m ∈ before ++ n :: after ∨ m ∈ started) as [?|Hnew] by set_solver; [by apply Hflight|].
    destruct Hstarted as [[_ ->]|[_ ->]]; [by apply elem_of_nil in Hnew|].
    apply list_elem_of_fmap in Hnew as (p & -> & Hp). right.
    destruct (Hread p Hp) as [k ?]. eauto.
Qed.

End WalkResults.

(** X1.  Neither walk returns a node twice, whatever the graph, the depth
    and the order in which the reads resolve: a node is pushed onto the
    shared list only when the list does not hold it yet. *)
Theorem walks_return_every_node_once (fuel : nat) (start : option string)
    (depth : option nat) (m m' : Machine) (nodeIDList : list string) :
  walkHierarchyTreeUpward fuel start depth m = Some (Normal (Fulfilled nodeIDList), m') ∨
  walkHierarchyTreeDownward fuel start depth m = Some (Normal (Fulfilled nodeIDList), m') ∨
  (∃ read, walk_returns read depth start nodeIDList) →
  NoDup nodeIDList.
Proof.
  assert (Hwalk : ∀ read, walk read depth fuel start = Some nodeIDList → NoDup nodeIDList).
  { intros read ?%walk_returns_of_walk. by eapply walk_returns_NoDup. }
  intros [Hrun|[Hrun|[read Hrun]]].
  - apply walkHierarchyTreeUpward_inv in Hrun as (_ & rs & l & _ & _ & ? & ?).
    simplify_eq. eauto.
  - apply walkHierarchyTreeDownward_inv in Hrun as (_ & [[_ ?]|(rs & l & _ & _ & ? & ?)]);
      simplify_eq; [constructor|eauto].
  - by eapply walk_returns_NoDup.
Qed.

(** X2.  A walk returns only nodes that a chain of reads connects to its
    start: nothing that is not an ancestor (walking up) or a descendant
    (walking down) of the start gets into the result, whatever the depth
    and whether or not the graph has cycles. *)
Theorem walks_return_connected_nodes_only (fuel : nat) (start : option string)
    (depth : option nat) (m m' : Machine) (rs : RelationshipDatastore)
    (nodeIDList : list string) (x : string) :
  resourceRelationshipDatastore m = Some rs →
  x ∈ nodeIDList →
  (walkHierarchyTreeUpward fuel start depth m = Some (Normal (Fulfilled nodeIDList), m') →
   ∃ k, x ∈ withinLevels (objectsOf (edges rs) IS_MEMBER) k start) ∧
  (walkHierarchyTreeDownward fuel start depth m = Some (Normal (Fulfilled nodeIDList), m') →
   ∃ k, x ∈ withinLevels (subjectsOf (edges rs) IS_MEMBER) k start) ∧
  (∀ read, walk_returns read depth start nodeIDList → ∃ k, x ∈ withinLevels read k start).
Proof.
  intros Hrs Hx.
  assert (Hany : ∀ read, walk_returns read depth start nodeIDList →
                         ∃ k, x ∈ withinLevels read k start).
  { intros read Hsteps. apply (walk_steps_reach _ _ start _ _ Hsteps); simpl; [| |done].
    - by intros y ?%elem_of_nil.
    - intros n ->%list_elem_of_singleton. by left. }
  split; [|split; [|done]].
  - intros (_ & rs' & l & ? & _ & Hwalk & ?)%walkHierarchyTreeUpward_inv. simplify_eq.
    by apply walk_returns_of_walk, Hany in Hwalk.
  - intros (_ & [[? _]|(rs' & l & ? & _ & Hwalk & ?)])%walkHierarchyTreeDownward_inv;
      simplify_eq. by apply walk_returns_of_walk, Hany in Hwalk.
Qed.

(** X3.  With the default depth the order in which the reads resolve
    changes neither the nodes a walk returns nor the first of them: two
    runs of the same walk return permutations of one another with the same
    first element (the one the authorization checks walk down from). *)
Theorem unbounded_walks_do_not_depend_on_the_read_order (read : option string → list string)
    (start : option string) (nodeIDList nodeIDList' : list string) :
  walk_returns read None start nodeIDList →
  walk_returns read None start nodeIDList' →
  head nodeIDList = head nodeIDList' ∧ nodeIDList ≡ₚ nodeIDList'.
Proof.
  intros H H'. destruct (walk_returns_agree _ _ _ _ H H') as [Hhead Hsame].
  split; [done|]. apply NoDup_Permutation; [by eapply walk_returns_NoDup..|done].
Qed.

(** X4.  On an acyclic hierarchy whose reads work both walks return, for
    every depth including the default one, and what they return no longer
    changes once the fuel covers every branch. *)
Theorem walks_return_on_acyclic_hierarchies (m : Machine) (rs : RelationshipDatastore)
    (start : option string) (depth : option nat) :
  resourceRelationshipDatastore m = Some rs →
  acyclicHierarchy (edges rs) →
  relationshipFault rs RetrieveObjectOfRelationshipWithSubject = None →
  relationshipFault rs RetrieveSubjectOfRelationshipWithObject = None →
  ∃ fuel0 upward downward, ∀ fuel, fuel0 ≤ fuel →
    walkHierarchyTreeUpward fuel start depth m = Some (Normal (Fulfilled upward), m) ∧
    walkHierarchyTreeDownward fuel start depth m = Some (Normal (Fulfilled downward), m).
Proof.
  intros Hrs Hacyclic Hup Hdown.
  destruct (store_walks_terminate (edges rs) depth Hacyclic start) as [fuel0 Hfuel].
  destruct (Hfuel fuel0 (le_n _)) as [[up Eup] [down Edown]].
  exists fuel0, up, down. intros fuel Hle. split.
  - eapply walkHierarchyTreeUpward_run; [done..|]. by eapply walk_more_fuel.
  - eapply walkHierarchyTreeDownward_run; [done..|]. by eapply walk_more_fuel.
Qed.

(** ** Cycles *)

Section Cycles.
Context (read : option string → list string) (depth : option nat).

(** A set of nodes no branch gets out of: the read of each of them goes on
    and returns another of them. *)
Context (trapped : option string → Prop).
Hypothesis trap :
  ∀ n, trapped n → branchEnds (read n) = false ∧ ∃ p, p ∈ read n ∧ trapped (Some p).

(** What holds of the shared list all along, and keeps the depth from being
    reached. *)
Context (open : list string → Prop).
Hypothesis open_pushNew : ∀ acc n, open acc → open (pushNew acc (read n)).
Hypothesis open_depth : ∀ acc, open acc → depthReached depth acc = false.

Lemma trapped_step s s' :
  walk_step read depth s s' →
  open (collected s) → (∃ n, n ∈ inFlight s ∧ trapped n) →
  open (collected s') ∧ ∃ n, n ∈ inFlight s' ∧ trapped n.
Proof.
  intros Hstep Hopen (n & Hn & Htrapped).
  destruct Hstep as [acc before m after acc' started Hres]. simpl in *.
  apply resume_cases in Hres as [(E & -> & ->)|(E & -> & Hstarted)].
  - split; [done|]. exists n. split; [|done].
    destruct (decide (n = m)) as [->|?]; [|set_solver].
    destruct (trap m Htrapped) as [? _]. congruence.
  - pose proof (open_pushNew acc m Hopen) as Hopen'. split; [done|].
    destruct Hstarted as [[Hreached _]|[_ ->]]; [by rewrite open_depth in Hreached|].
    destruct (decide (n = m)) as [->|?].
    + destruct (trap m Htrapped) as [_ (p & Hp & ?)]. exists (Some p). split; [|done].
      rewrite !elem_of_app, list_elem_of_fmap. eauto.
    + exists n. split; [set_solver|done].
Qed.

Lemma trapped_steps s s' :
  rtc (walk_step read depth) s s' →
  open (collected s) → (∃ n, n ∈ inFlight s ∧ trapped n) →
  ∃ n, n ∈ inFlight s' ∧ trapped n.
Proof.
  induction 1 as [|s1 s2 s3 Hstep _ IH]; [done|]. intros Hopen Hn.
  destruct (trapped_step _ _ Hstep Hopen Hn). by apply IH.
Qed.

Lemma trapped_walk_never_returns start nodeIDList :
  open [] → trapped start → ¬ walk_returns read depth start nodeIDList.
Proof.
  intros Hopen Hstart Hsteps.
  destruct (trapped_steps _ _ Hsteps) as (n & []%elem_of_nil & _); [done|].
  exists start. split; [set_solver|done].
Qed.

End Cycles.

(** X5.  Cycles are not detected.  From a node whose reads lead round a
    cycle (a set of nodes the read of each of which goes on and returns
    another of them) a walk never returns: not with the default depth, and
    not with a depth larger than the number of nodes there are to collect,
    since the depth is compared with the number of nodes collected. *)
Theorem walks_never_return_from_a_cycle (read : option string → list string)
    (depth : option nat) (trapped : option string → Prop) (start : option string) :
  (∀ n, trapped n → branchEnds (read n) = false ∧ ∃ p, p ∈ read n ∧ trapped (Some p)) →
  trapped start →
  (depth = None ∨
   ∃ d nodes, depth = Some d ∧ (∀ n p, p ∈ read n → p ∈ nodes) ∧ length nodes < d) →
  (∀ nodeIDList, ¬ walk_returns read depth start nodeIDList) ∧
  (∀ fuel, walk read depth fuel start = None) ∧
  ∀ fuel m rs, resourceRelationshipDatastore m = Some rs →
    (read = objectsOf (edges rs) IS_MEMBER →
       walkHierarchyTreeUpward fuel start depth m = None) ∧
    (read = subjectsOf (edges rs) IS_MEMBER →
       walkHierarchyTreeDownward fuel start depth m = None).
Proof.
  intros Htrap Hstart Hdepth.
  assert (Hnever : ∀ nodeIDList, ¬ walk_returns read depth start nodeIDList).
  { intros l. destruct Hdepth as [->|(d & nodes & -> & Hnodes & Hlen)].
    - by apply (trapped_walk_never_returns read None trapped Htrap (λ _, True)).
    - apply (trapped_walk_never_returns read (Some d) trapped Htrap
               (λ acc, NoDup acc ∧ acc ⊆ nodes)); [| |split; [constructor|]|done].
      + intros acc n [Hacc Hsub]. split; [by apply NoDup_pushNew|].
        intros x [?|?]%elem_of_pushNew; [by apply Hsub|by eapply Hnodes].
      + intros acc [Hacc Hsub]. unfold depthReached. apply bool_decide_eq_false.
        pose proof (length_le_of_NoDup_subseteq _ _ Hacc Hsub). lia.
      + by intros x ?%elem_of_nil. }
  assert (Hwalk : ∀ fuel, walk read depth fuel start = None).
  { intros fuel. destruct (walk read depth fuel start) as [l|] eqn:E; [|done].
    by apply walk_returns_of_walk, Hnever in E. }
  split; [done|]. split; [done|]. intros fuel m rs Hrs. split; intros ->.
  - unfold walkHierarchyTreeUpward. rewrite Hrs, Hwalk. by case_match.
  - unfold walkHierarchyTreeDownward. rewrite Hrs, Hwalk. by case_match.
Qed.

(** X6.  The depth is compared with the number of nodes collected, after
    the nodes a read returned have been pushed.  So a walk whose depth is
    0 or 1, or at most the number of distinct nodes its first read
    returns, returns exactly that first level, in the order read and
    without repeats, and issues no second read. *)
Theorem walk_stops_after_the_level_that_reaches_the_depth
    (read : option string → list string) (d : nat) (start : option string) :
  d ≤ 1 ∨ d ≤ length (pushNew [] (read start)) →
  let firstLevel := if branchEnds (read start) then [] else pushNew [] (read start) in
  (∀ nodeIDList, walk_returns read (Some d) start nodeIDList → nodeIDList = firstLevel) ∧
  (∀ fuel, walk read (Some d) (S fuel) start = Some firstLevel) ∧
  (∀ x, x ∈ firstLevel ↔ branchEnds (read start) = false ∧ x ∈ read start).
Proof.
  intros Hd firstLevel.
  assert (Hresume : resume read (Some d) [] start = (firstLevel, [])).
  { unfold resume, firstLevel. destruct (branchEnds (read start)) eqn:E; [done|].
    assert (depthReached (Some d) (pushNew [] (read start)) = true) as ->; [|done].
    apply bool_decide_eq_true. destruct Hd as [Hd|Hd]; [|done].
    apply branchEnds_false in E as [E _].
    pose proof (head_pushNew_nil (read start)) as Hhead.
    destruct (read start) as [|p ps]; [done|].
    destruct (pushNew [] (p :: ps)); [done|]. simpl. lia. }
  split; [|split].
  - intros l (acc & started & Hres & Hsteps)%walk_returns_inv.
    rewrite Hresume in Hres. injection Hres as <- <-.
    by apply walk_steps_done in Hsteps as [= ->].
  - intros fuel. unfold walk. simpl. rewrite Hresume. by destruct fuel.
  - intros x. unfold firstLevel. destruct (branchEnds (read start)).
    + split; [by intros ?%elem_of_nil|by intros [? _]].
    + rewrite elem_of_pushNew, elem_of_nil. naive_solver.
Qed.

(** ** Reads that fail *)

Section FailedReads.
Context `{!Collaborators}.

(** X7.  Each walk resolves its promise only after its root branch has
    completed and never rejects it.  When a relationship read fails, the
    walk that issued it never settles, and neither does the retrieve check
    nor [retrieveResourceByID] once its guards have passed: the call
    neither fulfils nor rejects. *)
Theorem failed_read_leaves_retrieval_pending (fuel : nat) (m : Machine)
    (rs : RelationshipDatastore) :
  resourceRelationshipDatastore m = Some rs →
  is_Some (relationshipFault rs RetrieveObjectOfRelationshipWithSubject) ∨
  is_Some (relationshipFault rs RetrieveSubjectOfRelationshipWithObject) →
  (∀ start depth,
     (is_Some (relationshipFault rs RetrieveObjectOfRelationshipWithSubject) →
      walkHierarchyTreeUpward fuel start depth m = None) ∧
     (is_Some (relationshipFault rs RetrieveSubjectOfRelationshipWithObject) →
      walkHierarchyTreeDownward fuel start depth m = None)) ∧
  (∀ userID resourceID, verifyThatUserCanRetrieveResource fuel userID resourceID m = None) ∧
  (∀ type factory id user,
     user ≠ EmptyString → is_Some (datastore m) →
     retrieveResourceByID fuel (VStr type) (Some factory) (VStr id) (VStr user) m = None).
Proof.
  intros Hrs Hfault.
  assert (Hwalks : ∀ start depth,
     (is_Some (relationshipFault rs RetrieveObjectOfRelationshipWithSubject) →
      walkHierarchyTreeUpward fuel start depth m = None) ∧
     (is_Some (relationshipFault rs RetrieveSubjectOfRelationshipWithObject) →
      walkHierarchyTreeDownward fuel start depth m = None)).
  { intros start depth.
    split; intros [failure Hfailure];
      unfold walkHierarchyTreeUpward, walkHierarchyTreeDownward; by rewrite Hrs, Hfailure. }
  assert (Hverify : ∀ userID resourceID,
            verifyThatUserCanRetrieveResource fuel userID resourceID m = None).
  { intros userID resourceID.
    unfold verifyThatUserCanRetrieveResource, async, tryCatch.
    unfold mbind, Sync_bind, gets, await, mret, Sync_ret. rewrite Hrs.
    destruct (walkHierarchyTreeUpward fuel (Some userID) None m) as [[c1 m1]|] eqn:E1; [|done].
    apply walkHierarchyTreeUpward_inv in E1 as (-> & rs1 & A & ? & Hup & _ & ->).
    assert (rs1 = rs) as -> by congruence.
    destruct Hfault as [[failure Hfailure]|Hdown]; [congruence|].
    by rewrite (proj2 (Hwalks (head A) None) Hdown). }
  split; [done|]. split; [done|].
  intros type factory id user Huser [ds Hds].
  assert (Hempty : bool_decide (user = EmptyString) = false) by by apply bool_decide_eq_false.
  unfold retrieveResourceByID, async, tryCatch. simpl.
  rewrite !when_false_bind, Hempty. simpl.
  rewrite when_false_bind, gets_bind, Hds. simpl.
  rewrite when_false_bind, bind_unfold, bind_unfold, Hverify. done.
Qed.

(** X8.  The update check awaits the read of the user's direct parents
    itself, and [createResource] the read that resolves the parent.  When
    that read fails, the update check, [updatesResourceByID],
    [removeResourceByID] and a [createResource] with no explicit parent all
    reject with the store's own error and leave both stores and the caller's
    object as they found them. *)
Theorem failed_parent_read_rejects (fuel : nat) (firstISOTime secondISOTime : string)
    (type id user : string) (factory : Model) (m : Machine) (ds : Datastore)
    (rs : RelationshipDatastore) (passed : gmap string value) (failure : fault) :
  user ≠ EmptyString →
  datastore m = Some ds →
  resourceRelationshipDatastore m = Some rs →
  resourceAttributes m = VObj passed →
  relationshipFault rs RetrieveObjectOfRelationshipWithSubject = Some failure →
  let cause := match failure with Throws e | Rejects e => e end in
  verifyThatUserCanUpdateResource fuel user id m = Some (Normal (RejectedWith cause), m) ∧
  updatesResourceByID fuel firstISOTime secondISOTime (VStr type) (Some factory) (VStr id)
    (VStr user) m = Some (Normal (RejectedWith cause), m) ∧
  removeResourceByID fuel (VStr type) (VStr id) (VStr user) m
    = Some (Normal (RejectedWith cause), m) ∧
  (∀ parentNodeID, falsy parentNodeID = true →
     createResource (VStr type) (Some factory) (VStr user) parentNodeID m
       = Some (Normal (RejectedWith cause), m)).
Proof.
  intros Huser Hds Hrs Hpassed Hfailure cause.
  assert (Hempty : bool_decide (user = EmptyString) = false) by by apply bool_decide_eq_false.
  assert (Hverify : verifyThatUserCanUpdateResource fuel user id m
                    = Some (Normal (RejectedWith cause), m)).
  { unfold verifyThatUserCanUpdateResource, async, tryCatch,
      retrieveObjectOfRelationshipWithSubject, callRelationshipDatastore.
    unfold mbind, Sync_bind, gets, await, mret, Sync_ret, throw.
    rewrite Hrs. simpl. rewrite Hrs, Hfailure. unfold cause. by destruct failure. }
  split; [done|]. split; [|split].
  - unfold updatesResourceByID, async, tryCatch. simpl.
    rewrite !when_false_bind, gets_bind, Hpassed. simpl.
    rewrite when_false_bind, Hempty. simpl.
    rewrite when_false_bind, gets_bind, Hds. simpl.
    by rewrite when_false_bind, bind_unfold, bind_unfold, Hverify.
  - unfold removeResourceByID, async, tryCatch. simpl.
    rewrite !when_false_bind, Hempty. simpl.
    rewrite when_false_bind, !gets_bind, Hds. simpl.
    by rewrite when_false_bind, bind_unfold, bind_unfold, Hverify.
  - intros parentNodeID Hfalsy.
    unfold createResource, async, tryCatch at 1. simpl.
    rewrite !when_false_bind, gets_bind, Hpassed. simpl.
    rewrite when_false_bind, Hempty. simpl.
    rewrite when_false_bind, !gets_bind, Hds, Hrs, Hfalsy. simpl.
    rewrite when_false_bind.
    unfold retrieveObjectOfRelationshipWithSubject, callRelationshipDatastore.
    rewrite !bind_unfold, Hrs, Hfailure. unfold cause. by destruct failure.
Qed.

End FailedReads.

(** ** What a call leaves alone *)

Section Frames.
Context {X : Type} (part : Machine → X).

Lemma preserves_ret {A} (a : A) : preserves part (mret a).
Proof. by intros m r m' [= <- <-]. Qed.

Lemma preserves_throw {A} (e : error) : preserves part (@throw A e).
Proof. by intros m r m' [= <- <-]. Qed.

Lemma preserves_gets {A} (f : Machine → A) : preserves part (gets f).
Proof. by intros m r m' [= <- <-]. Qed.

Lemma preserves_bind {A B} (c : Sync A) (k : A → Sync B) :
  preserves part c → (∀ a, preserves part (k a)) → preserves part (c ≫= k).
Proof.
  intros Hc Hk m r m'. rewrite bind_unfold.
  destruct (c m) as [[[a|e] m1]|] eqn:E; [|intros [= <- <-]|done].
  - intros Hrest. etrans; [by eapply Hk|by eapply Hc].
  - by eapply Hc.
Qed.

Lemma preserves_when (condition : bool) (c : Sync unit) :
  preserves part c → preserves part (when condition c).
Proof. unfold when. destruct condition; [done|]. intros _. apply preserves_ret. Qed.

Lemma preserves_tryCatch {A} (body : Sync A) (handler : error → Sync A) :
  preserves part body → (∀ e, preserves part (handler e)) →
  preserves part (tryCatch body handler).
Proof.
  intros Hbody Hhandler m r m'. unfold tryCatch.
  destruct (body m) as [[[a|e] m1]|] eqn:E; [intros [= <- <-]| |done].
  - by eapply Hbody.
  - intros Hrest. etrans; [by eapply Hhandler|by eapply Hbody].
Qed.

Lemma preserves_async {A} (body : Sync (promise A)) :
  preserves part body → preserves part (async body).
Proof. intros ?. apply preserves_tryCatch; [done|]. intros e. apply preserves_ret. Qed.

Lemma preserves_await {A} (p : promise A) : preserves part (await p).
Proof. destruct p; [apply preserves_ret|apply preserves_throw]. Qed.

Lemma preserves_then {A B} (p : promise A) (callback : A → Sync (promise B)) :
  (∀ a, preserves part (callback a)) → preserves part (then_ p callback).
Proof. intros ?. destruct p; [by apply preserves_async|apply preserves_ret]. Qed.

Lemma preserves_construct NucleusResourceModel attributes authorUserID reservedID :
  preserves part (construct NucleusResourceModel attributes authorUserID reservedID).
Proof.
  unfold construct. repeat case_match; auto using @preserves_ret, @preserves_throw.
Qed.

Lemma preserves_callDatastore {A} call (effect : Datastore → A * Datastore) :
  (∀ m ds, datastore m = Some ds → part (setDatastore (effect ds).2 m) = part m) →
  preserves part (callDatastore call effect).
Proof.
  intros Heffect m r m'. unfold callDatastore.
  destruct (datastore m) as [ds|] eqn:Hds; [|by intros [= <- <-]].
  destruct (datastoreFault ds call) as [[e|e]|]; [by intros [= <- <-]..|].
  specialize (Heffect m ds Hds). destruct (effect ds). by intros [= <- <-].
Qed.

Lemma preserves_callRelationshipDatastore {A} call
    (effect : RelationshipDatastore → A * RelationshipDatastore) :
  (∀ m rs, resourceRelationshipDatastore m = Some rs →
           part (setRelationshipDatastore (effect rs).2 m) = part m) →
  preserves part (callRelationshipDatastore call effect).
Proof.
  intros Heffect m r m'. unfold callRelationshipDatastore.
  destruct (resourceRelationshipDatastore m) as [rs|] eqn:Hrs; [|by intros [= <- <-]].
  destruct (relationshipFault rs call) as [[e|e]|]; [by intros [= <- <-]..|].
  specialize (Heffect m rs Hrs). destruct (effect rs). by intros [= <- <-].
Qed.

Lemma preserves_Reflect_deleteProperty property :
  (∀ m v, part (setResourceAttributes v m) = part m) →
  preserves part (Reflect_deleteProperty property).
Proof.
  intros Hset m r m'. unfold Reflect_deleteProperty.
  destruct (resourceAttributes m); intros [= <- <-]; auto.
Qed.

Lemma preserves_verifyThatUserCanRetrieveResource fuel userID resourceID :
  preserves part (verifyThatUserCanRetrieveResource fuel userID resourceID).
Proof. by intros m r m' [-> _]%verifyThatUserCanRetrieveResource_inv. Qed.

Lemma preserves_verifyThatUserCanUpdateResource fuel userID resourceID :
  preserves part (verifyThatUserCanUpdateResource fuel userID resourceID).
Proof. by intros m r m' [-> _]%verifyThatUserCanUpdateResource_inv. Qed.

End Frames.

(** Build the proof that a chain of calls preserves a part of the state;
    what is left is what each store call and each deletion does to it. *)
Ltac frame :=
  repeat first
    [ apply preserves_verifyThatUserCanRetrieveResource
    | apply preserves_verifyThatUserCanUpdateResource
    | apply preserves_bind; [|intros ?]
    | apply preserves_async
    | apply preserves_then; intros ?
    | apply preserves_tryCatch; [|intros ?]
    | apply preserves_when
    | apply preserves_throw
    | apply preserves_ret
    | apply preserves_gets
    | apply preserves_await
    | apply preserves_construct
    | progress (unfold addItemToHashFieldByName, addItemToSetByName, removeItemByName,
                 retrieveAllItemsFromHashByName, existsAsync,
                 createRelationshipBetweenSubjectAndObject,
                 retrieveObjectOfRelationshipWithSubject,
                 retrieveSubjectOfRelationshipWithObject, removeAllRelationshipsToVector)
    | apply preserves_callDatastore; intros ? ? ?
    | apply preserves_callRelationshipDatastore; intros ? ? ?
    | apply preserves_Reflect_deleteProperty; intros ? ?
    | progress cbv zeta
    | case_match ].

Lemma boundIndices_setDatastore ds' m ds :
  datastore m = Some ds → indices ds' = indices ds →
  boundIndices (setDatastore ds' m) = boundIndices m.
Proof. unfold boundIndices. intros -> Hindices. simpl. by rewrite Hindices. Qed.

Section FrameProperties.
Context `{!Collaborators}.

(** X9.  The two authorization checks and [retrieveResourceByID] only
    read: however they settle, both stores and the caller's object are as
    they were before the call. *)
Theorem checks_and_retrieval_change_nothing (fuel : nat) (m m' : Machine) :
  (∀ userID resourceID answer,
     verifyThatUserCanRetrieveResource fuel userID resourceID m = Some (answer, m') → m' = m) ∧
  (∀ userID resourceID answer,
     verifyThatUserCanUpdateResource fuel userID resourceID m = Some (answer, m') → m' = m) ∧
  (∀ resourceType NucleusResourceModel resourceID originUserID outcome,
     retrieveResourceByID fuel resourceType NucleusResourceModel resourceID originUserID m
       = Some (outcome, m') → m' = m).
Proof.
  split; [|split].
  - intros userID resourceID answer. apply (preserves_verifyThatUserCanRetrieveResource id).
  - intros userID resourceID answer. apply (preserves_verifyThatUserCanUpdateResource id).
  - intros resourceType NucleusResourceModel resourceID originUserID outcome.
    revert m outcome m'. change (preserves id (retrieveResourceByID fuel resourceType
                                   NucleusResourceModel resourceID originUserID)).
    unfold retrieveResourceByID. frame; simpl; by apply setDatastore_same.
Qed.

(** X10.  [updatesResourceByID] never writes to the relationship store or
    to the per-type index, and [removeResourceByID] never writes to the
    per-type index or to the caller's object: an update cannot move a
    resource in the hierarchy, and the ID of a removed resource stays
    registered under its type. *)
Theorem update_and_removal_leave_the_index_alone (fuel : nat) (m m' : Machine) :
  (∀ firstISOTime secondISOTime resourceType NucleusResourceModel resourceID originUserID
     outcome,
     updatesResourceByID fuel firstISOTime secondISOTime resourceType NucleusResourceModel
       resourceID originUserID m = Some (outcome, m') →
     resourceRelationshipDatastore m' = resourceRelationshipDatastore m ∧
     boundIndices m' = boundIndices m) ∧
  (∀ resourceType resourceID originUserID outcome,
     removeResourceByID fuel resourceType resourceID originUserID m = Some (outcome, m') →
     boundIndices m' = boundIndices m ∧
     resourceAttributes m' = resourceAttributes m).
Proof.
  split.
  - intros firstISOTime secondISOTime resourceType NucleusResourceModel resourceID
      originUserID outcome Hrun. split.
    + revert m outcome m' Hrun.
      change (preserves resourceRelationshipDatastore
                (updatesResourceByID fuel firstISOTime secondISOTime resourceType
                   NucleusResourceModel resourceID originUserID)).
      unfold updatesResourceByID. frame; done.
    + revert m outcome m' Hrun.
      change (preserves boundIndices
                (updatesResourceByID fuel firstISOTime secondISOTime resourceType
                   NucleusResourceModel resourceID originUserID)).
      unfold updatesResourceByID. frame; try done; by eapply boundIndices_setDatastore.
  - intros resourceType resourceID originUserID outcome Hrun. split.
    + revert m outcome m' Hrun.
      change (preserves boundIndices
                (removeResourceByID fuel resourceType resourceID originUserID)).
      unfold removeResourceByID. frame; try done; by eapply boundIndices_setDatastore.
    + revert m outcome m' Hrun.
      change (preserves resourceAttributes
                (removeResourceByID fuel resourceType resourceID originUserID)).
      unfold removeResourceByID. frame; done.
Qed.

End FrameProperties.

(** ** Runs that fulfil, taken apart *)

Section MoreLifecycle.
Context `{!Collaborators}.

Lemma retrieveResourceByID_fulfilled fuel resourceType NucleusResourceModel resourceID
    originUserID m retrieved m' :
  retrieveResourceByID fuel resourceType NucleusResourceModel resourceID originUserID m
    = Some (Normal (Fulfilled retrieved), m') →
  ∃ type factory id user ds,
    resourceType = VStr type ∧ NucleusResourceModel = Some factory ∧
    resourceID = VStr id ∧ originUserID = VStr user ∧ user ≠ EmptyString ∧
    datastore m = Some ds ∧
    verifyThatUserCanRetrieveResource fuel user id m = Some (Normal (Fulfilled true), m) ∧
    is_Some (records ds !! generateItemKey type id) ∧
    factory (readFields (generateItemKey type id) ds) user VUndefined = inr retrieved ∧
    m' = m.
Proof.
  unfold retrieveResourceByID. intros Hrun. sync_inv Hrun.
  repeat match goal with
         | G : negb _ = false |- _ => apply negb_false_iff in G
         end.
  destruct (isString_true resourceType) as [type ->]; [done|].
  destruct (isFunction_true NucleusResourceModel) as [factory ->]; [done|].
  destruct (isString_true resourceID) as [id ->]; [done|].
  destruct (userID_valid originUserID) as (user & -> & Huser); [done|].
  destruct (isUndefined_false (datastore m)) as [ds Hds]; [done|].
  simpl stringOf in Hrun.
  apply bind_normal in Hrun as (can & m1 & Hverify & Hrun).
  apply await_bind_normal in Hverify.
  destruct (verifyThatUserCanRetrieveResource_inv _ _ _ _ _ _ Hverify) as [-> _].
  apply when_throw_bind in Hrun as [->%negb_false_iff Hrun].
  apply bind_normal in Hrun as (found & m2 & Hexists & Hrun).
  apply await_bind_normal, callDatastore_fulfilled in Hexists as (ds' & ? & _ & -> & ->).
  assert (ds' = ds) as -> by congruence.
  simpl in Hrun. rewrite (setDatastore_same _ _ Hds) in Hrun.
  apply when_throw_bind in Hrun as [Hfound%negb_false_iff Hrun].
  apply bool_decide_eq_true in Hfound.
  apply bind_normal in Hrun as (stored & m3 & Hread & Hrun).
  apply then_fulfilled in Hrun as (storedAttributes & -> & Hrun).
  apply callDatastore_normal in Hread as (ds' & ? & [(_ & Hstored & ->)|(e & _ & ? & _)]);
    [|done].
  assert (ds' = ds) as -> by congruence.
  simpl in Hstored, Hrun. injection Hstored as ->.
  rewrite (setDatastore_same _ _ Hds) in Hrun.
  apply bind_normal in Hrun as (built & m4 & Hbuilt & Hrun).
  apply construct_normal in Hbuilt as (-> & factory' & Hfactory & Hbuilt).
  injection Hfactory as <-. injection Hrun as <- <-.
  exists type, factory, id, user, ds. by repeat (split; [done|]).
Qed.

Lemma removeResourceByID_fulfilled fuel resourceType resourceID originUserID m removed m' :
  removeResourceByID fuel resourceType resourceID originUserID m
    = Some (Normal (Fulfilled removed), m') →
  ∃ type id user ds,
    resourceType = VStr type ∧ resourceID = VStr id ∧ originUserID = VStr user ∧
    user ≠ EmptyString ∧ datastore m = Some ds ∧
    verifyThatUserCanUpdateResource fuel user id m = Some (Normal (Fulfilled true), m) ∧
    is_Some (records ds !! generateItemKey type id) ∧
    datastoreFault ds ExistsAsync = None ∧
    removed = id ∧
    datastore m' = Some (removeRecord (generateItemKey type id) ds) ∧
    resourceRelationshipDatastore m'
      = removeEdgesTouching id <$> resourceRelationshipDatastore m ∧
    resourceAttributes m' = resourceAttributes m.
Proof.
  unfold removeResourceByID. intros Hrun. sync_inv Hrun.
  repeat match goal with
         | G : negb _ = false |- _ => apply negb_false_iff in G
         end.
  destruct (isString_true resourceType) as [type ->]; [done|].
  destruct (isString_true resourceID) as [id ->]; [done|].
  destruct (userID_valid originUserID) as (user & -> & Huser); [done|].
  destruct (isUndefined_false (datastore m)) as [ds Hds]; [done|].
  simpl stringOf in Hrun.
  apply bind_normal in Hrun as (can & m1 & Hverify & Hrun).
  apply await_bind_normal in Hverify.
  destruct (verifyThatUserCanUpdateResource_inv _ _ _ _ _ _ Hverify) as [-> _].
  apply when_throw_bind in Hrun as [->%negb_false_iff Hrun].
  apply bind_normal in Hrun as (found & m2 & Hexists & Hrun).
  apply await_bind_normal, callDatastore_fulfilled in Hexists as (ds' & ? & Hfault & -> & ->).
  assert (ds' = ds) as -> by congruence.
  simpl in Hrun. rewrite (setDatastore_same _ _ Hds) in Hrun.
  apply when_throw_bind in Hrun as [Hfound%negb_false_iff Hrun].
  apply bool_decide_eq_true in Hfound.
  apply bind_normal in Hrun as (recordRemoval & m3 & Hremove & Hrun).
  apply bind_normal in Hrun as (cleanup & m4 & Hcleanup & Hrun).
  injection Hrun as Hreturn <-.
  apply return_fulfilled in Hreturn as [<- [[] ->]].
  apply then_fulfilled in Hcleanup as ([] & Hall & Hcleanup).
  destruct recordRemoval as [[]|]; [|done]. clear Hall.
  apply callDatastore_fulfilled in Hremove as (ds' & ? & _ & _ & ->).
  assert (ds' = ds) as -> by congruence.
  exists type, id, user, ds. repeat (split; [done|]).
  destruct (resourceRelationshipDatastore m) as [rs|] eqn:Hrs; simpl in Hcleanup.
  - apply callRelationshipDatastore_fulfilled in Hcleanup as (rs' & Hrs' & _ & _ & ->).
    simpl in Hrs'. assert (rs' = rs) as -> by congruence. done.
  - injection Hcleanup as <-. simpl. by rewrite Hrs.
Qed.

End MoreLifecycle.

(** ** More on authorization *)

Lemma verifyThatUserCanUpdateResource_answer fuel userID resourceID m rs allowed m' :
  resourceRelationshipDatastore m = Some rs →
  verifyThatUserCanUpdateResource fuel userID resourceID m
    = Some (Normal (Fulfilled allowed), m') →
  ∃ B R,
    walk (subjectsOf (edges rs) IS_MEMBER) None fuel
      (head (objectsOf (edges rs) IS_MEMBER (Some userID))) = Some B ∧
    walk (objectsOf (edges rs) IS_MEMBER) None fuel (Some resourceID) = Some R ∧
    allowed = negb (bool_decide
                (length (nodeIDIntersectionList
                           (objectsOf (edges rs) IS_MEMBER (Some userID)) B R) = 0)).
Proof.
  intros Hrs. unfold verifyThatUserCanUpdateResource, async, tryCatch.
  unfold mbind, Sync_bind, gets, await, mret, Sync_ret, throw. rewrite Hrs.
  unfold retrieveObjectOfRelationshipWithSubject, callRelationshipDatastore. rewrite Hrs.
  rewrite (setRelationshipDatastore_same _ _ Hrs).
  destruct (relationshipFault rs RetrieveObjectOfRelationshipWithSubject) as [[e|e]|];
    [by intros [= <- <-]..|]. simpl.
  destruct (walkHierarchyTreeDownward fuel _ None m) as [[c2 m2]|] eqn:E2; [|done].
  apply walkHierarchyTreeDownward_inv in E2
    as (-> & [[? _]|(rs2 & B & ? & ? & HB & ->)]); simplify_eq.
  destruct (walkHierarchyTreeUpward fuel (Some resourceID) None m) as [[c3 m3]|] eqn:E3; [|done].
  apply walkHierarchyTreeUpward_inv in E3 as (-> & rs3 & R & ? & ? & HR & ->). simplify_eq.
  intros Hc. exists B, R. split; [done|]. split; [done|].
  by case_bool_decide; simplify_eq.
Qed.

Lemma verifyThatUserCanUpdateResource_run fuel userID resourceID m rs B R :
  resourceRelationshipDatastore m = Some rs →
  relationshipFault rs RetrieveObjectOfRelationshipWithSubject = None →
  relationshipFault rs RetrieveSubjectOfRelationshipWithObject = None →
  walk (subjectsOf (edges rs) IS_MEMBER) None fuel
    (head (objectsOf (edges rs) IS_MEMBER (Some userID))) = Some B →
  walk (objectsOf (edges rs) IS_MEMBER) None fuel (Some resourceID) = Some R →
  verifyThatUserCanUpdateResource fuel userID resourceID m =
    Some (Normal (Fulfilled (negb (bool_decide
            (length (nodeIDIntersectionList
                       (objectsOf (edges rs) IS_MEMBER (Some userID)) B R) = 0)))), m).
Proof.
  intros Hrs Hup Hdown HB HR.
  unfold verifyThatUserCanUpdateResource, async, tryCatch.
  unfold mbind, Sync_bind, gets, await, mret, Sync_ret. rewrite Hrs.
  unfold retrieveObjectOfRelationshipWithSubject, callRelationshipDatastore.
  rewrite Hrs, Hup. cbv beta iota zeta. rewrite (setRelationshipDatastore_same _ _ Hrs).
  rewrite (walkHierarchyTreeDownward_run _ _ _ _ _ _ Hrs Hdown HB).
  rewrite (walkHierarchyTreeUpward_run _ _ _ _ _ _ Hrs Hup HR).
  by case_bool_decide.
Qed.

(** A walk from a node whose read ends the branch returns nothing. *)
Lemma walk_returns_nothing read depth start nodeIDList :
  branchEnds (read start) = true →
  walk_returns read depth start nodeIDList → nodeIDList = [].
Proof.
  intros Hends (acc & started & Hres & Hsteps)%walk_returns_inv.
  unfold resume in Hres. rewrite Hends in Hres. injection Hres as <- <-.
  by apply walk_steps_done in Hsteps as [= ->].
Qed.

Lemma nodeIDIntersectionList_empty (A B R : list string) :
  (∀ x, (x ∈ A ∨ x ∈ B) → x ∉ R) →
  negb (bool_decide (length (nodeIDIntersectionList A B R) = 0)) = false.
Proof.
  intros Hnone. apply negb_false_iff, bool_decide_eq_true.
  destruct (decide (length (nodeIDIntersectionList A B R) = 0)) as [|Hne]; [done|].
  apply nodeIDIntersectionList_nonempty in Hne as (x & Hx & HR). by destruct (Hnone x Hx).
Qed.

Section RootProperties.
Context `{!Collaborators}.

(** X11.  With a relationship store bound, nothing next to the root can be
    reached through the hierarchy.  A resource with no parent, or with
    [SYSTEM] among its direct parents, has no ancestors to intersect with:
    neither check ever allows it, so no call retrieves, updates or removes
    it.  A user with no parent, or with [SYSTEM] among its direct parents,
    is never allowed to retrieve anything. *)
Theorem nodes_next_to_the_root_are_out_of_reach (fuel : nat) (userID resourceID : string)
    (m : Machine) (rs : RelationshipDatastore) :
  resourceRelationshipDatastore m = Some rs →
  branchEnds (objectsOf (edges rs) IS_MEMBER (Some resourceID)) = true ∨
  branchEnds (objectsOf (edges rs) IS_MEMBER (Some userID)) = true →
  (∀ m', verifyThatUserCanRetrieveResource fuel userID resourceID m
           ≠ Some (Normal (Fulfilled true), m')) ∧
  (∀ type factory retrieved m',
     retrieveResourceByID fuel type factory (VStr resourceID) (VStr userID) m
       ≠ Some (Normal (Fulfilled retrieved), m')) ∧
  (branchEnds (objectsOf (edges rs) IS_MEMBER (Some resourceID)) = true →
     (∀ m', verifyThatUserCanUpdateResource fuel userID resourceID m
              ≠ Some (Normal (Fulfilled true), m')) ∧
     (∀ firstISOTime secondISOTime type factory updated m',
        updatesResourceByID fuel firstISOTime secondISOTime type factory (VStr resourceID)
          (VStr userID) m ≠ Some (Normal (Fulfilled updated), m')) ∧
     (∀ type removed m',
        removeResourceByID fuel type (VStr resourceID) (VStr userID) m
          ≠ Some (Normal (Fulfilled removed), m'))).
Proof.
  intros Hrs Hroot.
  assert (Hretrieve : ∀ m', verifyThatUserCanRetrieveResource fuel userID resourceID m
                              ≠ Some (Normal (Fulfilled true), m')).
  { intros m' Hrun.
    apply verifyThatUserCanRetrieveResource_inv in Hrun
      as (-> & [[? _]|(rs' & A & B & R & ? & HA & HB & HR & [= Hallowed])]); [congruence|].
    assert (rs' = rs) as -> by congruence.
    apply walk_returns_of_walk in HA, HB, HR.
    rewrite nodeIDIntersectionList_empty in Hallowed; [done|].
    destruct Hroot as [Hresource|Huser].
    - apply (walk_returns_nothing _ _ _ _ Hresource) in HR as ->.
      intros x _. apply not_elem_of_nil.
    - apply (walk_returns_nothing _ _ _ _ Huser) in HA as ->.
      apply (walk_returns_nothing (subjectsOf (edges rs) IS_MEMBER) None None B eq_refl)
        in HB as ->.
      intros x [[]%elem_of_nil|[]%elem_of_nil]. }
  split; [done|]. split.
  - intros type factory retrieved m'
      (type' & factory' & id & user & ds & _ & _ & [= <-] & [= <-] & _ & _ & Hverify & _)
      %retrieveResourceByID_fulfilled.
    by apply Hretrieve in Hverify.
  - intros Hresource.
    assert (Hupdate : ∀ m', verifyThatUserCanUpdateResource fuel userID resourceID m
                              ≠ Some (Normal (Fulfilled true), m')).
    { intros m' Hrun.
      apply (verifyThatUserCanUpdateResource_answer _ _ _ _ _ _ _ Hrs) in Hrun
        as (B & R & _ & HR & Hallowed).
      apply walk_returns_of_walk, (walk_returns_nothing _ _ _ _ Hresource) in HR as ->.
      rewrite nodeIDIntersectionList_empty in Hallowed; [done|].
      intros x _. apply not_elem_of_nil. }
    split; [done|]. split.
    + intros firstISOTime secondISOTime type factory updated m'
        (type' & factory' & id & user & ds & patch & built & _ & _ & [= <-] & [= <-] & _ & _ &
           Hverify & _)%updatesResourceByID_fulfilled.
      by apply Hupdate in Hverify.
    + intros type removed m'
        (type' & id & user & ds & _ & [= <-] & [= <-] & _ & _ & Hverify & _)
        %removeResourceByID_fulfilled.
      by apply Hupdate in Hverify.
Qed.

End RootProperties.

(** ** Guards *)

Section Guards.
Context `{!Collaborators}.

(** X12.  Every operation checks its arguments before anything else.  A
    call with a resource type or resource ID that is not a string, a model
    that is not a function, attributes that are not an object, or an origin
    user ID that is not a non-empty string rejects with an invalid-argument
    error; no store need be bound, none is called, and the caller's object
    is not touched. *)
Theorem invalid_arguments_reject_before_anything_else (fuel : nat)
    (firstISOTime secondISOTime : string) (resourceType resourceID originUserID : value)
    (NucleusResourceModel : option Model) (parentNodeID : option string) (m : Machine) :
  let invalidUser := negb (isString originUserID) || isEmpty originUserID in
  (isString resourceType = false ∨ isFunction NucleusResourceModel = false ∨
   isObject (resourceAttributes m) = false ∨ invalidUser = true →
   rejectedUntouched UnexpectedValueTypeNucleusError m
     (createResource resourceType NucleusResourceModel originUserID parentNodeID m)) ∧
  (isString resourceType = false ∨ isString resourceID = false ∨ invalidUser = true →
   rejectedUntouched UnexpectedValueTypeNucleusError m
     (removeResourceByID fuel resourceType resourceID originUserID m)) ∧
  (isString resourceType = false ∨ isFunction NucleusResourceModel = false ∨
   isString resourceID = false ∨ invalidUser = true →
   rejectedUntouched UnexpectedValueTypeNucleusError m
     (retrieveResourceByID fuel resourceType NucleusResourceModel resourceID originUserID m)) ∧
  (isString resourceType = false ∨ isFunction NucleusResourceModel = false ∨
   isString resourceID = false ∨ isObject (resourceAttributes m) = false ∨
   invalidUser = true →
   rejectedUntouched UnexpectedValueTypeNucleusError m
     (updatesResourceByID fuel firstISOTime secondISOTime resourceType NucleusResourceModel
        resourceID originUserID m)).
Proof.
  intros invalidUser. unfold rejectedUntouched. subst invalidUser.
  unfold createResource, removeResourceByID, retrieveResourceByID, updatesResourceByID.
  unfold async, tryCatch, when. unfold mbind, Sync_bind, gets, throw, mret, Sync_ret.
  repeat split; intros Hinvalid; simpl;
    repeat match goal with
           | |- context [if negb ?b || ?c then _ else _] =>
               destruct (negb b || c) eqn:?; simpl; [by eexists|]
           | |- context [if negb ?b then _ else _] =>
               destruct b eqn:?; simpl; [|by eexists]
           end;
    exfalso; intuition congruence.
Qed.

(** X13.  With valid arguments and no record store bound, every operation
    rejects with the undefined-context error "No datastore is provided."
    before it consults the hierarchy: the relationship store is not read,
    and nothing is changed. *)
Theorem no_datastore_rejects_before_the_hierarchy_is_consulted (fuel : nat)
    (firstISOTime secondISOTime : string) (type id user : string) (factory : Model)
    (parentNodeID : option string) (m : Machine) :
  user ≠ EmptyString →
  datastore m = None →
  errorClassOf noDatastoreIsProvided = UndefinedContextNucleusError ∧
  removeResourceByID fuel (VStr type) (VStr id) (VStr user) m
    = Some (Normal (RejectedWith noDatastoreIsProvided), m) ∧
  retrieveResourceByID fuel (VStr type) (Some factory) (VStr id) (VStr user) m
    = Some (Normal (RejectedWith noDatastoreIsProvided), m) ∧
  (isObject (resourceAttributes m) = true →
     createResource (VStr type) (Some factory) (VStr user) parentNodeID m
       = Some (Normal (RejectedWith noDatastoreIsProvided), m) ∧
     updatesResourceByID fuel firstISOTime secondISOTime (VStr type) (Some factory) (VStr id)
       (VStr user) m = Some (Normal (RejectedWith noDatastoreIsProvided), m)).
Proof.
  intros Huser Hds.
  assert (Hempty : bool_decide (user = EmptyString) = false) by by apply bool_decide_eq_false.
  unfold createResource, removeResourceByID, retrieveResourceByID, updatesResourceByID.
  unfold async, tryCatch, when. unfold mbind, Sync_bind, gets, throw, mret, Sync_ret.
  simpl. rewrite Hempty, Hds. simpl.
  split; [done|]. split; [done|]. split; [done|]. intros ->.
  by repeat (progress (simpl; rewrite ?Hds)).
Qed.

(** X14.  Authorization comes before the existence check.  When the check
    denies, the call rejects with the unauthorized-action error for its
    action, whether or not the record exists and whether or not the record
    store works; nothing is read from or written to the record store, and
    the caller's patch keeps its reserved keys. *)
Theorem denied_calls_reject_before_the_record_is_looked_up (fuel : nat)
    (firstISOTime secondISOTime : string) (type id user : string) (factory : Model)
    (m : Machine) :
  user ≠ EmptyString →
  is_Some (datastore m) →
  (verifyThatUserCanUpdateResource fuel user id m = Some (Normal (Fulfilled false), m) →
     removeResourceByID fuel (VStr type) (VStr id) (VStr user) m
       = Some (Normal (RejectedWith (notAuthorizedTo "remove" user type id)), m) ∧
     (isObject (resourceAttributes m) = true →
        updatesResourceByID fuel firstISOTime secondISOTime (VStr type) (Some factory)
          (VStr id) (VStr user) m
        = Some (Normal (RejectedWith (notAuthorizedTo "update" user type id)), m))) ∧
  (verifyThatUserCanRetrieveResource fuel user id m = Some (Normal (Fulfilled false), m) →
     retrieveResourceByID fuel (VStr type) (Some factory) (VStr id) (VStr user) m
       = Some (Normal (RejectedWith (notAuthorizedTo "retrieve" user type id)), m)) ∧
  (∀ action, errorClassOf (notAuthorizedTo action user type id)
             = UnauthorizedActionNucleusError).
Proof.
  intros Huser [ds Hds].
  assert (Hempty : bool_decide (user = EmptyString) = false) by by apply bool_decide_eq_false.
  unfold removeResourceByID, retrieveResourceByID, updatesResourceByID.
  unfold async, tryCatch, when. unfold mbind, Sync_bind, gets, throw, await, mret, Sync_ret.
  split; [|split; [|done]].
  - intros Hverify. split; [|intros Hobject];
      by repeat (progress (simpl; rewrite ?Hempty, ?Hds, ?Hverify, ?Hobject)).
  - intros Hverify. by repeat (progress (simpl; rewrite ?Hempty, ?Hds, ?Hverify)).
Qed.

(** X15.  An authorized call on a record that the store does not hold
    rejects with the undefined-context error naming the type and the ID,
    and changes nothing. *)
Theorem missing_records_reject_untouched (fuel : nat)
    (firstISOTime secondISOTime : string) (type id user : string) (factory : Model)
    (m : Machine) (ds : Datastore) :
  user ≠ EmptyString →
  datastore m = Some ds →
  datastoreFault ds ExistsAsync = None →
  records ds !! generateItemKey type id = None →
  (verifyThatUserCanUpdateResource fuel user id m = Some (Normal (Fulfilled true), m) →
     removeResourceByID fuel (VStr type) (VStr id) (VStr user) m
       = Some (Normal (RejectedWith (doesNotExist type id)), m) ∧
     (isObject (resourceAttributes m) = true →
        updatesResourceByID fuel firstISOTime secondISOTime (VStr type) (Some factory)
          (VStr id) (VStr user) m
        = Some (Normal (RejectedWith (doesNotExist type id)), m))) ∧
  (verifyThatUserCanRetrieveResource fuel user id m = Some (Normal (Fulfilled true), m) →
     retrieveResourceByID fuel (VStr type) (Some factory) (VStr id) (VStr user) m
       = Some (Normal (RejectedWith (doesNotExist type id)), m)) ∧
  errorClassOf (doesNotExist type id) = UndefinedContextNucleusError.
Proof.
  intros Huser Hds Hexists Hnone.
  assert (Hempty : bool_decide (user = EmptyString) = false) by by apply bool_decide_eq_false.
  assert (Hfound : recordExists (generateItemKey type id) ds = false).
  { unfold recordExists. apply bool_decide_eq_false. rewrite Hnone. by intros [? ?]. }
  destruct m as [store relationships passed]. simpl in Hds. subst store.
  unfold removeResourceByID, retrieveResourceByID, updatesResourceByID.
  unfold async, tryCatch, when, existsAsync, callDatastore.
  unfold mbind, Sync_bind, gets, throw, await, mret, Sync_ret.
  split; [|split; [|done]].
  - intros Hverify. split; [|simpl; intros Hobject];
      by repeat (progress (simpl; rewrite ?Hempty, ?Hverify, ?Hobject, ?Hexists, ?Hfound)).
  - intros Hverify.
    by repeat (progress (simpl; rewrite ?Hempty, ?Hverify, ?Hexists, ?Hfound)).
Qed.

(** X16.  A retrieval that passes its guards hands the factory the stored
    fields as they are, the requesting user as the acting user and no
    reserved ID, and settles as the factory decides: it fulfils with the
    resource built, or rejects with the factory's own error.  Nothing is
    changed. *)
Theorem retrieval_rebuilds_the_stored_record (fuel : nat) (type id user : string)
    (factory : Model) (m : Machine) (ds : Datastore) :
  user ≠ EmptyString →
  datastore m = Some ds →
  verifyThatUserCanRetrieveResource fuel user id m = Some (Normal (Fulfilled true), m) →
  datastoreFault ds ExistsAsync = None →
  is_Some (records ds !! generateItemKey type id) →
  datastoreFault ds RetrieveAllItemsFromHashByName = None →
  retrieveResourceByID fuel (VStr type) (Some factory) (VStr id) (VStr user) m
    = Some (Normal (match factory (readFields (generateItemKey type id) ds) user VUndefined with
                    | inr retrieved => Fulfilled retrieved
                    | inl e => RejectedWith e
                    end), m).
Proof.
  intros Huser Hds Hverify Hexists Hfound Hread.
  assert (Hempty : bool_decide (user = EmptyString) = false) by by apply bool_decide_eq_false.
  pose proof (bool_decide_eq_true_2 _ Hfound) as Hfound'.
  destruct m as [store relationships passed]. simpl in Hds. subst store.
  unfold retrieveResourceByID, async, tryCatch, when, existsAsync,
    retrieveAllItemsFromHashByName, callDatastore, then_, async, tryCatch, construct,
    recordExists.
  unfold mbind, Sync_bind, gets, await, mret, Sync_ret, throw.
  repeat (progress (simpl; rewrite ?Hempty, ?Hverify, ?Hexists, ?Hread, ?Hfound')).
  by destruct (factory _ _ _).
Qed.

End Guards.

(** ** Creation *)

Section Creation.
Context `{!Collaborators}.

(** Run [createResource] past its guards on a state taken apart. *)
Ltac run_create :=
  unfold createResource, async, tryCatch, when, retrieveObjectOfRelationshipWithSubject,
    createRelationshipBetweenSubjectAndObject, addItemToHashFieldByName, addItemToSetByName,
    callDatastore, callRelationshipDatastore, then_, async, tryCatch, construct,
    Reflect_deleteProperty;
  unfold mbind, Sync_bind, gets, await, mret, Sync_ret, throw.

Lemma createResource_fulfils type user parent factory parentNodeID m ds passed built :
  user ≠ EmptyString →
  datastore m = Some ds →
  resourceAttributes m = VObj passed →
  (falsy parentNodeID = true →
   ∀ rs, resourceRelationshipDatastore m = Some rs →
         relationshipFault rs RetrieveObjectOfRelationshipWithSubject = None) →
  resolvedParent m user parentNodeID = Some parent →
  parent ≠ EmptyString →
  factory (stripReserved passed) user (getProperty passed "ID") = inr built →
  datastoreFault ds AddItemToHashFieldByName = None →
  datastoreFault ds AddItemToSetByName = None →
  (∀ rs, resourceRelationshipDatastore m = Some rs →
         relationshipFault rs CreateRelationshipBetweenSubjectAndObject = None) →
  ∃ created m',
    createResource (VStr type) (Some factory) (VStr user) parentNodeID m
      = Some (Normal (Fulfilled created), m').
Proof.
  intros Huser Hds Hpassed Hreads Hresolved Hparent Hbuilt Hrecord Hindex Hedges.
  assert (Hempty : bool_decide (user = EmptyString) = false) by by apply bool_decide_eq_false.
  assert (Htruthy : bool_decide (parent = EmptyString) = false)
    by by apply bool_decide_eq_false.
  destruct m as [store relationships attributes]. simpl in Hds, Hpassed. subst store attributes.
  unfold resolvedParent, firstMemberObject in Hresolved. simpl in Hresolved, Hreads, Hedges.
  unfold stripReserved in Hbuilt.
  run_create.
  destruct relationships as [rs|]; [specialize (Hedges rs eq_refl)|];
    (destruct (falsy parentNodeID) eqn:Hfalsy;
       [try specialize (Hreads eq_refl rs eq_refl)|rewrite Hresolved in *]).
  all: repeat (progress (simpl; rewrite ?Hempty, ?Hfalsy, ?Hreads, ?Hresolved, ?Htruthy,
                           ?Hbuilt, ?Hrecord, ?Hindex, ?Hedges)).
  all: try done.
  all: by eexists _, _.
Qed.

(** X17.  A creation that passes its guards, is handed a resource by the
    factory and meets no store failure fulfils with that resource, the
    origin user as author and the resolved parent, which is the explicit
    argument whenever there is one: the user's own membership is then not
    even read.  It merges the resource's fields into the record under the
    resource's own key without asking whether one exists, adds the ID to
    the index of its type, and, when a relationship store is bound, appends
    the [is-member] edge to the parent and the [is-authored] edge to the
    user, in that order. *)
Theorem creation_persists_record_index_and_edges (type user parent : string)
    (factory : Model) (parentNodeID : option string) (m : Machine) (ds : Datastore)
    (passed : gmap string value) (built : Resource) :
  user ≠ EmptyString →
  datastore m = Some ds →
  resourceAttributes m = VObj passed →
  (falsy parentNodeID = true →
   ∀ rs, resourceRelationshipDatastore m = Some rs →
         relationshipFault rs RetrieveObjectOfRelationshipWithSubject = None) →
  resolvedParent m user parentNodeID = Some parent →
  parent ≠ EmptyString →
  factory (stripReserved passed) user (getProperty passed "ID") = inr built →
  datastoreFault ds AddItemToHashFieldByName = None →
  datastoreFault ds AddItemToSetByName = None →
  (∀ rs, resourceRelationshipDatastore m = Some rs →
         relationshipFault rs CreateRelationshipBetweenSubjectAndObject = None) →
  ∃ m',
    createResource (VStr type) (Some factory) (VStr user) parentNodeID m
      = Some (Normal (Fulfilled {| resource := built; resourceAuthorID := user;
                                   resourceMemberNodeID := parent |}), m') ∧
    (falsy parentNodeID = false → parentNodeID = Some parent) ∧
    resourceAttributes m' = VObj (stripReserved passed) ∧
    (∃ ds', datastore m' = Some ds' ∧
       readFields (generateOwnItemKey built) ds'
         = resourceItem built ∪ readFields (generateOwnItemKey built) ds ∧
       recordExists (generateOwnItemKey built) ds' = true ∧
       ID built ∈ default ∅ (indices ds' !! (RESOURCE_ID_BY_TYPE_TABLE_NAME, type)) ∧
       (∀ other, other ≠ generateOwnItemKey built →
                 records ds' !! other = records ds !! other)) ∧
    match resourceRelationshipDatastore m with
    | None => resourceRelationshipDatastore m' = None
    | Some rs =>
        ∃ rs', resourceRelationshipDatastore m' = Some rs' ∧
          edges rs' = edges rs ++ [ Edge (ID built) IS_MEMBER parent;
                                    Edge (ID built) IS_AUTHORED user ]
    end.
Proof.
  intros Huser Hds Hpassed Hreads Hresolved Hparent Hbuilt Hrecord Hindex Hedges.
  destruct (createResource_fulfils type user parent factory parentNodeID m ds passed built)
    as (created & m' & Hrun); [done..|].
  exists m'.
  destruct (createResource_fulfilled _ _ _ _ _ _ _ Hrun)
    as (type' & factory' & user' & ds0 & passed' & parent' & built' & [= <-] & [= <-] &
        [= <-] & _ & Hds0 & Hpassed' & _ & Hparent' & Hbuilt' & -> & Hattributes & Hds' & Hrs').
  assert (ds0 = ds) as -> by congruence.
  assert (passed' = passed) as -> by congruence.
  assert (built' = built) as -> by congruence.
  assert (parent' = parent) as ->.
  { unfold resolvedParent, firstMemberObject in Hresolved.
    destruct (falsy parentNodeID); [|congruence].
    destruct Hparent' as (rs & Hrs & Hhead). rewrite Hrs in Hresolved. congruence. }
  split; [done|]. split.
  { intros Hexplicit. unfold resolvedParent in Hresolved. by rewrite Hexplicit in Hresolved. }
  split; [done|]. split.
  - eexists. split; [exact Hds'|]. split; [|split; [|split]].
    + unfold readFields. simpl. by rewrite lookup_insert_eq.
    + unfold recordExists. apply bool_decide_eq_true. simpl. by rewrite lookup_insert_eq.
    + simpl. rewrite lookup_insert_eq. simpl. set_solver.
    + intros other Hother. simpl. by rewrite lookup_insert_ne.
  - destruct (resourceRelationshipDatastore m) as [rs|]; simpl in Hrs'; [|done].
    eexists. split; [exact Hrs'|]. simpl. by rewrite <- app_assoc.
Qed.

(** X18.  The writes of a creation are not undone.  When a store call
    rejects, the call rejects with its error and what the other calls wrote
    stays: an indexed ID with no record when the record write fails, a
    record that is not indexed when the index write fails, and a record
    with no edges when the relationship store fails.  The caller's object
    has lost its reserved keys in every case. *)
Theorem creation_failure_leaves_what_was_written (type user parent : string)
    (factory : Model) (parentNodeID : option string) (m : Machine) (ds : Datastore)
    (passed : gmap string value) (built : Resource) (cause : error) :
  user ≠ EmptyString →
  datastore m = Some ds →
  resourceAttributes m = VObj passed →
  (falsy parentNodeID = true →
   ∀ rs, resourceRelationshipDatastore m = Some rs →
         relationshipFault rs RetrieveObjectOfRelationshipWithSubject = None) →
  resolvedParent m user parentNodeID = Some parent →
  parent ≠ EmptyString →
  factory (stripReserved passed) user (getProperty passed "ID") = inr built →
  let stripped := setResourceAttributes (VObj (stripReserved passed)) m in
  let recordWritten := writeFields (generateOwnItemKey built) (resourceItem built) ds in
  (datastoreFault ds AddItemToHashFieldByName = Some (Rejects cause) →
   datastoreFault ds AddItemToSetByName = None →
   createResource (VStr type) (Some factory) (VStr user) parentNodeID m
     = Some (Normal (RejectedWith cause),
             setDatastore (addMember RESOURCE_ID_BY_TYPE_TABLE_NAME type (ID built) ds)
               stripped)) ∧
  (datastoreFault ds AddItemToHashFieldByName = None →
   datastoreFault ds AddItemToSetByName = Some (Rejects cause) →
   createResource (VStr type) (Some factory) (VStr user) parentNodeID m
     = Some (Normal (RejectedWith cause), setDatastore recordWritten stripped)) ∧
  (datastoreFault ds AddItemToHashFieldByName = None →
   datastoreFault ds AddItemToSetByName = None →
   ∀ rs, resourceRelationshipDatastore m = Some rs →
     relationshipFault rs CreateRelationshipBetweenSubjectAndObject = Some (Rejects cause) →
     createResource (VStr type) (Some factory) (VStr user) parentNodeID m
       = Some (Normal (RejectedWith cause),
               setDatastore
                 (addMember RESOURCE_ID_BY_TYPE_TABLE_NAME type (ID built) recordWritten)
                 stripped)).
Proof.
  intros Huser Hds Hpassed Hreads Hresolved Hparent Hbuilt stripped recordWritten.
  assert (Hempty : bool_decide (user = EmptyString) = false) by by apply bool_decide_eq_false.
  assert (Htruthy : bool_decide (parent = EmptyString) = false)
    by by apply bool_decide_eq_false.
  subst stripped recordWritten.
  destruct m as [store relationships attributes]. simpl in Hds, Hpassed. subst store attributes.
  unfold resolvedParent, firstMemberObject in Hresolved. simpl in Hresolved, Hreads.
  unfold stripReserved in *.
  run_create.
  split; [|split];
    [intros Hrecord Hindex; destruct relationships as [rs|]..
    |intros Hrecord Hindex rs Hrs Hedges; simpl in Hrs; subst relationships].
  all: destruct (falsy parentNodeID) eqn:Hfalsy; simpl in Hresolved; try done.
  all: try specialize (Hreads eq_refl _ eq_refl).
  all: try subst parentNodeID.
  all: by repeat (progress (simpl; rewrite ?Hempty, ?Hfalsy, ?Hreads, ?Hresolved, ?Htruthy,
                              ?Hbuilt, ?Hrecord, ?Hindex, ?Hedges)).
Qed.

(** X19.  The factory can turn the attributes down.  [createResource]
    constructs inside its [try] block, so the factory's error comes back
    wrapped in a [NucleusError] that names the resource type and carries the
    error as its cause; [updatesResourceByID] constructs inside a [then]
    callback and rejects with the factory's error as it is.  Neither has
    written to a store by then, but both have already stripped the reserved
    keys from the caller's object. *)
Theorem factory_failure_is_wrapped_by_creation_only (fuel : nat)
    (firstISOTime secondISOTime : string) (type id user parent : string) (factory : Model)
    (parentNodeID : option string) (m : Machine) (ds : Datastore)
    (passed : gmap string value) (cause : error) :
  user ≠ EmptyString →
  datastore m = Some ds →
  resourceAttributes m = VObj passed →
  let stripped := setResourceAttributes (VObj (stripReserved passed)) m in
  ((falsy parentNodeID = true →
    ∀ rs, resourceRelationshipDatastore m = Some rs →
          relationshipFault rs RetrieveObjectOfRelationshipWithSubject = None) →
   resolvedParent m user parentNodeID = Some parent →
   parent ≠ EmptyString →
   factory (stripReserved passed) user (getProperty passed "ID") = inl cause →
   createResource (VStr type) (Some factory) (VStr user) parentNodeID m
     = Some (Normal (RejectedWith (couldNotCreate type cause)), stripped) ∧
   errorClassOf (couldNotCreate type cause) = NucleusError ∧
   errorCause (couldNotCreate type cause) = Some cause) ∧
  (verifyThatUserCanUpdateResource fuel user id m = Some (Normal (Fulfilled true), m) →
   datastoreFault ds ExistsAsync = None →
   is_Some (records ds !! generateItemKey type id) →
   datastoreFault ds RetrieveAllItemsFromHashByName = None →
   factory (mergedAttributes firstISOTime (readFields (generateItemKey type id) ds) passed)
     user VUndefined = inl cause →
   updatesResourceByID fuel firstISOTime secondISOTime (VStr type) (Some factory) (VStr id)
     (VStr user) m = Some (Normal (RejectedWith cause), stripped)).
Proof.
  intros Huser Hds Hpassed stripped.
  assert (Hempty : bool_decide (user = EmptyString) = false) by by apply bool_decide_eq_false.
  subst stripped.
  destruct m as [store relationships attributes]. simpl in Hds, Hpassed. subst store attributes.
  split.
  - intros Hreads Hresolved Hparent Hbuilt. split; [|done].
    assert (Htruthy : bool_decide (parent = EmptyString) = false)
      by by apply bool_decide_eq_false.
    unfold resolvedParent, firstMemberObject in Hresolved. simpl in Hresolved, Hreads.
    unfold stripReserved in *.
    run_create.
    destruct relationships as [rs|];
      (destruct (falsy parentNodeID) eqn:Hfalsy; simpl in Hresolved; try done).
    all: try specialize (Hreads eq_refl _ eq_refl).
    all: try subst parentNodeID.
    all: by repeat (progress (simpl; rewrite ?Hempty, ?Hfalsy, ?Hreads, ?Hresolved, ?Htruthy,
                                ?Hbuilt)).
  - intros Hverify Hexists Hfound Hread Hbuilt.
    pose proof (bool_decide_eq_true_2 _ Hfound) as Hfound'.
    unfold mergedAttributes, stripReserved in *.
    unfold updatesResourceByID, async, tryCatch, when, existsAsync,
      retrieveAllItemsFromHashByName, addItemToHashFieldByName, callDatastore, then_, async,
      tryCatch, construct, Reflect_deleteProperty, recordExists.
    unfold mbind, Sync_bind, gets, await, mret, Sync_ret, throw.
    by repeat (progress (simpl; rewrite ?Hempty, ?Hverify, ?Hexists, ?Hread, ?Hfound',
                           ?Hbuilt)).
Qed.

End Creation.

(** ** How the operations compose *)

Lemma acyclicHierarchy_filter (P : edge → Prop) `{!∀ e, Decision (P e)} (g : list edge) :
  acyclicHierarchy g → acyclicHierarchy (filter P g).
Proof.
  intros [rank Hrank]. exists rank. intros e [_ He]%list_elem_of_filter. by apply Hrank.
Qed.

(** Once the fuel covers every branch the retrieve check answers, and its
    answer is the one it gives for whatever the three walks return. *)
Lemma verifyThatUserCanRetrieveResource_returns userID resourceID m rs :
  resourceRelationshipDatastore m = Some rs →
  acyclicHierarchy (edges rs) →
  relationshipFault rs RetrieveObjectOfRelationshipWithSubject = None →
  relationshipFault rs RetrieveSubjectOfRelationshipWithObject = None →
  ∃ fuel0 A B R,
    walk_returns (objectsOf (edges rs) IS_MEMBER) None (Some userID) A ∧
    walk_returns (subjectsOf (edges rs) IS_MEMBER) None (head A) B ∧
    walk_returns (objectsOf (edges rs) IS_MEMBER) None (Some resourceID) R ∧
    ∀ fuel, fuel0 ≤ fuel →
      verifyThatUserCanRetrieveResource fuel userID resourceID m =
        Some (Normal (Fulfilled (negb (bool_decide
                (length (nodeIDIntersectionList A B R) = 0)))), m).
Proof.
  intros Hrs Hacyclic Hup Hdown.
  destruct (store_walks_terminate (edges rs) None Hacyclic (Some userID)) as [f1 H1].
  destruct (H1 f1 (le_n _)) as [[A HA] _].
  destruct (store_walks_terminate (edges rs) None Hacyclic (head A)) as [f2 H2].
  destruct (H2 f2 (le_n _)) as [_ [B HB]].
  destruct (store_walks_terminate (edges rs) None Hacyclic (Some resourceID)) as [f3 H3].
  destruct (H3 f3 (le_n _)) as [[R HR] _].
  exists (f1 + f2 + f3), A, B, R.
  repeat (split; [by eapply walk_returns_of_walk|]).
  intros fuel Hfuel. eapply verifyThatUserCanRetrieveResource_run; eauto.
  - eapply walk_more_fuel; [exact HA|lia].
  - eapply walk_more_fuel; [exact HB|lia].
  - eapply walk_more_fuel; [exact HR|lia].
Qed.

Lemma verifyThatUserCanUpdateResource_returns userID resourceID m rs :
  resourceRelationshipDatastore m = Some rs →
  acyclicHierarchy (edges rs) →
  relationshipFault rs RetrieveObjectOfRelationshipWithSubject = None →
  relationshipFault rs RetrieveSubjectOfRelationshipWithObject = None →
  ∃ fuel0 B R,
    walk_returns (subjectsOf (edges rs) IS_MEMBER) None
      (head (objectsOf (edges rs) IS_MEMBER (Some userID))) B ∧
    walk_returns (objectsOf (edges rs) IS_MEMBER) None (Some resourceID) R ∧
    ∀ fuel, fuel0 ≤ fuel →
      verifyThatUserCanUpdateResource fuel userID resourceID m =
        Some (Normal (Fulfilled (negb (bool_decide
                (length (nodeIDIntersectionList
                           (objectsOf (edges rs) IS_MEMBER (Some userID)) B R) = 0)))), m).
Proof.
  intros Hrs Hacyclic Hup Hdown.
  destruct (store_walks_terminate (edges rs) None Hacyclic
              (head (objectsOf (edges rs) IS_MEMBER (Some userID)))) as [f2 H2].
  destruct (H2 f2 (le_n _)) as [_ [B HB]].
  destruct (store_walks_terminate (edges rs) None Hacyclic (Some resourceID)) as [f3 H3].
  destruct (H3 f3 (le_n _)) as [[R HR] _].
  exists (f2 + f3), B, R.
  repeat (split; [by eapply walk_returns_of_walk|]).
  intros fuel Hfuel. eapply verifyThatUserCanUpdateResource_run; eauto.
  - eapply walk_more_fuel; [exact HB|lia].
  - eapply walk_more_fuel; [exact HR|lia].
Qed.

Lemma mergedAttributes_lookup firstISOTime (stale patch : gmap string value) field :
  mergedAttributes firstISOTime stale patch !! field =
    if bool_decide (field = "meta")
    then Some (VObj (ownEnumerable (getProperty stale "meta")
                       ∪ {["updatedISOTime" := VStr firstISOTime]}))
    else if bool_decide (field = "ID") then stale !! "ID"
    else match patch !! field with
         | Some v => Some v
         | None => stale !! field
         end.
Proof.
  unfold mergedAttributes, Object_assign. simpl.
  rewrite lookup_union, stripReserved_lookup, lookup_union, lookup_empty.
  repeat case_bool_decide; subst; try naive_solver.
  - rewrite lookup_insert_eq. done.
  - rewrite lookup_insert_ne by done. simpl. by destruct (stale !! "ID").
  - rewrite lookup_insert_ne by done.
    destruct (patch !! field), (stale !! field); done.
Qed.

Section Composition.
Context `{!Collaborators}.

(** X20.  What an update hands the factory: the stored fields overlaid by
    the patch, where the patch wins field by field except for the two
    reserved keys.  The ID is the stored one, and the meta block is the
    stored one, in which the first clock reading fills [updatedISOTime]
    only when the stored block has none. *)
Theorem update_builds_from_stored_fields_overlaid_by_the_patch (fuel : nat)
    (firstISOTime secondISOTime : string) (resourceType : value)
    (NucleusResourceModel : option Model) (resourceID originUserID : value)
    (m m' : Machine) (updated : Resource) :
  updatesResourceByID fuel firstISOTime secondISOTime resourceType NucleusResourceModel
    resourceID originUserID m = Some (Normal (Fulfilled updated), m') →
  ∃ type id user ds patch factory built input block,
    resourceType = VStr type ∧ resourceID = VStr id ∧ originUserID = VStr user ∧
    datastore m = Some ds ∧ resourceAttributes m = VObj patch ∧
    NucleusResourceModel = Some factory ∧
    factory input user VUndefined = inr built ∧
    updated = setUpdatedISOTime secondISOTime built ∧
    let stored := readFields (generateItemKey type id) ds in
    let storedMeta := ownEnumerable (getProperty stored "meta") in
    (∀ field, field ≠ "ID" → field ≠ "meta" →
       input !! field = match patch !! field with
                        | Some v => Some v
                        | None => stored !! field
                        end) ∧
    input !! "ID" = stored !! "ID" ∧
    input !! "meta" = Some (VObj block) ∧
    (∀ key v, storedMeta !! key = Some v → block !! key = Some v) ∧
    (∀ key, key ≠ "updatedISOTime" → block !! key = storedMeta !! key) ∧
    (storedMeta !! "updatedISOTime" = None →
     block !! "updatedISOTime" = Some (VStr firstISOTime)).
Proof.
  intros (type & factory & id & user & ds & patch & built & -> & -> & -> & -> & Hds & Hpatch &
            _ & _ & Hbuilt & -> & _)%updatesResourceByID_fulfilled.
  exists type, id, user, ds, patch, factory, built.
  exists (mergedAttributes firstISOTime (readFields (generateItemKey type id) ds) patch).
  eexists. repeat (split; [done|]). cbv zeta.
  split; [|split; [|split; [|split; [|split]]]].
  - intros field HID Hmeta. rewrite mergedAttributes_lookup.
    by rewrite !bool_decide_eq_false_2 by done.
  - rewrite mergedAttributes_lookup. by rewrite bool_decide_eq_false_2 by done.
  - by rewrite mergedAttributes_lookup.
  - intros key v Hkey. by apply lookup_union_Some_l.
  - intros key Hkey. rewrite lookup_union, lookup_singleton_ne by done.
    by destruct (_ !! key).
  - intros Hnone. rewrite lookup_union_r by done. apply lookup_singleton_eq.
Qed.

(** X21.  After a removal that fulfilled, a retrieval of the same ID by the
    same user is turned down, but not always as a missing record.  With a
    relationship store bound the removal has deleted every edge of the
    resource, so the resource has no ancestors left, the retrieve check
    denies and the call rejects with the unauthorized-action error; only
    without a relationship store does it reject with the undefined-context
    error for a record that does not exist. *)
Theorem retrieval_after_removal_is_turned_down (fuel : nat)
    (resourceType resourceID originUserID : value) (factory : Model) (m m' : Machine)
    (removed : string) :
  removeResourceByID fuel resourceType resourceID originUserID m
    = Some (Normal (Fulfilled removed), m') →
  walkableHierarchy m →
  ∃ fuel0, ∀ fuel', fuel0 ≤ fuel' →
    retrieveResourceByID fuel' resourceType (Some factory) resourceID originUserID m'
    = Some (Normal (RejectedWith
              (match resourceRelationshipDatastore m with
               | None => doesNotExist (stringOf resourceType) (stringOf resourceID)
               | Some _ =>
                   notAuthorizedTo "retrieve" (stringOf originUserID) (stringOf resourceType)
                     (stringOf resourceID)
               end)), m').
Proof.
  intros (type & id & user & ds & -> & -> & -> & Huser & Hds & _ & _ & Hexists & -> & Hds' &
            Hrs' & _)%removeResourceByID_fulfilled Hwalkable.
  assert (Hempty : bool_decide (user = EmptyString) = false) by by apply bool_decide_eq_false.
  unfold walkableHierarchy in Hwalkable.
  destruct (resourceRelationshipDatastore m) as [rs|] eqn:Hrs; simpl in Hrs'.
  - destruct Hwalkable as (Hacyclic & Hup & Hdown).
    destruct (verifyThatUserCanRetrieveResource_returns user id m'
                (removeEdgesTouching id rs) Hrs')
      as (fuel0 & A & B & R & _ & _ & HR & Hverify); [by apply acyclicHierarchy_filter|done..|].
    apply walk_returns_nothing in HR as ->.
    2: { apply branchEnds_true. left. simpl.
         destruct (filter _ _) as [|e l] eqn:E; [done|].
         assert (He : e ∈ filter (λ e, subject e = id ∧ predicate e = IS_MEMBER)
                        (filter (λ e, subject e ≠ id ∧ object e ≠ id) (edges rs)))
           by (rewrite E; left).
         apply list_elem_of_filter in He as [[? _] [[? _] _]%list_elem_of_filter]. done. }
    rewrite nodeIDIntersectionList_empty in Hverify
      by (intros x _; apply not_elem_of_nil).
    exists fuel0. intros fuel' Hfuel. specialize (Hverify fuel' Hfuel).
    unfold retrieveResourceByID, async, tryCatch, when.
    unfold mbind, Sync_bind, gets, throw, await, mret, Sync_ret.
    by repeat (progress (simpl; rewrite ?Hempty, ?Hds', ?Hverify)).
  - exists 0. intros fuel' _.
    assert (Hverify : verifyThatUserCanRetrieveResource fuel' user id m'
                      = Some (Normal (Fulfilled true), m')).
    { unfold verifyThatUserCanRetrieveResource, async, tryCatch.
      unfold mbind, Sync_bind, gets. by rewrite Hrs'. }
    assert (Hgone : recordExists (generateItemKey type id)
                      (removeRecord (generateItemKey type id) ds) = false).
    { unfold recordExists. apply bool_decide_eq_false. simpl.
      rewrite lookup_delete_eq. by intros [? ?]. }
    destruct m' as [store' relationships' attributes']. simpl in Hds', Hrs'. subst.
    unfold retrieveResourceByID, async, tryCatch, when, existsAsync, callDatastore.
    unfold mbind, Sync_bind, gets, throw, await, mret, Sync_ret.
    repeat (progress (simpl; rewrite ?Hempty, ?Hverify, ?Hexists)).
    fold (removeRecord (generateItemKey type id) ds). by rewrite Hgone.
Qed.

(** X22.  Whoever creates a resource under their own first direct parent
    (as is the case whenever no explicit parent is passed) can retrieve and
    update it afterwards, provided [SYSTEM] is neither among the user's
    direct parents nor among those the new resource's ID already had: the
    parent is then an ancestor of both.  Where the key of the resource is the
    one the static key generator gives for its type and ID, a retrieval by
    the creator hands the factory the fields the creation stored (over
    whatever the record held before) and settles as the factory decides. *)
Theorem creator_can_reach_the_created_resource (type user : string) (factory : Model)
    (parentNodeID : option string) (m m' : Machine) (rs : RelationshipDatastore)
    (created : creation) :
  createResource (VStr type) (Some factory) (VStr user) parentNodeID m
    = Some (Normal (Fulfilled created), m') →
  resourceRelationshipDatastore m = Some rs →
  firstMemberObject m user = Some (resourceMemberNodeID created) →
  SYSTEM ∉ objectsOf (edges rs) IS_MEMBER (Some user) →
  SYSTEM ∉ objectsOf (edges rs) IS_MEMBER (Some (ID (resource created))) →
  walkableHierarchy m' →
  ∃ fuel0, ∀ fuel, fuel0 ≤ fuel →
    verifyThatUserCanRetrieveResource fuel user (ID (resource created)) m'
      = Some (Normal (Fulfilled true), m') ∧
    verifyThatUserCanUpdateResource fuel user (ID (resource created)) m'
      = Some (Normal (Fulfilled true), m') ∧
    ∀ ds, datastore m = Some ds →
      generateOwnItemKey (resource created) = generateItemKey type (ID (resource created)) →
      datastoreFault ds ExistsAsync = None →
      datastoreFault ds RetrieveAllItemsFromHashByName = None →
      retrieveResourceByID fuel (VStr type) (Some factory) (VStr (ID (resource created)))
        (VStr user) m'
      = Some (Normal
                (match factory (resourceItem (resource created)
                                  ∪ readFields (generateOwnItemKey (resource created)) ds)
                         user VUndefined with
                 | inr retrieved => Fulfilled retrieved
                 | inl e => RejectedWith e
                 end), m').
Proof.
  intros (type' & factory' & user' & ds & passed & parent & built & [= <-] & [= <-] & [= <-] &
            Hnonempty &
            Hds & _ & _ & _ & _ & -> & _ & Hds' & Hrs')%createResource_fulfilled
         Hrs Hfirst Huser Hresource Hwalkable.
  simpl in Hfirst, Hresource |- *. rewrite Hrs in Hrs'. simpl in Hrs'.
  unfold walkableHierarchy in Hwalkable. rewrite Hrs' in Hwalkable.
  destruct Hwalkable as (Hacyclic & Hup & Hdown). simpl in Hup, Hdown.
  unfold firstMemberObject in Hfirst. rewrite Hrs in Hfirst.
  set (rs' := addEdge (Edge (ID built) IS_AUTHORED user)
                (addEdge (Edge (ID built) IS_MEMBER parent) rs)) in *.
  assert (Hparent : parent ∈ objectsOf (edges rs) IS_MEMBER (Some user)).
  { destruct (objectsOf (edges rs) IS_MEMBER (Some user)) as [|p ps]; [done|].
    injection Hfirst as ->. left. }
  assert (Hgrown : ∀ n p, p ∈ objectsOf (edges rs') IS_MEMBER n ↔
            p ∈ objectsOf (edges rs) IS_MEMBER n ∨ (n = Some (ID built) ∧ p = parent)).
  { intros n p. rewrite !elem_of_objectsOf. simpl. split.
    - intros (e & He & -> & Hpredicate & <-).
      rewrite !elem_of_app, !list_elem_of_singleton in He.
      destruct He as [[He| ->]| ->]; [left; eauto|by right|done].
    - intros [(e & He & -> & Hpredicate & <-)|[-> ->]].
      + exists e. rewrite !elem_of_app. naive_solver.
      + exists (Edge (ID built) IS_MEMBER parent).
        rewrite !elem_of_app, !list_elem_of_singleton. naive_solver. }
  assert (Hnotroot : parent ≠ SYSTEM) by (intros ->; done).
  assert (HuserEnds : branchEnds (objectsOf (edges rs') IS_MEMBER (Some user)) = false).
  { apply branchEnds_false. split.
    - intros Hnil. assert (Hin : parent ∈ objectsOf (edges rs') IS_MEMBER (Some user))
        by (apply Hgrown; by left).
      rewrite Hnil in Hin. by apply elem_of_nil in Hin.
    - intros [?|[_ ?]]%Hgrown; done. }
  assert (HresourceEnds :
            branchEnds (objectsOf (edges rs') IS_MEMBER (Some (ID built))) = false).
  { apply branchEnds_false. split.
    - intros Hnil.
      assert (Hin : parent ∈ objectsOf (edges rs') IS_MEMBER (Some (ID built)))
        by (apply Hgrown; by right).
      rewrite Hnil in Hin. by apply elem_of_nil in Hin.
    - intros [?|[_ ?]]%Hgrown; done. }
  destruct (verifyThatUserCanRetrieveResource_returns user (ID built) m' rs' Hrs'
              Hacyclic Hup Hdown) as (f1 & A & B & R & HA & _ & HR & Hretrieve).
  destruct (verifyThatUserCanUpdateResource_returns user (ID built) m' rs' Hrs'
              Hacyclic Hup Hdown) as (f2 & B' & R' & _ & HR' & Hupdate).
  assert (Hallowed : ∀ l, walk_returns (objectsOf (edges rs') IS_MEMBER) None
                            (Some (ID built)) l → parent ∈ l).
  { intros l Hl. apply (walk_returns_gathers _ _ _ _ Hl).
    apply gathers_here; [done|]. apply Hgrown. by right. }
  exists (f1 + f2). intros fuel Hfuel.
  assert (Hverify : verifyThatUserCanRetrieveResource fuel user (ID built) m'
                    = Some (Normal (Fulfilled true), m')).
  { rewrite Hretrieve by lia. do 4 f_equal.
    apply negb_true_iff, bool_decide_eq_false, nodeIDIntersectionList_nonempty.
    exists parent. split; [left|by apply Hallowed].
    apply (walk_returns_gathers _ _ _ _ HA). apply gathers_here; [done|].
    apply Hgrown. by left. }
  split; [done|]. split.
  - rewrite Hupdate by lia. do 4 f_equal.
    apply negb_true_iff, bool_decide_eq_false, nodeIDIntersectionList_nonempty.
    exists parent. split; [left; apply Hgrown; by left|by apply Hallowed].
  - intros ds0 Hds0 Hkey Hexists Hread. assert (ds0 = ds) as -> by congruence.
    assert (Hempty : bool_decide (user = EmptyString) = false)
      by by apply bool_decide_eq_false.
    set (ds' := addMember RESOURCE_ID_BY_TYPE_TABLE_NAME type (ID built)
                  (writeFields (generateOwnItemKey built) (resourceItem built) ds)) in *.
    assert (Hfound : recordExists (generateItemKey type (ID built)) ds' = true).
    { unfold recordExists. apply bool_decide_eq_true. rewrite <- Hkey. simpl.
      by rewrite lookup_insert_eq. }
    assert (Hstored : readFields (generateItemKey type (ID built)) ds'
                      = resourceItem built ∪ readFields (generateOwnItemKey built) ds).
    { rewrite <- Hkey. unfold readFields. simpl. by rewrite lookup_insert_eq. }
    assert (Hexists' : datastoreFault ds' ExistsAsync = None) by done.
    assert (Hread' : datastoreFault ds' RetrieveAllItemsFromHashByName = None) by done.
    clearbody ds'.
    destruct m' as [store' relationships' attributes']. simpl in Hds'. subst store'.
    unfold retrieveResourceByID, async, tryCatch, when, existsAsync,
      retrieveAllItemsFromHashByName, callDatastore, then_, async, tryCatch, construct.
    unfold mbind, Sync_bind, gets, await, mret, Sync_ret, throw.
    repeat (progress (simpl; rewrite ?Hempty, ?Hverify, ?Hexists', ?Hread', ?Hfound,
                        ?Hstored)).
    by destruct (factory _ _ _).
Qed.

End Composition.

(** ** The checks in terms of the graph *)

(** X23.  What the two checks decide, in terms of the graph alone.  Call a
    node gathered from a start when a chain of reads leads from the start
    to it, none of which returns nothing or returns [SYSTEM].  The retrieve
    check allows exactly when some node gathered upward from the resource
    is gathered upward from the user, or downward from the first direct
    parent of the user.  The update check allows exactly when some node
    gathered upward from the resource is a direct parent of the user
    ([SYSTEM] included), or is gathered downward from the first of them. *)
Theorem checks_are_decided_by_the_graph (fuel : nat) (userID resourceID : string)
    (m m' : Machine) (rs : RelationshipDatastore) (allowed : bool) :
  resourceRelationshipDatastore m = Some rs →
  let parents := objectsOf (edges rs) IS_MEMBER in
  let children := subjectsOf (edges rs) IS_MEMBER in
  let direct := parents (Some userID) in
  (verifyThatUserCanRetrieveResource fuel userID resourceID m
     = Some (Normal (Fulfilled allowed), m') →
   (allowed = true ↔
    ∃ x, (gathers parents (Some userID) x ∨
          gathers children (if branchEnds direct then None else head direct) x) ∧
         gathers parents (Some resourceID) x)) ∧
  (verifyThatUserCanUpdateResource fuel userID resourceID m
     = Some (Normal (Fulfilled allowed), m') →
   (allowed = true ↔
    ∃ x, (x ∈ direct ∨ gathers children (head direct) x) ∧
         gathers parents (Some resourceID) x)).
Proof.
  intros Hrs parents children direct. split.
  - intros (-> & [[? _]|(rs' & A & B & R & ? & HA & HB & HR & [= ->])])
           %verifyThatUserCanRetrieveResource_inv; [congruence|].
    assert (rs' = rs) as -> by congruence.
    apply walk_returns_of_walk in HA, HB, HR.
    rewrite (walk_returns_head _ _ _ _ HA) in HB.
    rewrite negb_true_iff, bool_decide_eq_false, nodeIDIntersectionList_nonempty.
    by setoid_rewrite (walk_returns_gathers _ _ _ _ HA);
       setoid_rewrite (walk_returns_gathers _ _ _ _ HB);
       setoid_rewrite (walk_returns_gathers _ _ _ _ HR).
  - intros Hrun.
    apply (verifyThatUserCanUpdateResource_answer _ _ _ _ _ _ _ Hrs) in Hrun
      as (B & R & HB & HR & ->).
    apply walk_returns_of_walk in HB, HR.
    rewrite negb_true_iff, bool_decide_eq_false, nodeIDIntersectionList_nonempty.
    by setoid_rewrite (walk_returns_gathers _ _ _ _ HB);
       setoid_rewrite (walk_returns_gathers _ _ _ _ HR).
Qed.

(** ** Termination of the checks, and store failures past the guards *)

(** X26.  On a hierarchy that can be walked both checks answer, and their
    answers no longer change once the fuel covers every branch of the three
    walks each of them takes. *)
Theorem checks_answer_on_walkable_hierarchies (userID resourceID : string) (m : Machine) :
  walkableHierarchy m →
  ∃ fuel0 canRetrieveResource canUpdateResource, ∀ fuel, fuel0 ≤ fuel →
    verifyThatUserCanRetrieveResource fuel userID resourceID m
      = Some (Normal (Fulfilled canRetrieveResource), m) ∧
    verifyThatUserCanUpdateResource fuel userID resourceID m
      = Some (Normal (Fulfilled canUpdateResource), m).
Proof.
  unfold walkableHierarchy. intros Hwalkable.
  destruct (resourceRelationshipDatastore m) as [rs|] eqn:Hrs.
  - destruct Hwalkable as (Hacyclic & Hup & Hdown).
    destruct (verifyThatUserCanRetrieveResource_returns userID resourceID m rs Hrs
                Hacyclic Hup Hdown) as (f1 & A & B & R & _ & _ & _ & Hretrieve).
    destruct (verifyThatUserCanUpdateResource_returns userID resourceID m rs Hrs
                Hacyclic Hup Hdown) as (f2 & B' & R' & _ & _ & Hupdate).
    eexists (f1 + f2), _, _. intros fuel Hfuel.
    split; [apply Hretrieve|apply Hupdate]; lia.
  - exists 0, true, true. intros fuel _.
    unfold verifyThatUserCanRetrieveResource, verifyThatUserCanUpdateResource, async, tryCatch.
    unfold mbind, Sync_bind, gets. by rewrite Hrs.
Qed.

(** X24.  On a hierarchy that can be walked, update access implies retrieve
    access for every user whose direct parents do not include [SYSTEM]:
    when the update check allows, the retrieve check answers once its fuel
    covers every branch of its walks, and it allows as well. *)
Theorem update_access_implies_retrieve_access (fuel : nat) (userID resourceID : string)
    (m m' : Machine) (rs : RelationshipDatastore) :
  resourceRelationshipDatastore m = Some rs →
  walkableHierarchy m →
  SYSTEM ∉ objectsOf (edges rs) IS_MEMBER (Some userID) →
  verifyThatUserCanUpdateResource fuel userID resourceID m
    = Some (Normal (Fulfilled true), m') →
  ∃ fuel0, ∀ fuel', fuel0 ≤ fuel' →
    verifyThatUserCanRetrieveResource fuel' userID resourceID m
      = Some (Normal (Fulfilled true), m).
Proof.
  intros Hrs Hwalkable Hsystem Hupdate.
  unfold walkableHierarchy in Hwalkable. rewrite Hrs in Hwalkable.
  destruct Hwalkable as (Hacyclic & Hup & Hdown).
  destruct (verifyThatUserCanRetrieveResource_returns userID resourceID m rs Hrs
              Hacyclic Hup Hdown) as (fuel0 & A & B & R & _ & _ & _ & Hanswer).
  exists fuel0. intros fuel' Hfuel. rewrite (Hanswer fuel' Hfuel).
  by rewrite (update_allowed_implies_retrieve_allowed _ _ _ _ _ _ _ _ _ Hrs Hsystem Hupdate
                (Hanswer fuel' Hfuel)).
Qed.

(** Without that assumption the implication is lost to a cycle.  A user
    whose second parent lies on a cycle is allowed to update the resource
    that shares the first parent, since the update check walks down from
    that parent only; the retrieve check walks up from the user, round the
    cycle, and never answers. *)
Example update_allowed_where_retrieve_never_answers :
  (SYSTEM ∉ objectsOf cyclicParentHierarchy IS_MEMBER (Some "userU")) ∧
  verifyThatUserCanUpdateResource 10 "userU" "resourceR" (hierarchyOnly cyclicParentHierarchy)
    = Some (Normal (Fulfilled true), hierarchyOnly cyclicParentHierarchy) ∧
  ∀ fuel,
    verifyThatUserCanRetrieveResource fuel "userU" "resourceR"
      (hierarchyOnly cyclicParentHierarchy) = None.
Proof.
  split; [vm_compute; set_solver|]. split; [vm_compute; reflexivity|]. intros fuel.
  assert (Hnever : ∀ nodeIDList,
            ¬ walk_returns (objectsOf cyclicParentHierarchy IS_MEMBER) None
                (Some "userU") nodeIDList).
  { intros nodeIDList.
    apply (trapped_walk_never_returns (objectsOf cyclicParentHierarchy IS_MEMBER) None
             (λ n, n = Some "userU" ∨ n = Some "a" ∨ n = Some "b")) with (open := λ _, True);
      [|done|done|done|by left].
    intros n [-> | [-> | ->]]; (split; [vm_compute; reflexivity|]).
    - exists "a". split; [vm_compute; set_solver|auto].
    - exists "b". split; [vm_compute; set_solver|auto].
    - exists "a". split; [vm_compute; set_solver|auto]. }
  assert (Hwalk : walk (objectsOf cyclicParentHierarchy IS_MEMBER) None fuel (Some "userU")
                  = None).
  { destruct (walk _ None fuel (Some "userU")) as [l|] eqn:E; [|done].
    by apply walk_returns_of_walk, Hnever in E. }
  unfold verifyThatUserCanRetrieveResource, async, tryCatch.
  unfold mbind, Sync_bind, gets, await, mret, Sync_ret. simpl.
  unfold walkHierarchyTreeUpward. simpl. by rewrite Hwalk.
Qed.

Section StoreFailures.
Context `{!Collaborators}.

(** X27.  Past the guards, [removeResourceByID], [retrieveResourceByID] and
    [updatesResourceByID] pass a failure of the record store on as it is.
    When the existence check fails, or the read of the stored fields does,
    the call rejects with the store's own error, whether the store threw or
    rejected, and nothing has changed: the patch of an update still has its
    reserved keys, which are only deleted once the stored fields are
    there. *)
Theorem record_store_failures_are_passed_on (fuel : nat)
    (firstISOTime secondISOTime : string) (type id user : string) (factory : Model)
    (m : Machine) (ds : Datastore) (failure : fault) :
  user ≠ EmptyString →
  datastore m = Some ds →
  let cause := match failure with Throws e | Rejects e => e end in
  let removal := removeResourceByID fuel (VStr type) (VStr id) (VStr user) m in
  let retrieval :=
    retrieveResourceByID fuel (VStr type) (Some factory) (VStr id) (VStr user) m in
  let update :=
    updatesResourceByID fuel firstISOTime secondISOTime (VStr type) (Some factory) (VStr id)
      (VStr user) m in
  (datastoreFault ds ExistsAsync = Some failure →
   (verifyThatUserCanUpdateResource fuel user id m = Some (Normal (Fulfilled true), m) →
    removal = Some (Normal (RejectedWith cause), m) ∧
    (isObject (resourceAttributes m) = true →
     update = Some (Normal (RejectedWith cause), m))) ∧
   (verifyThatUserCanRetrieveResource fuel user id m = Some (Normal (Fulfilled true), m) →
    retrieval = Some (Normal (RejectedWith cause), m))) ∧
  (datastoreFault ds ExistsAsync = None →
   is_Some (records ds !! generateItemKey type id) →
   datastoreFault ds RetrieveAllItemsFromHashByName = Some failure →
   (verifyThatUserCanUpdateResource fuel user id m = Some (Normal (Fulfilled true), m) →
    isObject (resourceAttributes m) = true →
    update = Some (Normal (RejectedWith cause), m)) ∧
   (verifyThatUserCanRetrieveResource fuel user id m = Some (Normal (Fulfilled true), m) →
    retrieval = Some (Normal (RejectedWith cause), m))).
Proof.
  intros Huser Hds cause removal retrieval update.
  assert (Hempty : bool_decide (user = EmptyString) = false) by by apply bool_decide_eq_false.
  subst cause removal retrieval update.
  destruct m as [store relationships passed]. simpl in Hds. subst store.
  unfold removeResourceByID, retrieveResourceByID, updatesResourceByID.
  unfold async, tryCatch, when, existsAsync, retrieveAllItemsFromHashByName, callDatastore,
    then_, recordExists.
  unfold mbind, Sync_bind, gets, throw, await, mret, Sync_ret.
  split.
  - intros Hexists. split; [intros Hverify; split; [|simpl; intros Hobject]|intros Hverify];
      repeat (progress (simpl; rewrite ?Hempty, ?Hverify, ?Hobject, ?Hexists));
      by destruct failure.
  - intros Hexists Hfound Hread.
    pose proof (bool_decide_eq_true_2 _ Hfound) as Hfound'.
    split; [intros Hverify; simpl; intros Hobject|intros Hverify];
      repeat (progress (simpl; rewrite ?Hempty, ?Hverify, ?Hobject, ?Hexists, ?Hfound',
                          ?Hread));
      by destruct failure.
Qed.

(** X28.  An update that has passed its guards and been handed a resource
    by the factory settles as its one write does: it fulfils with the
    resource, stamped with the second clock reading, once the store has
    merged the meta block and the stripped patch into the record; when the
    write fails it rejects with the store's own error and the record is as
    it was.  The caller's patch has lost its reserved keys either way. *)
Theorem update_settles_as_its_write_does (fuel : nat) (firstISOTime secondISOTime : string)
    (type id user : string) (factory : Model) (m : Machine) (ds : Datastore)
    (passed : gmap string value) (built : Resource) :
  user ≠ EmptyString →
  datastore m = Some ds →
  resourceAttributes m = VObj passed →
  verifyThatUserCanUpdateResource fuel user id m = Some (Normal (Fulfilled true), m) →
  datastoreFault ds ExistsAsync = None →
  is_Some (records ds !! generateItemKey type id) →
  datastoreFault ds RetrieveAllItemsFromHashByName = None →
  factory (mergedAttributes firstISOTime (readFields (generateItemKey type id) ds) passed)
    user VUndefined = inr built →
  let updated := setUpdatedISOTime secondISOTime built in
  let stripped := setResourceAttributes (VObj (stripReserved passed)) m in
  updatesResourceByID fuel firstISOTime secondISOTime (VStr type) (Some factory) (VStr id)
    (VStr user) m
  = match datastoreFault ds AddItemToHashFieldByName with
    | None =>
        Some (Normal (Fulfilled updated),
              setDatastore
                (writeFields (generateItemKey type id)
                   (updateItem updated (VObj (stripReserved passed))) ds)
                stripped)
    | Some (Throws cause) | Some (Rejects cause) =>
        Some (Normal (RejectedWith cause), stripped)
    end.
Proof.
  intros Huser Hds Hpassed Hverify Hexists Hfound Hread Hbuilt updated stripped.
  assert (Hempty : bool_decide (user = EmptyString) = false) by by apply bool_decide_eq_false.
  pose proof (bool_decide_eq_true_2 _ Hfound) as Hfound'.
  subst updated stripped.
  destruct m as [store relationships attributes]. simpl in Hds, Hpassed. subst store attributes.
  unfold mergedAttributes, stripReserved in *.
  unfold updatesResourceByID, async, tryCatch, when, existsAsync,
    retrieveAllItemsFromHashByName, addItemToHashFieldByName, callDatastore, then_, async,
    tryCatch, construct, Reflect_deleteProperty, recordExists.
  unfold mbind, Sync_bind, gets, await, mret, Sync_ret, throw.
  repeat (progress (simpl; rewrite ?Hempty, ?Hverify, ?Hexists, ?Hread, ?Hfound', ?Hbuilt)).
  by destruct (datastoreFault ds AddItemToHashFieldByName) as [[cause|cause]|].
Qed.

End StoreFailures.

(** ** The further properties, run on the scenarios *)

Lemma mesh_walk_in_the_order_issued :
  walkHierarchyTreeUpward 10 (Some "userU") None (hierarchyOnly meshHierarchy)
    = Some (Normal (Fulfilled ["teamA"; "teamB"; "orgA"; "orgB"]), hierarchyOnly meshHierarchy).
Proof. vm_compute. reflexivity. Qed.

(** The same walk when the read of teamB resolves before that of teamA. *)
Lemma mesh_walk_in_another_order :
  walk_returns (objectsOf meshHierarchy IS_MEMBER) None (Some "userU")
    ["teamA"; "teamB"; "orgB"; "orgA"].
Proof.
  eapply rtc_l.
  { apply (walk_resume _ _ [] [] (Some "userU") [] ["teamA"; "teamB"]
             [Some "teamA"; Some "teamB"]). vm_compute. reflexivity. }
  eapply rtc_l.
  { apply (walk_resume _ _ ["teamA"; "teamB"] [Some "teamA"] (Some "teamB") []
             ["teamA"; "teamB"; "orgB"; "orgA"] [Some "orgB"; Some "orgA"]).
    vm_compute. reflexivity. }
  apply (runBranches_steps _ _ 10). vm_compute. reflexivity.
Qed.

Lemma walks_return_every_node_once_witness :
  walkHierarchyTreeUpward 10 (Some "userU") None (hierarchyOnly meshHierarchy)
    = Some (Normal (Fulfilled ["teamA"; "teamB"; "orgA"; "orgB"]), hierarchyOnly meshHierarchy) ∧
  NoDup ["teamA"; "teamB"; "orgA"; "orgB"].
Proof.
  split; [exact mesh_walk_in_the_order_issued|].
  exact (walks_return_every_node_once 10 _ _ _ _ _ (or_introl mesh_walk_in_the_order_issued)).
Defined.

Lemma walks_return_connected_nodes_only_witness :
  ∃ k, "orgB" ∈ withinLevels (objectsOf meshHierarchy IS_MEMBER) k (Some "userU").
Proof.
  refine (proj1 (walks_return_connected_nodes_only 10 (Some "userU") None
                   (hierarchyOnly meshHierarchy) _ _ _ "orgB" eq_refl _)
            mesh_walk_in_the_order_issued).
  do 3 right. left.
Defined.

Lemma unbounded_walks_do_not_depend_on_the_read_order_witness :
  head ["teamA"; "teamB"; "orgA"; "orgB"] = head ["teamA"; "teamB"; "orgB"; "orgA"] ∧
  ["teamA"; "teamB"; "orgA"; "orgB"] ≡ₚ ["teamA"; "teamB"; "orgB"; "orgA"].
Proof.
  apply (unbounded_walks_do_not_depend_on_the_read_order
           (objectsOf meshHierarchy IS_MEMBER) (Some "userU")).
  - apply (walk_returns_of_walk _ _ 10). vm_compute. reflexivity.
  - exact mesh_walk_in_another_order.
Defined.

Lemma walks_return_on_acyclic_hierarchies_witness :
  acyclicHierarchy orgHierarchy ∧
  ∃ fuel0 upward downward, ∀ fuel, fuel0 ≤ fuel →
    walkHierarchyTreeUpward fuel (Some "userU") None (hierarchyOnly orgHierarchy)
      = Some (Normal (Fulfilled upward), hierarchyOnly orgHierarchy) ∧
    walkHierarchyTreeDownward fuel (Some "userU") None (hierarchyOnly orgHierarchy)
      = Some (Normal (Fulfilled downward), hierarchyOnly orgHierarchy).
Proof.
  split; [exact (proj1 scenarios_acyclic)|].
  exact (walks_return_on_acyclic_hierarchies (hierarchyOnly orgHierarchy) _ (Some "userU") None
           eq_refl (proj1 scenarios_acyclic) eq_refl eq_refl).
Defined.

Lemma cyclicHierarchy_traps :
  ∀ n, (n = Some "a" ∨ n = Some "b") →
    branchEnds (objectsOf cyclicHierarchy IS_MEMBER n) = false ∧
    ∃ p, p ∈ objectsOf cyclicHierarchy IS_MEMBER n ∧ (Some p = Some "a" ∨ Some p = Some "b").
Proof.
  intros n [-> | ->]; (split; [vm_compute; reflexivity|]).
  - exists "b". split; [|by right]. vm_compute. left.
  - exists "a". split; [|by left]. vm_compute. left.
Qed.

Lemma cyclicHierarchy_nodes :
  ∀ n p, p ∈ objectsOf cyclicHierarchy IS_MEMBER n → p ∈ ["a"; "b"].
Proof.
  intros n p (e & He & _ & _ & <-)%elem_of_objectsOf.
  repeat (apply elem_of_cons in He as [->|He]; [set_solver|]). by apply elem_of_nil in He.
Qed.

Lemma walks_never_return_from_a_cycle_witness :
  (∀ fuel, walkHierarchyTreeUpward fuel (Some "a") None (hierarchyOnly cyclicHierarchy) = None) ∧
  (∀ fuel, walkHierarchyTreeUpward fuel (Some "a") (Some 3) (hierarchyOnly cyclicHierarchy)
           = None).
Proof.
  split; intros fuel.
  - exact (proj1 (proj2 (proj2
             (walks_never_return_from_a_cycle (objectsOf cyclicHierarchy IS_MEMBER) None
                (λ n, n = Some "a" ∨ n = Some "b") (Some "a") cyclicHierarchy_traps
                (or_introl eq_refl) (or_introl eq_refl)))
             fuel (hierarchyOnly cyclicHierarchy) _ eq_refl) eq_refl).
  - exact (proj1 (proj2 (proj2
             (walks_never_return_from_a_cycle (objectsOf cyclicHierarchy IS_MEMBER) (Some 3)
                (λ n, n = Some "a" ∨ n = Some "b") (Some "a") cyclicHierarchy_traps
                (or_introl eq_refl)
                (or_intror (ex_intro _ 3 (ex_intro _ ["a"; "b"]
                   (conj eq_refl (conj cyclicHierarchy_nodes (le_n 3))))))))
             fuel (hierarchyOnly cyclicHierarchy) _ eq_refl) eq_refl).
Defined.

Lemma walk_stops_after_the_level_that_reaches_the_depth_witness :
  walk (subjectsOf orgHierarchy IS_MEMBER) (Some 1) 1 (Some "orgA")
    = Some ["userU"; "resourceR"].
Proof.
  exact (proj1 (proj2 (walk_stops_after_the_level_that_reaches_the_depth
                         (subjectsOf orgHierarchy IS_MEMBER) 1 (Some "orgA")
                         (or_introl (le_n 1)))) 0).
Defined.

(** The world in which the read of a node's direct parents fails. *)
Lemma failed_read_leaves_retrieval_pending_witness :
  @retrieveResourceByID plainCollaborators 10 (VStr "Dummy") (Some plainModel)
    (VStr "resourceR") (VStr "userU")
    (world noDatastoreFault
       (failingRelationshipCall RetrieveObjectOfRelationshipWithSubject (Rejects storeOutage))
       orgHierarchy passedAttributes)
  = None.
Proof.
  apply (proj2 (proj2
           (@failed_read_leaves_retrieval_pending plainCollaborators 10
              (world noDatastoreFault
                 (failingRelationshipCall RetrieveObjectOfRelationshipWithSubject
                    (Rejects storeOutage))
                 orgHierarchy passedAttributes) _ eq_refl
              (or_introl (ex_intro _ (Rejects storeOutage) eq_refl))))).
  - discriminate.
  - eexists. reflexivity.
Defined.

Lemma failed_parent_read_rejects_witness :
  @updatesResourceByID plainCollaborators 10
    "2021-06-01T00:00:00.000Z" "2021-06-01T00:00:00.001Z"
    (VStr "Dummy") (Some plainModel) (VStr "resourceR") (VStr "userU")
    (world noDatastoreFault
       (failingRelationshipCall RetrieveObjectOfRelationshipWithSubject (Rejects storeOutage))
       orgHierarchy passedAttributes)
  = Some (Normal (RejectedWith storeOutage),
          world noDatastoreFault
            (failingRelationshipCall RetrieveObjectOfRelationshipWithSubject
               (Rejects storeOutage))
            orgHierarchy passedAttributes).
Proof.
  apply (@failed_parent_read_rejects plainCollaborators 10
           "2021-06-01T00:00:00.000Z" "2021-06-01T00:00:00.001Z" "Dummy" "resourceR" "userU"
           plainModel
           (world noDatastoreFault
              (failingRelationshipCall RetrieveObjectOfRelationshipWithSubject
                 (Rejects storeOutage))
              orgHierarchy passedAttributes) _ _ _ (Rejects storeOutage)
           ltac:(discriminate) eq_refl eq_refl eq_refl eq_refl).
Defined.

Lemma quiet_retrieve_settles :
  ∃ outcome m',
    @retrieveResourceByID plainCollaborators 10 (VStr "Dummy") (Some plainModel)
      (VStr "resourceR") (VStr "userU") quietWorld = Some (outcome, m').
Proof. eexists _, _. vm_compute. reflexivity. Qed.

Lemma checks_and_retrieval_change_nothing_witness :
  ∃ outcome m',
    @retrieveResourceByID plainCollaborators 10 (VStr "Dummy") (Some plainModel)
      (VStr "resourceR") (VStr "userU") quietWorld = Some (outcome, m') ∧
    m' = quietWorld.
Proof.
  destruct quiet_retrieve_settles as (outcome & m' & Hrun).
  exists outcome, m'. split; [exact Hrun|].
  exact (proj2 (proj2 (@checks_and_retrieval_change_nothing plainCollaborators 10
                         quietWorld m')) _ _ _ _ _ Hrun).
Defined.

Lemma update_and_removal_leave_the_index_alone_witness :
  ∃ updated m',
    @updatesResourceByID plainCollaborators 10
      "2021-06-01T00:00:00.000Z" "2021-06-01T00:00:00.001Z"
      (VStr "Dummy") (Some plainModel) (VStr "resourceR") (VStr "userU") quietWorld
    = Some (Normal (Fulfilled updated), m') ∧
    resourceRelationshipDatastore m' = resourceRelationshipDatastore quietWorld ∧
    boundIndices m' = boundIndices quietWorld.
Proof.
  destruct quiet_update_fulfils as (updated & m' & Hrun).
  exists updated, m'. split; [exact Hrun|].
  exact (proj1 (@update_and_removal_leave_the_index_alone plainCollaborators 10
                  quietWorld m') _ _ _ _ _ _ _ Hrun).
Defined.

Lemma nodes_next_to_the_root_are_out_of_reach_witness :
  branchEnds (objectsOf rootUserHierarchy IS_MEMBER (Some "orgA")) = true ∧
  ∀ m', verifyThatUserCanUpdateResource 10 "rootUser" "orgA" (hierarchyOnly rootUserHierarchy)
          ≠ Some (Normal (Fulfilled true), m').
Proof.
  split; [reflexivity|].
  exact (proj1 (proj2 (proj2
           (@nodes_next_to_the_root_are_out_of_reach plainCollaborators 10 "rootUser" "orgA"
              (hierarchyOnly rootUserHierarchy) _ eq_refl (or_introl eq_refl))) eq_refl)).
Defined.

Lemma invalid_arguments_reject_before_anything_else_witness :
  rejectedUntouched UnexpectedValueTypeNucleusError quietWorld
    (@createResource plainCollaborators VNull (Some plainModel) (VStr "userU") None quietWorld) ∧
  rejectedUntouched UnexpectedValueTypeNucleusError quietWorld
    (@removeResourceByID plainCollaborators 10 (VStr "Dummy") (VStr "resourceR")
       (VStr EmptyString) quietWorld).
Proof.
  split.
  - apply (proj1 (@invalid_arguments_reject_before_anything_else plainCollaborators 10
                    EmptyString EmptyString VNull VNull (VStr "userU") (Some plainModel) None
                    quietWorld)).
    left. reflexivity.
  - apply (proj1 (proj2 (@invalid_arguments_reject_before_anything_else plainCollaborators 10
                    EmptyString EmptyString (VStr "Dummy") (VStr "resourceR") (VStr EmptyString)
                    None None quietWorld))).
    right. right. reflexivity.
Defined.

Lemma no_datastore_rejects_before_the_hierarchy_is_consulted_witness :
  @createResource plainCollaborators (VStr "Dummy") (Some plainModel) (VStr "userU") None
    (noDatastore cyclicHierarchy passedAttributes)
  = Some (Normal (RejectedWith noDatastoreIsProvided),
          noDatastore cyclicHierarchy passedAttributes).
Proof.
  apply (@no_datastore_rejects_before_the_hierarchy_is_consulted plainCollaborators 10
           EmptyString EmptyString "Dummy" "resourceR" "userU" plainModel None
           (noDatastore cyclicHierarchy passedAttributes) ltac:(discriminate) eq_refl).
  reflexivity.
Defined.

Lemma stranger_is_denied :
  verifyThatUserCanUpdateResource 10 "userV" "resourceR" quietWorld
    = Some (Normal (Fulfilled false), quietWorld) ∧
  verifyThatUserCanRetrieveResource 10 "userV" "resourceR" quietWorld
    = Some (Normal (Fulfilled false), quietWorld).
Proof. split; vm_compute; reflexivity. Qed.

Lemma denied_calls_reject_before_the_record_is_looked_up_witness :
  @removeResourceByID plainCollaborators 10 (VStr "Dummy") (VStr "resourceR") (VStr "userV")
    quietWorld
  = Some (Normal (RejectedWith (notAuthorizedTo "remove" "userV" "Dummy" "resourceR")),
          quietWorld) ∧
  @retrieveResourceByID plainCollaborators 10 (VStr "Dummy") (Some plainModel)
    (VStr "resourceR") (VStr "userV") quietWorld
  = Some (Normal (RejectedWith (notAuthorizedTo "retrieve" "userV" "Dummy" "resourceR")),
          quietWorld).
Proof.
  pose proof (@denied_calls_reject_before_the_record_is_looked_up plainCollaborators 10
                EmptyString EmptyString "Dummy" "resourceR" "userV" plainModel quietWorld
                ltac:(discriminate) ltac:(eexists; reflexivity)) as [Hupdate [Hretrieve _]].
  split.
  - exact (proj1 (Hupdate (proj1 stranger_is_denied))).
  - exact (Hretrieve (proj2 stranger_is_denied)).
Defined.

Lemma missing_records_reject_untouched_witness :
  @retrieveResourceByID plainCollaborators 10 (VStr "Dummy") (Some plainModel)
    (VStr "resourceQ") (VStr "userU") (recordsOnly noDatastoreFault passedAttributes)
  = Some (Normal (RejectedWith (doesNotExist "Dummy" "resourceQ")),
          recordsOnly noDatastoreFault passedAttributes).
Proof.
  apply (@missing_records_reject_untouched plainCollaborators 10
           EmptyString EmptyString "Dummy" "resourceQ" "userU" plainModel
           (recordsOnly noDatastoreFault passedAttributes) _
           ltac:(discriminate) eq_refl eq_refl eq_refl).
  reflexivity.
Defined.

Lemma userU_may_retrieve :
  verifyThatUserCanRetrieveResource 10 "userU" "resourceR" quietWorld
    = Some (Normal (Fulfilled true), quietWorld) ∧
  verifyThatUserCanUpdateResource 10 "userU" "resourceR" quietWorld
    = Some (Normal (Fulfilled true), quietWorld).
Proof. split; vm_compute; reflexivity. Qed.

Lemma retrieval_rebuilds_the_stored_record_witness :
  ∃ retrieved,
    @retrieveResourceByID plainCollaborators 10 (VStr "Dummy") (Some plainModel)
      (VStr "resourceR") (VStr "userU") quietWorld
    = Some (Normal (Fulfilled retrieved), quietWorld) ∧
    ID retrieved = "resourceR".
Proof.
  eexists. split.
  - apply (@retrieval_rebuilds_the_stored_record plainCollaborators 10 "Dummy" "resourceR"
             "userU" plainModel quietWorld _ ltac:(discriminate) eq_refl
             (proj1 userU_may_retrieve) eq_refl ltac:(eexists; reflexivity) eq_refl).
  - reflexivity.
Defined.

Lemma creation_persists_record_index_and_edges_witness :
  ∃ built m',
    @createResource plainCollaborators (VStr "Dummy") (Some plainModel) (VStr "userU") None
      quietWorld
    = Some (Normal (Fulfilled {| resource := built; resourceAuthorID := "userU";
                                 resourceMemberNodeID := "orgA" |}), m') ∧
    ID built = "resourceN" ∧
    ∃ rs', resourceRelationshipDatastore m' = Some rs' ∧
      edges rs' = orgHierarchy ++ [ Edge (ID built) IS_MEMBER "orgA";
                                    Edge (ID built) IS_AUTHORED "userU" ].
Proof.
  destruct (@creation_persists_record_index_and_edges plainCollaborators
              "Dummy" "userU" "orgA" plainModel None quietWorld _ _ _
              ltac:(discriminate) eq_refl eq_refl ltac:(by intros _ rs [= <-]) eq_refl
              ltac:(discriminate) eq_refl eq_refl eq_refl ltac:(by intros rs [= <-]))
    as (m' & Hrun & _ & _ & _ & Hedges).
  eexists _, m'. split; [exact Hrun|]. split; [reflexivity|]. exact Hedges.
Defined.

Lemma creation_failure_leaves_what_was_written_witness :
  ∃ m',
    @createResource plainCollaborators (VStr "Dummy") (Some plainModel) (VStr "userU") None
      (world (failingDatastoreCall AddItemToHashFieldByName (Rejects storeOutage))
         noRelationshipFault orgHierarchy passedAttributes)
    = Some (Normal (RejectedWith storeOutage), m') ∧
    (∃ ds', datastore m' = Some ds' ∧
       records ds' !! "Dummy:resourceN" = None ∧
       indices ds' !! (RESOURCE_ID_BY_TYPE_TABLE_NAME, "Dummy") = Some {["resourceN"]}).
Proof.
  eexists. split.
  - apply (proj1 (@creation_failure_leaves_what_was_written plainCollaborators
             "Dummy" "userU" "orgA" plainModel None
             (world (failingDatastoreCall AddItemToHashFieldByName (Rejects storeOutage))
                noRelationshipFault orgHierarchy passedAttributes) _ _ _ storeOutage
             ltac:(discriminate) eq_refl eq_refl ltac:(by intros _ rs [= <-]) eq_refl
             ltac:(discriminate) eq_refl)); reflexivity.
  - eexists. split; [reflexivity|]. split; vm_compute; reflexivity.
Defined.

Lemma factory_failure_is_wrapped_by_creation_only_witness :
  ∃ m',
    @createResource plainCollaborators (VStr "Dummy") (Some strictModel) (VStr "userU") None
      quietWorld
    = Some (Normal (RejectedWith
                      (@couldNotCreate plainCollaborators "Dummy"
                         (Error ForeignError "The resource is not conform to the model." None))),
            m') ∧
    datastore m' = datastore quietWorld.
Proof.
  eexists. split.
  - apply (proj1 (@factory_failure_is_wrapped_by_creation_only plainCollaborators 10
             EmptyString EmptyString "Dummy" "resourceR" "userU" "orgA" strictModel None
             quietWorld _ _ _ ltac:(discriminate) eq_refl eq_refl));
      [by intros _ rs [= <-]|reflexivity|discriminate|reflexivity].
  - reflexivity.
Defined.

Lemma update_builds_from_stored_fields_overlaid_by_the_patch_witness :
  ∃ updated m' (input : gmap string value),
    @updatesResourceByID plainCollaborators 10
      "2021-06-01T00:00:00.000Z" "2021-06-01T00:00:00.001Z"
      (VStr "Dummy") (Some plainModel) (VStr "resourceR") (VStr "userU") quietWorld
    = Some (Normal (Fulfilled updated), m') ∧
    input !! "name" = Some (VStr "after") ∧
    input !! "size" = Some (VNum 1) ∧
    input !! "ID" = Some (VStr "resourceR").
Proof.
  destruct quiet_update_fulfils as (updated & m' & Hrun).
  destruct (@update_builds_from_stored_fields_overlaid_by_the_patch plainCollaborators
              _ _ _ _ _ _ _ _ _ _ Hrun)
    as (type & id & user & ds & patch & factory & built & input & block & [= <-] & [= <-] &
        _ & [= <-] & [= <-] & _ & _ & _ & Hfields & HID & _).
  exists updated, m', input. split; [exact Hrun|]. split; [|split].
  - rewrite Hfields; [reflexivity|discriminate..].
  - rewrite Hfields; [reflexivity|discriminate..].
  - etrans; [exact HID|reflexivity].
Defined.

Lemma quiet_remove_fulfils :
  ∃ removed m',
    @removeResourceByID plainCollaborators 10 (VStr "Dummy") (VStr "resourceR") (VStr "userU")
      quietWorld = Some (Normal (Fulfilled removed), m').
Proof. eexists _, _. vm_compute. reflexivity. Qed.

Lemma quietWorld_walkable : walkableHierarchy quietWorld.
Proof. split; [exact (proj1 scenarios_acyclic)|]. split; reflexivity. Qed.

Lemma retrieval_after_removal_is_turned_down_witness :
  ∃ removed m',
    @removeResourceByID plainCollaborators 10 (VStr "Dummy") (VStr "resourceR") (VStr "userU")
      quietWorld = Some (Normal (Fulfilled removed), m') ∧
    ∃ fuel0, ∀ fuel', fuel0 ≤ fuel' →
      @retrieveResourceByID plainCollaborators fuel' (VStr "Dummy") (Some plainModel)
        (VStr "resourceR") (VStr "userU") m'
      = Some (Normal (RejectedWith (notAuthorizedTo "retrieve" "userU" "Dummy" "resourceR")),
              m').
Proof.
  destruct quiet_remove_fulfils as (removed & m' & Hrun).
  exists removed, m'. split; [exact Hrun|].
  exact (@retrieval_after_removal_is_turned_down plainCollaborators 10 _ _ _ plainModel _ _ _
           Hrun quietWorld_walkable).
Defined.

(** Without a relationship store the same retrieval finds no record. *)
Example retrieval_after_removal_without_hierarchy :
  ∃ m',
    @removeResourceByID plainCollaborators 10 (VStr "Dummy") (VStr "resourceR") (VStr "userU")
      (recordsOnly noDatastoreFault passedAttributes) = Some (Normal (Fulfilled "resourceR"), m') ∧
    @retrieveResourceByID plainCollaborators 10 (VStr "Dummy") (Some plainModel)
      (VStr "resourceR") (VStr "userU") m'
    = Some (Normal (RejectedWith (doesNotExist "Dummy" "resourceR")), m').
Proof. eexists. split; vm_compute; reflexivity. Qed.

Lemma quiet_create_is_walkable :
  ∃ created m',
    @createResource plainCollaborators (VStr "Dummy") (Some plainModel) (VStr "userU") None
      quietWorld
    = Some (Normal (Fulfilled created), m') ∧
    resourceMemberNodeID created = "orgA" ∧
    ID (resource created) = "resourceN" ∧
    generateOwnItemKey (resource created) = "Dummy:resourceN" ∧
    walkableHierarchy m'.
Proof.
  destruct quiet_create_fulfils as (created & m' & Hrun).
  exists created, m'. split; [exact Hrun|].
  destruct (createResource_fulfilled _ _ _ _ _ _ _ Hrun)
    as (type & factory & user & ds & passed & parent & built & _ & [= <-] & [= <-] & _ & _ &
        [= <-] & _ & Hparent & [= <-] & -> & _ & _ & Hrs').
  destruct Hparent as (rs & [= <-] & [= <-]).
  split; [reflexivity|]. split; [reflexivity|]. split; [reflexivity|].
  unfold walkableHierarchy. rewrite Hrs'. simpl.
  split; [|split; reflexivity].
  exists scenarioRank. intros e He Hpredicate.
  repeat (apply elem_of_cons in He as [->|He];
          [first [vm_compute; lia|by vm_compute in Hpredicate]|]).
  by apply elem_of_nil in He.
Qed.

Lemma userU_is_below_the_root :
  SYSTEM ∉ objectsOf orgHierarchy IS_MEMBER (Some "userU").
Proof. vm_compute. intros [=]%list_elem_of_singleton. Qed.

Lemma creator_can_reach_the_created_resource_witness :
  ∃ created m',
    @createResource plainCollaborators (VStr "Dummy") (Some plainModel) (VStr "userU") None
      quietWorld
    = Some (Normal (Fulfilled created), m') ∧
    ∃ fuel0, ∀ fuel, fuel0 ≤ fuel →
      verifyThatUserCanRetrieveResource fuel "userU" (ID (resource created)) m'
        = Some (Normal (Fulfilled true), m') ∧
      verifyThatUserCanUpdateResource fuel "userU" (ID (resource created)) m'
        = Some (Normal (Fulfilled true), m') ∧
      ∃ retrieved,
        @retrieveResourceByID plainCollaborators fuel (VStr "Dummy") (Some plainModel)
          (VStr (ID (resource created))) (VStr "userU") m'
        = Some (Normal (Fulfilled retrieved), m').
Proof.
  destruct quiet_create_is_walkable as (created & m' & Hrun & Hparent & HID & Hkey & Hwalkable).
  exists created, m'. split; [exact Hrun|].
  destruct (@creator_can_reach_the_created_resource plainCollaborators "Dummy" "userU"
              plainModel None quietWorld m' _ created Hrun eq_refl) as [fuel0 Hreach];
    [| | |exact Hwalkable|].
  - rewrite Hparent. reflexivity.
  - exact userU_is_below_the_root.
  - rewrite HID. vm_compute. apply not_elem_of_nil.
  - exists fuel0. intros fuel Hfuel.
    destruct (Hreach fuel Hfuel) as (Hretrieve & Hupdate & Hround).
    split; [exact Hretrieve|]. split; [exact Hupdate|].
    eexists. apply (Hround _ eq_refl); [|reflexivity..].
    rewrite Hkey, HID. reflexivity.
Defined.

Lemma update_access_implies_retrieve_access_witness :
  walkableHierarchy quietWorld ∧
  verifyThatUserCanUpdateResource 10 "userU" "resourceR" quietWorld
    = Some (Normal (Fulfilled true), quietWorld) ∧
  ∃ fuel0, ∀ fuel, fuel0 ≤ fuel →
    verifyThatUserCanRetrieveResource fuel "userU" "resourceR" quietWorld
      = Some (Normal (Fulfilled true), quietWorld).
Proof.
  split; [exact quietWorld_walkable|]. split; [exact (proj2 userU_may_retrieve)|].
  exact (update_access_implies_retrieve_access 10 "userU" "resourceR" quietWorld _ _ eq_refl
           quietWorld_walkable userU_is_below_the_root (proj2 userU_may_retrieve)).
Defined.

Lemma remove_record_failure_skips_cleanup_witness :
  @removeResourceByID plainCollaborators 10 (VStr "Dummy") (VStr "resourceR") (VStr "userU")
    (world (failingDatastoreCall RemoveItemByName (Rejects storeOutage)) noRelationshipFault
       orgHierarchy passedAttributes)
  = Some (Normal (RejectedWith storeOutage),
          world (failingDatastoreCall RemoveItemByName (Rejects storeOutage))
            noRelationshipFault orgHierarchy passedAttributes).
Proof.
  apply (@remove_record_failure_skips_cleanup plainCollaborators 10 "Dummy" "resourceR" "userU"
           (world (failingDatastoreCall RemoveItemByName (Rejects storeOutage))
              noRelationshipFault orgHierarchy passedAttributes) _ storeOutage
           ltac:(discriminate) eq_refl ltac:(vm_compute; reflexivity) eq_refl
           ltac:(eexists; reflexivity) eq_refl).
Defined.

Lemma team_member_may_retrieve :
  verifyThatUserCanRetrieveResource 10 "userU" "resourceR" (hierarchyOnly teamHierarchy)
    = Some (Normal (Fulfilled true), hierarchyOnly teamHierarchy).
Proof. vm_compute. reflexivity. Qed.

Lemma checks_are_decided_by_the_graph_witness :
  verifyThatUserCanRetrieveResource 10 "userU" "resourceR" (hierarchyOnly teamHierarchy)
    = Some (Normal (Fulfilled true), hierarchyOnly teamHierarchy) ∧
  ∃ x, (gathers (objectsOf teamHierarchy IS_MEMBER) (Some "userU") x ∨
        gathers (subjectsOf teamHierarchy IS_MEMBER) (Some "team") x) ∧
       gathers (objectsOf teamHierarchy IS_MEMBER) (Some "resourceR") x.
Proof.
  split; [exact team_member_may_retrieve|].
  exact (proj1 (proj1 (checks_are_decided_by_the_graph 10 "userU" "resourceR"
                         (hierarchyOnly teamHierarchy) _ _ true eq_refl)
                  team_member_may_retrieve) eq_refl).
Defined.

Lemma checks_answer_on_walkable_hierarchies_witness :
  walkableHierarchy quietWorld ∧
  ∃ fuel0 canRetrieveResource canUpdateResource, ∀ fuel, fuel0 ≤ fuel →
    verifyThatUserCanRetrieveResource fuel "userV" "resourceR" quietWorld
      = Some (Normal (Fulfilled canRetrieveResource), quietWorld) ∧
    verifyThatUserCanUpdateResource fuel "userV" "resourceR" quietWorld
      = Some (Normal (Fulfilled canUpdateResource), quietWorld).
Proof.
  split; [exact quietWorld_walkable|].
  exact (checks_answer_on_walkable_hierarchies "userV" "resourceR" quietWorld
           quietWorld_walkable).
Defined.

Lemma userU_may_retrieve_during_the_outage :
  verifyThatUserCanRetrieveResource 10 "userU" "resourceR"
    (world (failingDatastoreCall ExistsAsync (Throws storeOutage)) noRelationshipFault
       orgHierarchy passedAttributes)
  = Some (Normal (Fulfilled true),
          world (failingDatastoreCall ExistsAsync (Throws storeOutage)) noRelationshipFault
            orgHierarchy passedAttributes).
Proof. vm_compute. reflexivity. Qed.

Lemma record_store_failures_are_passed_on_witness :
  @retrieveResourceByID plainCollaborators 10 (VStr "Dummy") (Some plainModel)
    (VStr "resourceR") (VStr "userU")
    (world (failingDatastoreCall ExistsAsync (Throws storeOutage)) noRelationshipFault
       orgHierarchy passedAttributes)
  = Some (Normal (RejectedWith storeOutage),
          world (failingDatastoreCall ExistsAsync (Throws storeOutage)) noRelationshipFault
            orgHierarchy passedAttributes).
Proof.
  exact (proj2 (proj1 (@record_store_failures_are_passed_on plainCollaborators 10
                         EmptyString EmptyString "Dummy" "resourceR" "userU" plainModel
                         (world (failingDatastoreCall ExistsAsync (Throws storeOutage))
                            noRelationshipFault orgHierarchy passedAttributes)
                         _ (Throws storeOutage) ltac:(discriminate) eq_refl) eq_refl)
           userU_may_retrieve_during_the_outage).
Defined.

Lemma update_settles_as_its_write_does_witness :
  ∃ updated m',
    @updatesResourceByID plainCollaborators 10
      "2021-06-01T00:00:00.000Z" "2021-06-01T00:00:00.001Z"
      (VStr "Dummy") (Some plainModel) (VStr "resourceR") (VStr "userU") quietWorld
    = Some (Normal (Fulfilled updated), m') ∧
    meta updated !! "updatedISOTime" = Some (VStr "2021-06-01T00:00:00.001Z").
Proof.
  eexists _, _. split.
  - apply (@update_settles_as_its_write_does plainCollaborators 10
             "2021-06-01T00:00:00.000Z" "2021-06-01T00:00:00.001Z" "Dummy" "resourceR" "userU"
             plainModel quietWorld _ _ _ ltac:(discriminate) eq_refl eq_refl
             (proj2 userU_may_retrieve) eq_refl ltac:(eexists; reflexivity) eq_refl eq_refl).
  - apply lookup_insert_eq.
Defined.
